(** * NVD CVE replication service: a shallow embedding of [cve/utils.py] and
    [cve/views.py], with the synchronisation and filtering properties of the
    service settled against it.

    Layout: Python/JSON values; the runtime library (dates, number parsing);
    the MongoDB collection; the world and its state-and-exception monad; the
    functions of [utils.py] and the update view; the [asyncio.Lock] protocol;
    then the lemmas and theorems. *)

From Stdlib Require Import List String Ascii ZArith QArith Qround Bool Lia.
Import ListNotations.
Local Open Scope string_scope.
Local Open Scope Z_scope.

(* ===================================================================== *)
(** ** Python / JSON values *)
(* ===================================================================== *)

(** The data the program handles is what [response.json()] produces and what
    MongoDB stores.  A Python [int] and a Python [float] are both [VNum]: the
    program and the store only ever read a number through its numeric value
    (truthiness, [<], equality), and MongoDB compares numbers across numeric
    types.  A float is the exact rational it denotes; rounding of literals
    longer than a double's precision is not modelled. *)
#[local] Unset Elimination Schemes.
Inductive value : Type :=
| VNone
| VBool (b : bool)
| VNum (q : Q)
| VStr (s : string)
| VList (xs : list value)
| VDict (kv : list (string * value)).
#[local] Set Elimination Schemes.

(** A Python [dict] with string keys, in insertion order. *)
Definition dict : Type := list (string * value).

(** [bool(v)]: the truth value Python gives to [v] in [if v:] and [not v]. *)
Definition truthy (v : value) : bool :=
  match v with
  | VNone => false
  | VBool b => b
  | VNum q => negb (Qeq_bool q 0)
  | VStr s => negb (String.eqb s EmptyString)
  | VList xs => match xs with [] => false | _ => true end
  | VDict kv => match kv with [] => false | _ => true end
  end.

(** [d.get(k)] as an option; [key in d]; [d[k] = v] (an existing key keeps its
    position, a new key goes last). *)
Fixpoint dict_get (k : string) (d : dict) : option value :=
  match d with
  | [] => None
  | (k', v) :: d' => if String.eqb k k' then Some v else dict_get k d'
  end.

Definition dict_has (k : string) (d : dict) : bool :=
  match dict_get k d with Some _ => true | None => false end.

Fixpoint dict_set (k : string) (v : value) (d : dict) : dict :=
  match d with
  | [] => [(k, v)]
  | (k', v') :: d' =>
      if String.eqb k k' then (k', v) :: d' else (k', v') :: dict_set k v d'
  end.

(** [d.update(e)] *)
Definition dict_update (d e : dict) : dict :=
  fold_left (fun acc kv => dict_set (fst kv) (snd kv) acc) e d.

(** Equality of two values as the store decides it: numbers by numeric value,
    arrays element by element, documents field by field in order. *)
Fixpoint value_eqb (a b : value) {struct a} : bool :=
  match a, b with
  | VNone, VNone => true
  | VBool x, VBool y => Bool.eqb x y
  | VNum x, VNum y => Qeq_bool x y
  | VStr x, VStr y => String.eqb x y
  | VList xs, VList ys =>
      (fix go (xs ys : list value) {struct xs} : bool :=
         match xs, ys with
         | [], [] => true
         | x :: xs', y :: ys' => value_eqb x y && go xs' ys'
         | _, _ => false
         end) xs ys
  | VDict xs, VDict ys =>
      (fix go (xs ys : dict) {struct xs} : bool :=
         match xs, ys with
         | [], [] => true
         | (k, x) :: xs', (k', y) :: ys' =>
             String.eqb k k' && value_eqb x y && go xs' ys'
         | _, _ => false
         end) xs ys
  | _, _ => false
  end.

(** [s.split("T")[0]]: the part of [s] before its first capital T. *)
Fixpoint before_T (s : string) : string :=
  match s with
  | EmptyString => EmptyString
  | String c s' => if Ascii.eqb c "T"%char then EmptyString else String c (before_T s')
  end.

(** [s.replace("Z", "+00:00")] *)
Fixpoint replace_Z (s : string) : string :=
  match s with
  | EmptyString => EmptyString
  | String c s' =>
      if Ascii.eqb c "Z"%char then "+00:00" ++ replace_Z s'
      else String c (replace_Z s')
  end.

(* ===================================================================== *)
(** ** The runtime library: [datetime], [float()], [int()] *)
(* ===================================================================== *)

(** A [datetime]: microseconds since 1970-01-01T00:00:00, and whether the
    value carries a UTC offset (an aware value is held as its UTC instant). *)
Record datetime : Type := mkDatetime { aware : bool; micros : Z }.

Definition MICROS_PER_DAY : Z := 86400 * 1000000.

(** [timedelta(days=n)] in microseconds. *)
Definition timedelta_days (n : Z) : Z := n * MICROS_PER_DAY.

(** The parsers of the standard library, whose accepted syntax varies with
    the interpreter's version.  [None] stands for the [ValueError] the Python
    function raises on a string it rejects. *)
Class PyRuntime : Type := {
  fromisoformat : string -> option datetime;   (* datetime.fromisoformat *)
  float_of_str : string -> option Q;           (* float(s) *)
  int_of_str : string -> option Z              (* int(s) *)
}.

(** *** Calendar arithmetic, and a concrete runtime for the common fragment

    [YYYY-MM-DD], optionally followed by a separator and [HH:MM:SS], an
    optional [.ffffff] and an optional [+HH:MM] / [-HH:MM] offset; plain
    decimal numerals.  The worked examples run on it. *)
Module Cal.

Definition digit_of (c : ascii) : option Z :=
  let n := Z.of_nat (nat_of_ascii c) in
  if (48 <=? n) && (n <=? 57) then Some (n - 48) else None.

Fixpoint digits_acc (s : string) (acc : Z) : option Z :=
  match s with
  | EmptyString => Some acc
  | String c s' =>
      match digit_of c with
      | Some d => digits_acc s' (10 * acc + d)
      | None => None
      end
  end.

(** A non-empty run of decimal digits. *)
Definition number (s : string) : option Z :=
  match s with
  | EmptyString => None
  | _ => digits_acc s 0
  end.

Definition is_leap (y : Z) : bool :=
  ((y mod 4 =? 0) && negb (y mod 100 =? 0)) || (y mod 400 =? 0).

Definition days_in_month (y m : Z) : Z :=
  if m =? 2 then (if is_leap y then 29 else 28)
  else if (m =? 4) || (m =? 6) || (m =? 9) || (m =? 11) then 30 else 31.

(** Days from 1970-01-01 to the civil date [y-m-d] (proleptic Gregorian). *)
Definition days_from_civil (y m d : Z) : Z :=
  let y' := if m <=? 2 then y - 1 else y in
  let era := y' / 400 in
  let yoe := y' - era * 400 in
  let mp := if m >? 2 then m - 3 else m + 9 in
  let doy := (153 * mp + 2) / 5 + d - 1 in
  let doe := yoe * 365 + yoe / 4 - yoe / 100 + doy in
  era * 146097 + doe - 719468.

Definition civil_from_days (z : Z) : Z * Z * Z :=
  let z' := z + 719468 in
  let era := z' / 146097 in
  let doe := z' - era * 146097 in
  let yoe := (doe - doe / 1460 + doe / 36524 - doe / 146096) / 365 in
  let doy := doe - (365 * yoe + yoe / 4 - yoe / 100) in
  let mp := (5 * doy + 2) / 153 in
  let d := doy - (153 * mp + 2) / 5 + 1 in
  let m := if mp <? 10 then mp + 3 else mp - 9 in
  let y := yoe + era * 400 in
  (if m <=? 2 then y + 1 else y, m, d).

Definition sub (s : string) (from len : nat) : string := substring from len s.

Definition char_at (s : string) (i : nat) : option ascii := String.get i s.

Definition is_char (s : string) (i : nat) (c : ascii) : bool :=
  match char_at s i with Some c' => Ascii.eqb c c' | None => false end.

(** [YYYY-MM-DD] at the head of [s], as a day number. *)
Definition parse_date (s : string) : option Z :=
  match number (sub s 0 4), number (sub s 5 2), number (sub s 8 2) with
  | Some y, Some m, Some d =>
      if is_char s 4 "-" && is_char s 7 "-"
         && (1 <=? y) && (1 <=? m) && (m <=? 12)
         && (1 <=? d) && (d <=? days_in_month y m)
      then Some (days_from_civil y m d) else None
  | _, _, _ => None
  end.

(** [HH:MM:SS] at offset [i] of [s], in seconds. *)
Definition parse_hms (s : string) (i : nat) : option Z :=
  match number (sub s i 2), number (sub s (i + 3) 2), number (sub s (i + 6) 2) with
  | Some h, Some mi, Some se =>
      if is_char s (i + 2) ":" && is_char s (i + 5) ":"
         && (h <? 24) && (mi <? 60) && (se <? 60)
      then Some (h * 3600 + mi * 60 + se) else None
  | _, _, _ => None
  end.

(** [+HH:MM] or [-HH:MM], the whole of [s], in seconds east of UTC. *)
Definition parse_offset (s : string) : option Z :=
  match number (sub s 1 2), number (sub s 4 2) with
  | Some h, Some mi =>
      if (Nat.eqb (String.length s) 6) && is_char s 3 ":" && (h <? 24) && (mi <? 60)
      then if is_char s 0 "+" then Some (h * 3600 + mi * 60)
           else if is_char s 0 "-" then Some (- (h * 3600 + mi * 60))
           else None
      else None
  | _, _ => None
  end.

Definition parse_iso (s : string) : option datetime :=
  match parse_date s with
  | None => None
  | Some day =>
      let n := String.length s in
      if Nat.eqb n 10 then Some (mkDatetime false (day * MICROS_PER_DAY))
      else
        match parse_hms s 11 with
        | None => None
        | Some secs =>
            let '(frac, rest) :=
              if is_char s 19 "." then (number (sub s 20 6), 26%nat)
              else (Some 0, 19%nat) in
            match frac with
            | None => None
            | Some us =>
                if (rest =? 26)%nat && negb (Nat.eqb (String.length (sub s 20 6)) 6)
                then None
                else
                  let wall := day * MICROS_PER_DAY + secs * 1000000 + us in
                  if Nat.eqb n rest then Some (mkDatetime false wall)
                  else
                    match parse_offset (sub s rest (n - rest)) with
                    | Some off => Some (mkDatetime true (wall - off * 1000000))
                    | None => None
                    end
            end
        end
  end.

Definition digit_char (d : Z) : ascii := ascii_of_nat (Z.to_nat (48 + d mod 10)).

(** [n] written with [width] decimal digits, zero-padded. *)
Fixpoint pad (width : nat) (n : Z) : string :=
  match width with
  | O => EmptyString
  | S w => pad w (n / 10) ++ String (digit_char n) EmptyString
  end.

Definition format_iso (t : datetime) : string :=
  let day := micros t / MICROS_PER_DAY in
  let rest := micros t mod MICROS_PER_DAY in
  let '(y, m, d) := civil_from_days day in
  let secs := rest / 1000000 in
  let us := rest mod 1000000 in
  pad 4 y ++ "-" ++ pad 2 m ++ "-" ++ pad 2 d ++ "T"
  ++ pad 2 (secs / 3600) ++ ":" ++ pad 2 (secs / 60 mod 60) ++ ":" ++ pad 2 (secs mod 60)
  ++ (if us =? 0 then EmptyString else "." ++ pad 6 us)
  ++ (if aware t then "+00:00" else EmptyString).

Definition split_sign (s : string) : bool * string :=
  match s with
  | String c s' =>
      if Ascii.eqb c "-" then (true, s')
      else if Ascii.eqb c "+" then (false, s') else (false, s)
  | EmptyString => (false, s)
  end.

Definition parse_int (s : string) : option Z :=
  let '(neg, body) := split_sign s in
  match number body with
  | Some n => Some (if neg then - n else n)
  | None => None
  end.

(** The part of [s] before and after its first dot. *)
Fixpoint cut_dot (s : string) : string * option string :=
  match s with
  | EmptyString => (EmptyString, None)
  | String c s' =>
      if Ascii.eqb c "." then (EmptyString, Some s')
      else let '(a, b) := cut_dot s' in (String c a, b)
  end.

Definition parse_float (s : string) : option Q :=
  let '(neg, body) := split_sign s in
  let '(ip, fp) := cut_dot body in
  let sign (q : Q) : Q := if neg then Qopp q else q in
  match fp with
  | None =>
      match number ip with Some n => Some (sign (inject_Z n)) | None => None end
  | Some f =>
      match number ip, number f with
      | Some n, Some k =>
          Some (sign (Qred (Qmake (n * 10 ^ Z.of_nat (String.length f) + k)
                                  (Z.to_pos (10 ^ Z.of_nat (String.length f))))))
      | _, _ => None
      end
  end.

End Cal.

Definition cpython : PyRuntime := {|
  fromisoformat := Cal.parse_iso;
  float_of_str := Cal.parse_float;
  int_of_str := Cal.parse_int |}.

(** [t.isoformat()] *)
Definition isoformat (t : datetime) : string := Cal.format_iso t.

(* ===================================================================== *)
(** ** The MongoDB collection behind [cve_collection] *)
(* ===================================================================== *)

(** [cve_collection] is created in [cve/models.py].  What the program relies
    on is kept as data: the stored documents in insertion order, whether the
    collection carries a unique index on ["id"], and whether the server can
    be reached.  The [_id] the driver adds to an inserted document is left
    out: the program never reads it back, and the records of the feed are
    taken to carry none of their own. *)
Record collection : Type := mkCollection {
  docs : list dict;
  unique_id : bool;
  reachable : bool
}.

(** The values a dotted path reaches in a document.  An array met on the way
    is searched through those of its elements that are documents. *)
Fixpoint path_values (path : list string) (v : value) : list value :=
  match path with
  | [] => [v]
  | k :: path' =>
      let field (d : dict) : list value :=
        match dict_get k d with
        | Some x => path_values path' x
        | None => []
        end in
      match v with
      | VDict d => field d
      | VList xs =>
          flat_map (fun e => match e with VDict d => field d | _ => [] end) xs
      | _ => []
      end
  end.

(** A reached value satisfies [{path: q}] when it equals [q] or is an array
    holding [q]. *)
Definition eq_match (q c : value) : bool :=
  value_eqb q c
  || match c with VList xs => existsb (value_eqb q) xs | _ => false end.

(** [<=] between two values of one type (strings by code point, numbers by
    value); values of different types are not comparable. *)
Definition value_leb (a b : value) : bool :=
  match a, b with
  | VStr x, VStr y => String.leb x y
  | VNum x, VNum y => Qle_bool x y
  | _, _ => false
  end.

Definition gte_match (lo c : value) : bool :=
  value_leb lo c
  || match c with VList xs => existsb (value_leb lo) xs | _ => false end.

Definition lte_match (hi c : value) : bool :=
  value_leb c hi
  || match c with VList xs => existsb (fun x => value_leb x hi) xs | _ => false end.

(** The query documents the program builds. *)
Inductive clause : Type :=
| FieldEq (path : list string) (q : value)
    (* {"a.b": q} *)
| AnyOf (alts : list (list string * value))
    (* {"$or": [{"a.b": q1}, {"c.d": q2}]} *)
| FieldBetween (path : list string) (lo hi : value).
    (* {"a.b": {"$gte": lo, "$lte": hi}} *)

(** A query is the conjunction of its clauses. *)
Definition query : Type := list clause.

Definition field_eq (path : list string) (q : value) (d : dict) : bool :=
  match path_values path (VDict d) with
  | [] => value_eqb q VNone
  | cs => existsb (eq_match q) cs
  end.

Definition clause_matches (c : clause) (d : dict) : bool :=
  match c with
  | FieldEq path q => field_eq path q d
  | AnyOf alts => existsb (fun a => field_eq (fst a) (snd a) d) alts
  | FieldBetween path lo hi =>
      let cs := path_values path (VDict d) in
      existsb (gte_match lo) cs && existsb (lte_match hi) cs
  end.

Definition matches (q : query) (d : dict) : bool :=
  forallb (fun c => clause_matches c d) q.

(** The key of a document in the unique index on ["id"]. *)
Definition index_key (d : dict) : value :=
  match dict_get "id" d with Some v => v | None => VNone end.

Definition same_id (a b : dict) : bool := value_eqb (index_key a) (index_key b).

(** One insert: refused with a duplicate-key error when the collection has
    the unique index and a stored document carries the same key. *)
Definition insert_one (d : dict) (c : collection) : option collection :=
  if unique_id c && existsb (fun s => same_id s d) (docs c)
  then None
  else Some (mkCollection (docs c ++ [d])%list (unique_id c) (reachable c)).

(** [bulk_write(ops)] with the driver's default [ordered=True]: the inserts
    are applied in order, and the first one that fails ends the batch; the
    inserts before it stay.  The boolean tells whether every insert went in. *)
Fixpoint bulk_insert (ops : list dict) (c : collection) : collection * bool :=
  match ops with
  | [] => (c, true)
  | d :: ops' =>
      match insert_one d c with
      | Some c' => bulk_insert ops' c'
      | None => (c, false)
      end
  end.

(** [bulk_write(ops, ordered=False)], which the program does not use: every
    insert is attempted.  Kept for comparison. *)
Fixpoint bulk_insert_unordered (ops : list dict) (c : collection) : collection * bool :=
  match ops with
  | [] => (c, true)
  | d :: ops' =>
      match insert_one d c with
      | Some c' => bulk_insert_unordered ops' c'
      | None => (fst (bulk_insert_unordered ops' c), false)
      end
  end.

(* ===================================================================== *)
(** ** The world, and the monad of the program *)
(* ===================================================================== *)

Inductive exn : Type :=
| ValueError | TypeError | AttributeError | OverflowError
| JSONDecodeError          (* a subclass of ValueError *)
| BulkWriteError | InvalidOperation | ConnectionFailure.

Definition is_ValueError (e : exn) : bool :=
  match e with ValueError | JSONDecodeError => true | _ => false end.

Definition is_BulkWriteError (e : exn) : bool :=
  match e with BulkWriteError => true | _ => false end.

Inductive level : Type := INFO | ERROR.

(** What the feed answers to one GET. *)
Inductive reply : Type :=
| Http (status : Z) (body : option value)   (* body: the JSON, if it decodes *)
| ClientErr.                                (* aiohttp.ClientError *)

(** Everything the program reads or changes: the collection, the two module
    globals of [utils.py], the feed as the script of its coming answers, the
    GETs issued so far (oldest first), the log, and the clock. *)
Record world : Type := mkWorld {
  cve_collection : collection;
  last_sync_timestamp : value;
  sync_lock : bool;                 (* asyncio.Lock.locked() *)
  nvd : list reply;
  sent : list value;
  logged : list (level * string);
  utcnow : Z                        (* datetime.now(timezone.utc), in microseconds *)
}.

Definition set_collection (c : collection) (w : world) : world :=
  mkWorld c (last_sync_timestamp w) (sync_lock w) (nvd w) (sent w) (logged w) (utcnow w).
Definition set_last_sync_timestamp (v : value) (w : world) : world :=
  mkWorld (cve_collection w) v (sync_lock w) (nvd w) (sent w) (logged w) (utcnow w).
Definition set_sync_lock (b : bool) (w : world) : world :=
  mkWorld (cve_collection w) (last_sync_timestamp w) b (nvd w) (sent w) (logged w) (utcnow w).
Definition set_nvd (rs : list reply) (w : world) : world :=
  mkWorld (cve_collection w) (last_sync_timestamp w) (sync_lock w) rs (sent w) (logged w) (utcnow w).
Definition add_sent (p : value) (w : world) : world :=
  mkWorld (cve_collection w) (last_sync_timestamp w) (sync_lock w) (nvd w)
          (sent w ++ [p])%list (logged w) (utcnow w).
Definition add_logged (l : level) (msg : string) (w : world) : world :=
  mkWorld (cve_collection w) (last_sync_timestamp w) (sync_lock w) (nvd w) (sent w)
          (logged w ++ [(l, msg)])%list (utcnow w).

(** How a call ends: with a value, with an exception, or suspended on
    [sync_lock] (the caller waits for the holder to release it). *)
Inductive outcome (A : Type) : Type :=
| Ok (a : A)
| Raise (e : exn)
| Parked.
Arguments Ok {A} a.
Arguments Raise {A} e.
Arguments Parked {A}.

(** A computation: the state survives an exception, as in Python. *)
Definition M (A : Type) : Type := world -> outcome A * world.

Definition ret {A} (a : A) : M A := fun w => (Ok a, w).
Definition raise {A} (e : exn) : M A := fun w => (Raise e, w).
Definition bind {A B} (m : M A) (k : A -> M B) : M B :=
  fun w =>
    match m w with
    | (Ok a, w') => k a w'
    | (Raise e, w') => (Raise e, w')
    | (Parked, w') => (Parked, w')
    end.

Declare Scope py_scope.
Delimit Scope py_scope with py.
Notation "x <- m ;; k" := (bind m (fun x => k))
  (at level 61, m at next level, right associativity) : py_scope.
Notation "m ;;; k" := (bind m (fun _ => k))
  (at level 61, right associativity) : py_scope.
Local Open Scope py_scope.

(** [try: body  except <caught>: handler] *)
Definition try_except {A} (body : M A) (caught : exn -> bool) (handler : exn -> M A) : M A :=
  fun w =>
    match body w with
    | (Raise e, w') => if caught e then handler e w' else (Raise e, w')
    | r => r
    end.

Definition modify (f : world -> world) : M unit := fun w => (Ok tt, f w).
Definition gets {A} (f : world -> A) : M A := fun w => (Ok (f w), w).
Definition logger (l : level) (msg : string) : M unit := modify (add_logged l msg).
Definition lift_option {A} (o : option A) (e : exn) : M A :=
  match o with Some a => ret a | None => raise e end.

(** *** Operations of the collection, as the driver exposes them *)

Definition count_documents (q : query) (limit : Z) : M Z :=
  fun w =>
    let c := cve_collection w in
    if reachable c
    then (Ok (Z.min limit (Z.of_nat (List.length (filter (matches q) (docs c))))), w)
    else (Raise ConnectionFailure, w).

Definition bulk_write (ops : list dict) : M unit :=
  fun w =>
    let c := cve_collection w in
    match ops with
    | [] => (Raise InvalidOperation, w)
    | _ =>
        if reachable c
        then let '(c', ok) := bulk_insert ops c in
             (if ok then Ok tt else Raise BulkWriteError, set_collection c' w)
        else (Raise ConnectionFailure, w)
    end.

Definition find (q : query) : M (list dict) :=
  fun w =>
    let c := cve_collection w in
    if reachable c then (Ok (filter (matches q) (docs c)), w)
    else (Raise ConnectionFailure, w).

(** *** Dynamic operations on values *)

(** [v.get(key, default)]: only a dict has [get]. *)
Definition py_get (v : value) (key : string) (default : value) : M value :=
  match v with
  | VDict d => ret (match dict_get key d with Some x => x | None => default end)
  | _ => raise AttributeError
  end.

(** The dict behind [v], for a method call that only a dict answers. *)
Definition as_dict (v : value) : M dict :=
  match v with
  | VDict d => ret d
  | _ => raise AttributeError
  end.

(** [for x in v]: the elements of a list, the keys of a dict, the characters
    of a string; anything else is not iterable. *)
Definition py_iter (v : value) : M (list value) :=
  match v with
  | VList xs => ret xs
  | VDict d => ret (map (fun kv => VStr (fst kv)) d)
  | VStr s => ret (map (fun c => VStr (String c EmptyString)) (list_ascii_of_string s))
  | _ => raise TypeError
  end.

(** [total_results]: [float("inf")] before the first page, then whatever the
    page carries under ["totalResults"]. *)
Inductive bound : Type := Infinity | Reported (v : value).

(** [start_index < total_results] *)
Definition index_below (i : Z) (t : bound) : M bool :=
  match t with
  | Infinity => ret true
  | Reported (VNum q) => ret (negb (Qle_bool q (inject_Z i)))
  | Reported (VBool b) => ret (i <? (if b then 1 else 0))
  | Reported _ => raise TypeError
  end.

(** [v.split("T")[0]] and [v.replace("Z", "+00:00")]: string methods. *)
Definition py_split_T_0 (v : value) : M value :=
  match v with
  | VStr s => ret (VStr (before_T s))
  | _ => raise AttributeError
  end.

Definition py_replace_Z (v : value) : M string :=
  match v with
  | VStr s => ret (replace_Z s)
  | _ => raise AttributeError
  end.

(** [end - start] on datetimes, in microseconds: a naive and an aware value
    cannot be subtracted. *)
Definition datetime_sub (e s : datetime) : M Z :=
  if Bool.eqb (aware e) (aware s) then ret (micros e - micros s)
  else raise TypeError.

(** [datetime.min] and [datetime.max], and the largest [timedelta(days=..)]. *)
Definition DATETIME_MIN : Z := Cal.days_from_civil 1 1 1 * MICROS_PER_DAY.
Definition DATETIME_MAX : Z := Cal.days_from_civil 10000 1 1 * MICROS_PER_DAY - 1.
Definition TIMEDELTA_MAX_DAYS : Z := 999999999.

(** [t - timedelta(days=n)] *)
Definition datetime_minus_days (t : datetime) (n : Z) : M datetime :=
  if Z.abs n >? TIMEDELTA_MAX_DAYS then raise OverflowError
  else
    let m := micros t - timedelta_days n in
    if (m <? DATETIME_MIN) || (m >? DATETIME_MAX) then raise OverflowError
    else ret (mkDatetime (aware t) m).

(** Rounding towards zero, as [int(x)] does on a float. *)
Definition Qtrunc (q : Q) : Z :=
  if Qle_bool 0 q then Qfloor q else Qceiling q.

(* ===================================================================== *)
(** ** [cve/utils.py] *)
(* ===================================================================== *)

Section Utils.

Context {RT : PyRuntime}.

(** [float(v)] and [int(v)] *)
Definition py_float (v : value) : M Q :=
  match v with
  | VNum q => ret q
  | VBool b => ret (if b then 1%Q else 0%Q)
  | VStr s => lift_option (float_of_str s) ValueError
  | _ => raise TypeError
  end.

Definition py_int (v : value) : M Z :=
  match v with
  | VNum q => ret (Qtrunc q)
  | VBool b => ret (if b then 1 else 0)
  | VStr s => lift_option (int_of_str s) ValueError
  | _ => raise TypeError
  end.

(** [fetch_data(session, base_url, params)], given the feed's answer [r] to
    this GET ([None]: the feed has stopped answering). *)
Definition fetch_data (r : option reply) (params : value) : M value :=
  modify (add_sent params) ;;;
  match r with
  | Some (Http status body) =>
      if status =? 200 then lift_option body JSONDecodeError
      else (logger ERROR "Error fetching data: HTTP {response.status}" ;;; ret VNone)
  | Some ClientErr | None =>
      logger ERROR "Request error: {e}" ;;; ret VNone
  end.

(** The next answer of the feed. *)
Definition next_reply : M (option reply) :=
  fun w =>
    match nvd w with
    | [] => (Ok None, w)
    | r :: rest => (Ok (Some r), set_nvd rest w)
    end.

Definition date_fields : list string := ["published"; "lastModified"].

(** One turn of the loop of [clean_cve_data]. *)
Definition clean_date_field (date_field : string) (cve_data : dict) : M dict :=
  match dict_get date_field cve_data with
  | Some v =>
      try_except
        (day <- py_split_T_0 v ;; ret (dict_set date_field day cve_data))
        (fun _ => true)
        (fun _ =>
           logger ERROR "Error cleaning date field %s: %s" ;;;
           ret (dict_set date_field VNone cve_data))
  | None => ret cve_data
  end.

Fixpoint clean_fields (fields : list string) (cve_data : dict) : M dict :=
  match fields with
  | [] => ret cve_data
  | f :: fields' => d <- clean_date_field f cve_data ;; clean_fields fields' d
  end.

Definition clean_cve_data (cve_data : dict) : M dict :=
  clean_fields date_fields cve_data.

Definition is_valid_cve (cve_data : value) : M bool :=
  cve_id <- py_get cve_data "id" VNone ;;
  if negb (truthy cve_id) then ret false
  else
    n <- count_documents [FieldEq ["id"] cve_id] 1 ;;
    if n >? 0 then ret false else ret true.

(** The loop of [prepare_bulk_operations]; [bulk_operations] is the list
    built so far.  Once [is_valid_cve] has answered, [cve_data] is a dict. *)
Fixpoint prepare_each (vulnerabilities : list value) (bulk_operations : list dict)
  : M (list dict) :=
  match vulnerabilities with
  | [] => ret bulk_operations
  | vulnerability :: rest =>
      cve_data <- py_get vulnerability "cve" (VDict []) ;;
      valid <- is_valid_cve cve_data ;;
      if valid : bool then
        d <- as_dict cve_data ;;
        cleaned <- clean_cve_data d ;;
        prepare_each rest (bulk_operations ++ [cleaned])%list
      else prepare_each rest bulk_operations
  end.

Definition prepare_bulk_operations (vulnerabilities : value) : M (list dict) :=
  vs <- py_iter vulnerabilities ;;
  prepare_each vs [].

Definition execute_bulk_operations (bulk_operations : list dict) : M unit :=
  match bulk_operations with
  | [] => ret tt
  | _ =>
      try_except
        (bulk_write bulk_operations ;;;
         logger INFO "Bulk operations executed successfully.")
        is_BulkWriteError
        (fun _ => logger ERROR "Bulk write error: %s")
  end.

(** The [params] of one page request. *)
Definition page_params (start_index results_per_page : Z)
           (last_mod_start_date last_mod_end_date : value) : value :=
  let params := [("startIndex", VNum (inject_Z start_index));
                 ("resultsPerPage", VNum (inject_Z results_per_page))] in
  VDict (if truthy last_mod_start_date && truthy last_mod_end_date
         then dict_update params [("lastModStartDate", last_mod_start_date);
                                  ("lastModEndDate", last_mod_end_date)]
         else params).

(** The body of the [while] loop of [fetch_and_store_cve_data] for the answer
    [r]: [None] is a [break], [Some (i, t)] the next [start_index] and
    [total_results]. *)
Definition process_page (r : option reply) (start_index results_per_page : Z)
           (last_mod_start_date last_mod_end_date : value) : M (option (Z * bound)) :=
  data <- fetch_data r (page_params start_index results_per_page
                                    last_mod_start_date last_mod_end_date) ;;
  if negb (truthy data) then ret None
  else
    total_results <- py_get data "totalResults" (VNum 0) ;;
    vulnerabilities <- py_get data "vulnerabilities" (VList []) ;;
    if negb (truthy vulnerabilities)
    then (logger INFO "No vulnerabilities found." ;;; ret None)
    else
      bulk_operations <- prepare_bulk_operations vulnerabilities ;;
      match bulk_operations with
      | [] => ret tt
      | _ => execute_bulk_operations bulk_operations
      end ;;;
      logger INFO "Processed data from index %d to %d" ;;;
      ret (Some (start_index + results_per_page, Reported total_results)).

(** The [while start_index < total_results] loop, by recursion on the
    answers the feed still has: each turn issues one GET and takes the next
    answer; when none is left the GET fails and the loop breaks. *)
Fixpoint fetch_pages (script : list reply) (start_index results_per_page : Z)
         (total_results : bound) (last_mod_start_date last_mod_end_date : value)
  : M unit :=
  go_on <- index_below start_index total_results ;;
  if go_on : bool then
    match script with
    | [] =>
        _ <- process_page None start_index results_per_page
                          last_mod_start_date last_mod_end_date ;;
        ret tt
    | r :: rest =>
        modify (set_nvd rest) ;;;
        next <- process_page (Some r) start_index results_per_page
                             last_mod_start_date last_mod_end_date ;;
        match next with
        | Some (i, t) =>
            fetch_pages rest i results_per_page t
                        last_mod_start_date last_mod_end_date
        | None => ret tt
        end
    end
  else ret tt.

Definition fetch_and_store_cve_data (start_index results_per_page : Z)
           (last_mod_start_date last_mod_end_date : value) : M unit :=
  fun w => fetch_pages (nvd w) start_index results_per_page Infinity
                       last_mod_start_date last_mod_end_date w.

(** Lines 112-126 of [synchronize_cve_data]: [false] is the early [return]. *)
Definition window_ok (last_mod_start_date last_mod_end_date : value) : M bool :=
  if truthy last_mod_start_date && truthy last_mod_end_date then
    try_except
      (s <- py_replace_Z last_mod_start_date ;;
       start_date <- lift_option (fromisoformat s) ValueError ;;
       e <- py_replace_Z last_mod_end_date ;;
       end_date <- lift_option (fromisoformat e) ValueError ;;
       span <- datetime_sub end_date start_date ;;
       if span >? timedelta_days 120
       then (logger ERROR "Date range exceeds the maximum allowable range of 120 days." ;;;
             ret false)
       else ret true)
      is_ValueError
      (fun _ => logger ERROR "Invalid date format: %s" ;;; ret false)
  else ret true.

(** The window handed to [fetch_and_store_cve_data] (lines 128-131). *)
Definition effective_window (last_mod_start_date last_mod_end_date : value)
  : M (value * value) :=
  watermark <- gets last_sync_timestamp ;;
  now <- gets utcnow ;;
  if truthy watermark && negb (truthy last_mod_start_date && truthy last_mod_end_date)
  then ret (watermark, VStr (isoformat (mkDatetime true now)))
  else ret (last_mod_start_date, last_mod_end_date).

(** Lines 137-143: the metadata call and the new watermark. *)
Definition update_last_sync_timestamp : M unit :=
  r <- next_reply ;;
  data <- fetch_data r (VDict []) ;;
  if truthy data then
    timestamp <- py_get data "timestamp" VNone ;;
    modify (set_last_sync_timestamp timestamp) ;;;
    logger INFO "Updated last synchronization timestamp: %s"
  else ret tt.

(** What runs under [async with sync_lock]. *)
Definition synchronize_body (last_mod_start_date last_mod_end_date : value) : M unit :=
  logger INFO "Starting CVE data synchronization." ;;;
  ok <- window_ok last_mod_start_date last_mod_end_date ;;
  if negb ok then ret tt
  else
    window <- effective_window last_mod_start_date last_mod_end_date ;;
    fetch_and_store_cve_data 0 2000 (fst window) (snd window) ;;;
    update_last_sync_timestamp.

(** [async with sync_lock: body]: a caller that finds the lock taken is
    suspended; otherwise the lock is held for the whole body and released
    however the body ends. *)
Definition with_sync_lock {A} (body : M A) : M A :=
  fun w =>
    if sync_lock w then (Parked, w)
    else let '(r, w') := body (set_sync_lock true w) in (r, set_sync_lock false w').

Definition synchronize_cve_data (last_mod_start_date last_mod_end_date : value) : M unit :=
  with_sync_lock (synchronize_body last_mod_start_date last_mod_end_date).

Definition V2_SCORE : list string := ["metrics"; "cvssMetricV2"; "cvssData"; "baseScore"].
Definition V3_SCORE : list string := ["metrics"; "cvssMetricV3"; "cvssData"; "baseScore"].

(** Lines 227-247 of [fetch_filtered_cve_data]: the query document. *)
Definition build_query (cve_id base_score last_modified_days : value) : M query :=
  let q0 : query := [] in
  let q1 := if truthy cve_id then (q0 ++ [FieldEq ["id"] cve_id])%list else q0 in
  q2 <- (if truthy base_score then
           s2 <- py_float base_score ;;
           s3 <- py_float base_score ;;
           ret (q1 ++ [AnyOf [(V2_SCORE, VNum s2); (V3_SCORE, VNum s3)]])%list
         else ret q1) ;;
  q3 <- match last_modified_days with
        | VNone => ret q2
        | _ =>
            now <- gets utcnow ;;
            let end_date := mkDatetime true now in
            days <- py_int last_modified_days ;;
            start_date <- datetime_minus_days end_date days ;;
            ret (q2 ++ [FieldBetween ["lastModified"]
                                     (VStr (isoformat start_date))
                                     (VStr (isoformat end_date))])%list
        end ;;
  logger INFO "Query: {query}" ;;;
  ret q3.

Definition fetch_filtered_cve_data (cve_id base_score last_modified_days : value)
  : M (list dict) :=
  q <- build_query cve_id base_score last_modified_days ;;
  try_except
    (find q)
    (fun _ => true)
    (fun _ => logger ERROR "Error fetching filtered CVE data: %s" ;;; ret []).

(* ===================================================================== *)
(** ** [cve/views.py] *)
(* ===================================================================== *)

(** A string in the body of a response: words of the program's own, or
    [str(e)], the text that the library which raised [e] gave it.  An
    exception is known here by its class alone, so that text is kept as the
    term [StrOf e] and is not spelled out. *)
Inductive text : Type :=
| Words (s : string)
| StrOf (e : exn).

(** [JsonResponse(fields, status=status_code)] *)
Record JsonResponse : Type := mkJsonResponse {
  status_code : Z;
  content : list (string * text)
}.

(** [UpdateCveDataView.get] *)
Definition UpdateCveDataView_get : M JsonResponse :=
  try_except
    (fetch_and_store_cve_data 0 2000 VNone VNone ;;;
     ret (mkJsonResponse 200 [("status", Words "success");
                              ("message", Words "CVE data updated successfully.")]))
    (fun _ => true)
    (fun e =>
       logger ERROR "Error updating CVE data: {e}" ;;;
       ret (mkJsonResponse 500 [("status", Words "error"); ("message", StrOf e)])).

End Utils.
(* ===================================================================== *)
(** ** [sync_lock]: concurrent calls of [synchronize_cve_data] *)
(* ===================================================================== *)

(** Several calls of [synchronize_cve_data] on one event loop, all on the
    same world.  A call gives way to the others only at its [await]s, so a
    run is a sequence of events, each a stretch of one call.  The stretches
    are the program's own code: taking the lock, the window check, one turn
    of the page loop, the metadata call, the release.  A turn of the loop
    and the metadata call have [await]s of their own (the GET, the write in
    the executor); another call that runs there can only try the lock,
    which the stretch does not change, and that is the same event as just
    before or just after the stretch.  The lock is [asyncio.Lock]:
    [acquire] takes a free lock with no waiter at once and otherwise queues
    a future; [release] frees the lock and resolves the future of the first
    waiter, which takes the lock when it next runs.  [sync_lock] of the
    world is [Lock._locked].  Cancelling a call while it waits is left
    out. *)
Module Gate.

(** Where a call is inside [async with sync_lock]: before the window check,
    at the head of the page loop with its [start_index], [total_results] and
    window, before the metadata call, or past the end of the body (by
    [return], by its last statement, or by an exception) with the release
    still to come. *)
Inductive stage : Type :=
| Validating
| Fetching (start_index : Z) (total_results : bound) (window : value * value)
| Stamping
| Leaving (o : outcome unit).

(** A call has not reached the lock yet, waits in its queue, is inside the
    body, or has left it with an outcome. *)
Inductive phase : Type :=
| Fresh
| Waiting
| Critical (st : stage)
| Finished (o : outcome unit).

Record state : Type := mkState {
  shared : world;              (* the world of all the calls *)
  waiters : list nat;          (* Lock._waiters, oldest first *)
  handoff : option nat;        (* the waiter whose future release() resolved *)
  phase_of : nat -> phase
}.

Definition initial (w : world) : state := mkState w [] None (fun _ => Fresh).

Inductive event : Type :=
| Enter (t : nat)      (* acquire() returns at once *)
| Park (t : nat)       (* acquire() queues the caller *)
| Resume (t : nat)     (* a woken waiter takes the lock *)
| Advance (t : nat)    (* the body runs on to its next stage *)
| Exit (t : nat).      (* __aexit__: release(), on return or raise *)

(** What taking and releasing the lock do to the world. *)
Definition acquire (w : world) : world := set_sync_lock true w.
Definition release (w : world) : world := set_sync_lock false w.

Definition set_phase (t : nat) (p : phase) (f : nat -> phase) : nat -> phase :=
  fun u => if Nat.eqb u t then p else f u.

Definition is_nil {A} (l : list A) : bool :=
  match l with [] => true | _ => false end.

Definition is_fresh (p : phase) : bool :=
  match p with Fresh => true | _ => false end.
Definition is_waiting (p : phase) : bool :=
  match p with Waiting => true | _ => false end.
Definition is_critical (p : phase) : bool :=
  match p with Critical _ => true | _ => false end.
Definition is_finished (p : phase) : bool :=
  match p with Finished _ => true | _ => false end.

Definition is_handoff (s : state) (t : nat) : bool :=
  match handoff s with Some u => Nat.eqb u t | None => false end.

Fixpoint remove_waiter (t : nat) (l : list nat) : list nat :=
  match l with
  | [] => []
  | u :: l' => if Nat.eqb u t then l' else u :: remove_waiter t l'
  end.

(** The stage after a stretch: the one it returns, or the way out when it
    does not return. *)
Definition next_stage (o : outcome stage) : stage :=
  match o with
  | Ok st => st
  | Raise e => Leaving (Raise e)
  | Parked => Leaving Parked
  end.

(** The event is call [t] getting into the body. *)
Definition begins (t : nat) (e : event) : bool :=
  match e with
  | Enter u | Resume u => Nat.eqb u t
  | _ => false
  end.

Definition ends (t : nat) (e : event) : bool :=
  match e with
  | Exit u => Nat.eqb u t
  | _ => false
  end.

Section Calls.

Context {RT : PyRuntime}.

(** One stretch of the body of [synchronize_cve_data], from a stage to the
    next: lines 110-131, one turn of the [while] loop of
    [fetch_and_store_cve_data], lines 137-143. *)
Definition stage_step (last_mod_start_date last_mod_end_date : value) (st : stage)
  : M stage :=
  match st with
  | Validating =>
      logger INFO "Starting CVE data synchronization." ;;;
      ok <- window_ok last_mod_start_date last_mod_end_date ;;
      if negb ok then ret (Leaving (Ok tt))
      else
        window <- effective_window last_mod_start_date last_mod_end_date ;;
        ret (Fetching 0 Infinity window)
  | Fetching start_index total_results window =>
      go_on <- index_below start_index total_results ;;
      if go_on : bool then
        r <- next_reply ;;
        next <- process_page r start_index 2000 (fst window) (snd window) ;;
        match next with
        | Some (i, t) => ret (Fetching i t window)
        | None => ret Stamping
        end
      else ret Stamping
  | Stamping => update_last_sync_timestamp ;;; ret (Leaving (Ok tt))
  | Leaving o => ret (Leaving o)
  end.

(** What is left of the body at a stage, as [synchronize_cve_data] has
    it. *)
Definition rest_of_body (last_mod_start_date last_mod_end_date : value) (st : stage)
  : M unit :=
  match st with
  | Validating => synchronize_body last_mod_start_date last_mod_end_date
  | Fetching start_index total_results window =>
      fun w =>
        (fetch_pages (nvd w) start_index 2000 total_results (fst window) (snd window) ;;;
         update_last_sync_timestamp) w
  | Stamping => update_last_sync_timestamp
  | Leaving o => fun w => (o, w)
  end.

(** A bound on the stretches left in the body at a stage: every turn of the
    page loop that goes on takes an answer from the feed. *)
Definition stretches_left (st : stage) (w : world) : nat :=
  match st with
  | Validating => List.length (nvd w) + 3
  | Fetching _ _ _ => List.length (nvd w) + 2
  | Stamping => 1
  | Leaving _ => 0
  end.

(** The arguments of each call. *)
Variable args : nat -> value * value.

(** One event, when its guard holds. *)
Definition fire (e : event) (s : state) : option state :=
  match e with
  | Enter t =>
      if is_fresh (phase_of s t) && negb (sync_lock (shared s)) && is_nil (waiters s)
      then Some (mkState (acquire (shared s)) (waiters s) (handoff s)
                         (set_phase t (Critical Validating) (phase_of s)))
      else None
  | Park t =>
      if is_fresh (phase_of s t) && (sync_lock (shared s) || negb (is_nil (waiters s)))
      then Some (mkState (shared s) (waiters s ++ [t])%list (handoff s)
                         (set_phase t Waiting (phase_of s)))
      else None
  | Resume t =>
      if is_waiting (phase_of s t) && is_handoff s t
      then Some (mkState (acquire (shared s)) (remove_waiter t (waiters s)) None
                         (set_phase t (Critical Validating) (phase_of s)))
      else None
  | Advance t =>
      match phase_of s t with
      | Critical (Leaving _) => None
      | Critical st =>
          let '(o, w') := stage_step (fst (args t)) (snd (args t)) st (shared s) in
          Some (mkState w' (waiters s) (handoff s)
                        (set_phase t (Critical (next_stage o)) (phase_of s)))
      | _ => None
      end
  | Exit t =>
      match phase_of s t with
      | Critical (Leaving o) =>
          Some (mkState (release (shared s)) (waiters s) (hd_error (waiters s))
                        (set_phase t (Finished o) (phase_of s)))
      | _ => None
      end
  end.

(** The state after the events, in the order they happened. *)
Fixpoint replay (evs : list event) (s : state) : option state :=
  match evs with
  | [] => Some s
  | e :: evs' =>
      match fire e s with
      | Some s' => replay evs' s'
      | None => None
      end
  end.

End Calls.

(** What holds of every state reached, together with the events that led
    to it. *)
Record invariant (evs : list event) (s : state) : Prop := mkInvariant {
  inv_holder : forall t, is_critical (phase_of s t) = true -> sync_lock (shared s) = true;
  inv_locked : sync_lock (shared s) = true -> exists t, is_critical (phase_of s t) = true;
  inv_single : forall t u,
      is_critical (phase_of s t) = true -> is_critical (phase_of s u) = true -> t = u;
  inv_handoff : forall t,
      handoff s = Some t -> sync_lock (shared s) = false /\ In t (waiters s);
  inv_waiters : forall t, In t (waiters s) -> phase_of s t = Waiting;
  inv_queue : NoDup (waiters s);
  inv_begun : forall t,
      existsb (begins t) evs = is_critical (phase_of s t) || is_finished (phase_of s t);
  inv_ended : forall t, existsb (ends t) evs = is_finished (phase_of s t)
}.

End Gate.

(* ===================================================================== *)
(** ** Vocabulary of the properties *)
(* ===================================================================== *)

(** [keeps f m]: running [m] never changes the component [f] of the world,
    however [m] ends. *)
Definition keeps {X A : Type} (f : world -> X) (m : M A) : Prop :=
  forall w, f (snd (m w)) = f w.

(** Components that the log, the request trace, the collection, the feed or
    the watermark do not influence. *)
Definition log_blind {X} (f : world -> X) : Prop :=
  forall l msg w, f (add_logged l msg w) = f w.
Definition sent_blind {X} (f : world -> X) : Prop :=
  forall p w, f (add_sent p w) = f w.
Definition store_blind {X} (f : world -> X) : Prop :=
  forall c w, f (set_collection c w) = f w.
Definition nvd_blind {X} (f : world -> X) : Prop :=
  forall rs w, f (set_nvd rs w) = f w.
Definition stamp_blind {X} (f : world -> X) : Prop :=
  forall v w, f (set_last_sync_timestamp v w) = f w.


(** [emits R m]: the GETs that [m] issues come after those already issued,
    and each of them satisfies [R]. *)
Definition emits {A : Type} (R : value -> Prop) (m : M A) : Prop :=
  forall w, exists reqs, sent (snd (m w)) = (sent w ++ reqs)%list /\ Forall R reqs.

(** The window a request carries: its [lastModStartDate] and
    [lastModEndDate] parameters, when it has both. *)
Definition request_window (params : value) : option (value * value) :=
  match params with
  | VDict d =>
      match dict_get "lastModStartDate" d, dict_get "lastModEndDate" d with
      | Some a, Some b => Some (a, b)
      | _, _ => None
      end
  | _ => None
  end.

(** The module globals as [utils.py] initialises them when the process
    starts; the collection lives in the database and outlasts the process. *)
Definition restart (w : world) : world :=
  mkWorld (cve_collection w) VNone false (nvd w) [] [] (utcnow w).

(** What cleaning makes of the value of a date field: a string is cut at its
    first capital T, anything else becomes [None]. *)
Definition cleaned_date (v : value) : value :=
  match v with
  | VStr s => VStr (before_T s)
  | _ => VNone
  end.

(** The string holds no capital T. *)
Definition no_capital_T (s : string) : Prop :=
  forall s1 s2, s <> s1 ++ String "T"%char s2.

Definition is_date_field (k : string) : bool :=
  existsb (String.eqb k) ["published"; "lastModified"].

(** The insert of [d] would be refused by the collection [c]. *)
Definition conflicts (d : dict) (c : collection) : bool :=
  unique_id c && existsb (fun s => same_id s d) (docs c).

(** The collection with [more] appended to its documents. *)
Definition with_more (more : list dict) (c : collection) : collection :=
  mkCollection (docs c ++ more)%list (unique_id c) (reachable c).

(** No document of [pre] conflicts when the documents are inserted in order. *)
Fixpoint all_fit (pre : list dict) (c : collection) : bool :=
  match pre with
  | [] => true
  | d :: pre' => negb (conflicts d c) && all_fit pre' (with_more [d] c)
  end.

(** The record carries the score [q] in its v2 or in its v3 metrics. *)
Definition has_score (q : Q) (d : dict) : bool :=
  field_eq ["metrics"; "cvssMetricV2"; "cvssData"; "baseScore"] (VNum q) d
  || field_eq ["metrics"; "cvssMetricV3"; "cvssData"; "baseScore"] (VNum q) d.

Definition has_id (i : value) (d : dict) : bool := field_eq ["id"] i d.

(** The record's [lastModified] lies between the two strings. *)
Definition modified_between (lo hi : string) (d : dict) : bool :=
  clause_matches (FieldBetween ["lastModified"] (VStr lo) (VStr hi)) d.

(** No two documents of the list have the same ["id"]. *)
Fixpoint distinct_ids (ds : list dict) : bool :=
  match ds with
  | [] => true
  | d :: ds' => negb (existsb (same_id d) ds') && distinct_ids ds'
  end.

(** The id of the record that a wrapper of a page carries under ["cve"]. *)
Definition wrapper_key (v : value) : value :=
  match v with
  | VDict d =>
      match dict_get "cve" d with
      | Some (VDict c) => index_key c
      | _ => VNone
      end
  | _ => VNone
  end.

(** No usable id occurs twice in the list. *)
Fixpoint distinct_keys (ks : list value) : bool :=
  match ks with
  | [] => true
  | k :: ks' => negb (truthy k && existsb (value_eqb k) ks') && distinct_keys ks'
  end.

(** The page that the answer carries repeats no id. *)
Definition page_distinct (r : reply) : bool :=
  match r with
  | Http status (Some (VDict d)) =>
      if status =? 200 then
        match dict_get "vulnerabilities" d with
        | Some (VList vs) => distinct_keys (map wrapper_key vs)
        | _ => true
        end
      else true
  | _ => true
  end.

(** The second collection is the first with documents appended. *)
Definition grows (c c' : collection) : Prop :=
  unique_id c' = unique_id c /\ exists more, docs c' = (docs c ++ more)%list.

(** The batch can be appended to the collection without repeating an id. *)
Definition fresh_batch (ops : list dict) (c : collection) : Prop :=
  distinct_ids ops = true
  /\ forall s o, In s (docs c) -> In o ops -> same_id s o = false.

(** *** Sequences of runs *)

Inductive call : Type :=
| Synchronize (last_mod_start_date last_mod_end_date : value)
| FetchAndStore (start_index results_per_page : Z)
                (last_mod_start_date last_mod_end_date : value)
| UpdateView.

(** A run: the call, what the feed will answer during it, the time, and
    whether the database server can be reached. *)
Record run : Type := mkRun {
  op : call;
  feed : list reply;
  clock : Z;
  server_up : bool
}.

Definition stage_run (r : run) (w : world) : world :=
  mkWorld (mkCollection (docs (cve_collection w)) (unique_id (cve_collection w))
                        (server_up r))
          (last_sync_timestamp w) (sync_lock w) (feed r) (sent w) (logged w) (clock r).

Definition exec {RT : PyRuntime} (r : run) (w : world) : world :=
  let w0 := stage_run r w in
  match op r with
  | Synchronize a b => snd (synchronize_cve_data a b w0)
  | FetchAndStore i n a b => snd (fetch_and_store_cve_data i n a b w0)
  | UpdateView => snd (UpdateCveDataView_get w0)
  end.

Definition exec_all {RT : PyRuntime} (rs : list run) (w : world) : world :=
  fold_left (fun w r => exec r w) rs w.

(** [runs m]: [m] is never suspended on the lock. *)
Definition runs {A : Type} (m : M A) : Prop := forall w, fst (m w) <> Parked.

(** From [c] to [c']: documents were appended only; and if the ids of [c]
    were distinct, and [c] enforces that or [ok] holds, those of [c'] are. *)
Definition store_step (ok : Prop) (c c' : collection) : Prop :=
  grows c c'
  /\ (distinct_ids (docs c) = true -> unique_id c = true \/ ok ->
      distinct_ids (docs c') = true).

(** Every run of [m] from a world with collection [c] and feed [n] takes the
    collection one [store_step] further. *)
Definition advances {A : Type} (ok : Prop) (c : collection) (n : list reply) (m : M A)
  : Prop :=
  forall w, cve_collection w = c -> nvd w = n ->
            store_step ok c (cve_collection (snd (m w))).

(* ===================================================================== *)
(** ** Sample data for the worked examples *)
(* ===================================================================== *)

Module Sample.

(** A wrapper of a page, as the feed sends it. *)
Definition wrapper (i : string) : value :=
  VDict [("cve", VDict [("id", VStr i); ("published", VStr "2024-01-05T10:00:00Z")])].

(** The same record as it is stored. *)
Definition stored (i : string) : dict :=
  [("id", VStr i); ("published", VStr "2024-01-05")].

Definition page (total : Z) (wrappers : list value) : reply :=
  Http 200 (Some (VDict [("totalResults", VNum (inject_Z total));
                         ("vulnerabilities", VList wrappers)])).

Definition metadata (timestamp : string) : reply :=
  Http 200 (Some (VDict [("timestamp", VStr timestamp)])).

(** A collection without, and one with, the unique index on the id. *)
Definition plain (ds : list dict) : collection := mkCollection ds false true.
Definition indexed (ds : list dict) : collection := mkCollection ds true true.
Definition unreachable (ds : list dict) : collection := mkCollection ds false false.

(** The world just after the process started, on 2024-01-05 at 10:00 UTC. *)
Definition world_at (c : collection) (answers : list reply) : world :=
  mkWorld c VNone false answers [] [] 1704448800000000.

(** A stored record with a v2 score. *)
Definition scored (i : string) (score : Q) : dict :=
  [("id", VStr i);
   ("lastModified", VStr "2024-01-04");
   ("metrics", VDict [("cvssMetricV2",
                       VList [VDict [("cvssData", VDict [("baseScore", VNum score)])]])])].

(** Two calls without a window.  The first enters, the second is queued
    behind it; the first checks its window, takes its one page, leaves the
    loop, makes the metadata call and leaves; the second takes over. *)
Definition no_window (t : nat) : value * value := (VNone, VNone).
Definition two_calls : list Gate.event :=
  [Gate.Enter 0; Gate.Park 1; Gate.Advance 0; Gate.Advance 0; Gate.Advance 0;
   Gate.Advance 0; Gate.Exit 0; Gate.Resume 1].

(** Three records, as wrappers of a page and as stored. *)
Definition A : value := wrapper "CVE-2024-0001".
Definition B : value := wrapper "CVE-2024-0002".
Definition C : value := wrapper "CVE-2024-0003".
Definition a : dict := stored "CVE-2024-0001".
Definition b : dict := stored "CVE-2024-0002".
Definition c : dict := stored "CVE-2024-0003".

(** An empty collection and a feed with nothing to say. *)
Definition idle : world := world_at (plain []) [].
Definition idle_indexed : world := world_at (indexed []) [].

(** A feed with one page of one record. *)
Definition one_page : world := world_at (plain []) [page 1 [A]].

(** A feed with one page of one record, and the metadata. *)
Definition page_and_metadata : world :=
  world_at (plain []) [page 1 [A]; metadata "2024-01-05T10:00:01.000"].

(** The same while another call holds the lock. *)
Definition page_and_metadata_held : world := set_sync_lock true page_and_metadata.

(** The same after an earlier synchronisation left its watermark. *)
Definition after_a_sync : world :=
  set_last_sync_timestamp (VStr "2024-01-04T09:00:00.000") page_and_metadata.

(** A page that carries the record A twice, then B. *)
Definition repeating_page : world := world_at (indexed []) [page 3 [A; A; B]].

(** One stored record, with the v2 score 7.5. *)
Definition r75 : dict := scored "CVE-2024-0001" 7.5.
Definition one_scored : world := world_at (plain [r75]) [].
Definition one_scored_down : world := world_at (unreachable [r75]) [].

(** A synchronisation over two pages that share the record B, then a
    request to the update view that brings C and A again. *)
Definition two_runs : list run :=
  [mkRun (Synchronize VNone VNone)
         [page 4000 [A; B]; page 4000 [B; C]; metadata "2024-01-05T10:00:01.000"]
         1704448800000000 true;
   mkRun UpdateView [page 2 [C; A]] 1704535200000000 true].

(** A synchronisation over one page that carries the record A twice. *)
Definition run_with_repeat : list run :=
  [mkRun (Synchronize VNone VNone) [page 2 [A; A]] 1704448800000000 true].

End Sample.

(* ===================================================================== *)
(** ** Documents as the driver returns them, and their serialisation *)
(* ===================================================================== *)

(** What [find] hands to Python: the stored values, and the [ObjectId] that
    the store keeps under [_id]. *)
#[local] Unset Elimination Schemes.
Inductive bson : Type :=
| BNone
| BBool (b : bool)
| BNum (q : Q)
| BStr (s : string)
| BObjectId (hex : string)
| BList (xs : list bson)
| BDict (kv : list (string * bson)).
#[local] Set Elimination Schemes.

Fixpoint of_value (v : value) : bson :=
  match v with
  | VNone => BNone
  | VBool b => BBool b
  | VNum q => BNum q
  | VStr s => BStr s
  | VList xs => BList (map of_value xs)
  | VDict kv => BDict (map (fun e => (fst e, of_value (snd e))) kv)
  end.

(** [serialize_mongo_document(document)].  The call it makes to
    [serialize_mongo_data] is written out in [data]; the two functions are
    tied together again by [serialize_mongo_data] below. *)
Fixpoint serialize_mongo_document (document : bson) : bson :=
  let data (v : bson) : bson :=
    match v with
    | BList items => BList (map serialize_mongo_document items)
    | BDict _ => serialize_mongo_document v
    | _ => v
    end in
  match document with
  | BDict kv =>
      BDict (map (fun e =>
                    match snd e with
                    | BObjectId hex => (fst e, BStr hex)      (* str(value) *)
                    | BDict _ | BList _ => (fst e, data (snd e))
                    | _ => e
                    end) kv)
  | BList items => BList (map data items)
  | _ => document
  end.

(** [serialize_mongo_data(data)] *)
Definition serialize_mongo_data (data : bson) : bson :=
  match data with
  | BList items => BList (map serialize_mongo_document items)
  | BDict _ => serialize_mongo_document data
  | _ => data
  end.

(** What the loop of [serialize_mongo_document] makes of one field. *)
Definition serialize_field (e : string * bson) : string * bson :=
  match snd e with
  | BObjectId hex => (fst e, BStr hex)
  | BDict _ | BList _ => (fst e, serialize_mongo_data (snd e))
  | _ => e
  end.

(** What the JSON encoder of [JsonResponse] accepts: no [ObjectId] left. *)
Fixpoint json_safe (v : bson) : bool :=
  match v with
  | BObjectId _ => false
  | BList xs => forallb json_safe xs
  | BDict kv => forallb (fun e => json_safe (snd e)) kv
  | _ => true
  end.

(** Every [ObjectId] of the value is the value of a field of a document;
    none is the value itself or an element of a list. *)
Fixpoint ids_in_fields (v : bson) : bool :=
  match v with
  | BObjectId _ => false
  | BList xs => forallb ids_in_fields xs
  | BDict kv =>
      forallb (fun e => match snd e with
                        | BObjectId _ => true
                        | _ => ids_in_fields (snd e)
                        end) kv
  | _ => true
  end.

(* ===================================================================== *)
(** ** [cve/views.py]: the filter view *)
(* ===================================================================== *)

(** [request.GET]: the pairs of the query string, in order. *)
Definition QueryDict : Type := list (string * string).

(** [request.GET.get(key)]: the last value given for the key, or [None]. *)
Fixpoint querydict_get (key : string) (q : QueryDict) : value :=
  match q with
  | [] => VNone
  | (k, v) :: q' =>
      match querydict_get key q' with
      | VNone => if String.eqb key k then VStr v else VNone
      | later => later
      end
  end.

(** A [JsonResponse] whose content is any JSON value ([safe=False]). *)
Record JsonListResponse : Type := mkJsonListResponse {
  list_status : Z;
  list_content : bson
}.

(** [JsonResponse(data, safe=False, status=..)]: the encoder raises
    [TypeError] on a value it cannot write. *)
Definition json_response (data : bson) (status : Z) : M JsonListResponse :=
  if json_safe data then ret (mkJsonListResponse status data) else raise TypeError.

(** What the filter view answers: the documents found, or the fields of an
    error. *)
Inductive FilterResponse : Type :=
| Listed (r : JsonListResponse)
| Failed (r : JsonResponse).

Section FilterView.

Context {RT : PyRuntime}.

(** The [ObjectId] the store keeps for each document it returns. *)
Variable oid_of : dict -> string.

(** A stored document as [find] returns it: [_id] first, then its fields. *)
Definition as_found (d : dict) : bson :=
  BDict (("_id", BObjectId (oid_of d)) :: map (fun e => (fst e, of_value (snd e))) d).

(** [FilterCveDataView.get] *)
Definition FilterCveDataView_get (GET : QueryDict) : M FilterResponse :=
  let cve_id := querydict_get "cveId" GET in
  let base_score := querydict_get "baseScore" GET in
  let last_modified_days := querydict_get "lastModifiedDays" GET in
  try_except
    (cve_data <- fetch_filtered_cve_data cve_id base_score last_modified_days ;;
     let serialized_data := serialize_mongo_data (BList (map as_found cve_data)) in
     response <- json_response serialized_data 200 ;;
     ret (Listed response))
    (fun _ => true)
    (fun e =>
       logger ERROR "Error filtering CVE data: {e}" ;;;
       ret (Failed (mkJsonResponse 500 [("status", Words "error"); ("message", StrOf e)]))).

End FilterView.

(* ===================================================================== *)
(** ** Further vocabulary *)
(* ===================================================================== *)

(** The [n] page requests of a cursor that starts at [i] and moves by [rpp]. *)
Definition cursor_requests (i rpp : Z) (a b : value) (n : nat) : list value :=
  map (fun j => page_params (i + Z.of_nat j * rpp) rpp a b) (seq 0 n).

(** The answer carries no page: the feed is silent, the request failed, or
    the status is not 200. *)
Definition no_page (r : option reply) : bool :=
  match r with
  | Some (Http status _) => negb (status =? 200)
  | Some ClientErr | None => true
  end.

(** Some stored document has the id [i], as the store compares. *)
Definition id_stored (i : value) (c : collection) : bool :=
  existsb (field_eq ["id"] i) (docs c).

(** [t.date().isoformat()]: the calendar date of [t]. *)
Definition isodate (t : datetime) : string :=
  let '(y, m, d) := Cal.civil_from_days (micros t / MICROS_PER_DAY) in
  Cal.pad 4 y ++ "-" ++ Cal.pad 2 m ++ "-" ++ Cal.pad 2 d.

(** A date field as cleaning leaves it: absent, [None], or a string with no
    time part. *)
Definition clean_date_value (v : option value) : bool :=
  match v with
  | None | Some VNone => true
  | Some (VStr s) => String.eqb (before_T s) s
  | Some _ => false
  end.

(** A document as the program stores it: a usable id, clean date fields. *)
Definition well_stored (d : dict) : bool :=
  truthy (index_key d)
  && clean_date_value (dict_get "published" d)
  && clean_date_value (dict_get "lastModified" d).

(** The second collection is the first with well-stored documents appended. *)
Definition adds_well_stored (c c' : collection) : Prop :=
  exists more, docs c' = (docs c ++ more)%list /\ forallb well_stored more = true.

(** Every run of [m] takes the collection to one related by [R]. *)
Definition proceeds {A : Type} (R : collection -> collection -> Prop) (m : M A) : Prop :=
  forall w, R (cve_collection w) (cve_collection (snd (m w))).

(** Every value that [m] returns satisfies [Q]. *)
Definition yields {A : Type} (Q : A -> Prop) (m : M A) : Prop :=
  forall w x w', m w = (Ok x, w') -> Q x.

(** What cleaning makes of one date field of a record. *)
Definition cleaned_field (k : string) (d : dict) : dict :=
  match dict_get k d with
  | Some v => dict_set k (cleaned_date v) d
  | None => d
  end.

(** The record that [prepare_bulk_operations] reads from a wrapper of a
    page: what the wrapper has under ["cve"], the empty dict when it has
    nothing there. *)
Definition cve_of (wrapper : value) : dict :=
  match wrapper with
  | VDict d => match dict_get "cve" d with Some (VDict c) => c | _ => [] end
  | _ => []
  end.

(** A wrapper on which [prepare_bulk_operations] does not raise: a dict
    whose ["cve"], if any, is a dict. *)
Definition well_shaped (wrapper : value) : bool :=
  match wrapper with
  | VDict d => match dict_get "cve" d with Some (VDict _) | None => true | _ => false end
  | _ => false
  end.

(** The record has a usable id that no document of the collection has. *)
Definition admitted (c : collection) (cve_data : dict) : bool :=
  truthy (index_key cve_data) && negb (id_stored (index_key cve_data) c).

(** A record with its two date fields cleaned. *)
Definition cleaned_record (cve_data : dict) : dict :=
  cleaned_field "lastModified" (cleaned_field "published" cve_data).

(* ===================================================================== *)
(** ** More sample data *)
(* ===================================================================== *)

Module Case.

(** The [ObjectId] of every document, for the examples. *)
Definition oid (d : dict) : string := "65a0f3c2e1b2a4d5c6f7a8b9".

(** A query result without any [ObjectId]. *)
Definition plain_result : bson := BList [BDict [("id", BStr "CVE-2024-0001")]].

(** The feed answers the first request with a 503. *)
Definition feed_down : world := Sample.world_at (Sample.plain []) [Http 503 None].

(** The feed answers the page request with a 503 and the metadata call with
    a timestamp. *)
Definition page_down_metadata_up : world :=
  Sample.world_at (Sample.plain []) [Http 503 None; Sample.metadata "2024-01-05T10:00:01.000"].

(** The feed answers 200 with a body that is not JSON. *)
Definition bad_json : world := Sample.world_at (Sample.plain []) [Http 200 None].

(** The record A is stored already; the same with the store out of reach. *)
Definition holding_a : world := Sample.world_at (Sample.plain [Sample.a]) [].
Definition holding_a_down : world := Sample.world_at (Sample.unreachable [Sample.a]) [].

(** A record last modified on 2024-01-04, the day before the clock of the
    sample worlds, as it is stored. *)
Definition of_yesterday : dict :=
  [("id", VStr "CVE-2024-0009"); ("lastModified", VStr "2024-01-04")].
Definition holding_yesterday : world := Sample.world_at (Sample.plain [of_yesterday]) [].

End Case.

(* ===================================================================== *)
(** * Properties *)
(* ===================================================================== *)

(** ** Values *)

(** Induction on a value, with the hypothesis for every element of a list
    and every field of a dict. *)
Lemma value_ind (P : value -> Prop)
      (HNone : P VNone)
      (HBool : forall b, P (VBool b))
      (HNum : forall q, P (VNum q))
      (HStr : forall s, P (VStr s))
      (HList : forall xs, Forall P xs -> P (VList xs))
      (HDict : forall kv, Forall (fun e => P (snd e)) kv -> P (VDict kv)) :
  forall v, P v.
Proof.
  fix IH 1. intros [ | b | q | s | xs | kv ].
  - exact HNone.
  - apply HBool.
  - apply HNum.
  - apply HStr.
  - apply HList. induction xs as [ | x xs IHxs ]; constructor; [ apply IH | exact IHxs ].
  - apply HDict. induction kv as [ | [k x] kv IHkv ]; constructor; [ apply IH | exact IHkv ].
Qed.

Lemma Qeq_bool_sym (x y : Q) : Qeq_bool x y = Qeq_bool y x.
Proof.
  destruct (Qeq_bool x y) eqn:E; symmetry.
  - apply Qeq_bool_iff. symmetry. now apply Qeq_bool_iff.
  - destruct (Qeq_bool y x) eqn:E'; [ | reflexivity ].
    apply Qeq_bool_iff in E'. symmetry in E'. apply Qeq_bool_iff in E'. congruence.
Qed.

Lemma value_eqb_sym (a b : value) : value_eqb a b = value_eqb b a.
Proof.
  revert b. induction a as [ | x | x | x | xs IH | kv IH ] using value_ind;
    intros [ | y | y | y | ys | kv' ]; simpl; try reflexivity.
  - now destruct x, y.
  - apply Qeq_bool_sym.
  - apply String.eqb_sym.
  - revert ys. induction IH as [ | x xs Hx _ IHxs ]; intros [ | y ys ]; try reflexivity.
    rewrite Hx. f_equal. apply IHxs.
  - revert kv'. induction IH as [ | [k x] kv Hx _ IHkv ]; intros [ | [k' y] kv' ]; try reflexivity.
    simpl in Hx. rewrite Hx, (String.eqb_sym k k'). f_equal. apply IHkv.
Qed.

Lemma value_eqb_refl (a : value) : value_eqb a a = true.
Proof.
  induction a as [ | x | x | x | xs IH | kv IH ] using value_ind; simpl; try reflexivity.
  - now destruct x.
  - apply Qeq_bool_iff. reflexivity.
  - apply String.eqb_refl.
  - induction IH as [ | x xs Hx _ IHxs ]; [ reflexivity | ]. now rewrite Hx.
  - induction IH as [ | [k x] kv Hx _ IHkv ]; [ reflexivity | ].
    simpl in Hx. now rewrite String.eqb_refl, Hx.
Qed.

(** A value that counts as true is not [None]. *)
Lemma truthy_not_None (v : value) : truthy v = true -> value_eqb v VNone = false.
Proof. destruct v; simpl; congruence. Qed.

Lemma dict_get_set_same (k : string) (v : value) (d : dict) :
  dict_get k (dict_set k v d) = Some v.
Proof.
  induction d as [ | [k' v'] d IH ]; simpl.
  - now rewrite String.eqb_refl.
  - destruct (String.eqb k k') eqn:E; simpl; rewrite E; [ reflexivity | exact IH ].
Qed.

Lemma dict_get_set_other (k k' : string) (v : value) (d : dict) :
  k <> k' -> dict_get k' (dict_set k v d) = dict_get k' d.
Proof.
  intros Hne. induction d as [ | [k0 v0] d IH ]; simpl.
  - destruct (String.eqb k' k) eqn:E; [ | reflexivity ].
    apply String.eqb_eq in E. congruence.
  - destruct (String.eqb k k0) eqn:E; simpl.
    + apply String.eqb_eq in E. subst k0.
      destruct (String.eqb k' k) eqn:E'; [ | reflexivity ].
      apply String.eqb_eq in E'. congruence.
    + now rewrite IH.
Qed.

(** Assigning to a key keeps the keys and their order when the key is there. *)
Lemma dict_set_keys (k : string) (v : value) (d : dict) :
  dict_has k d = true -> map fst (dict_set k v d) = map fst d.
Proof.
  unfold dict_has. induction d as [ | [k' v'] d IH ]; simpl; [ discriminate | ].
  destruct (String.eqb k k') eqn:E; simpl; intros H; [ reflexivity | ].
  f_equal. now apply IH.
Qed.

Lemma before_T_no_T (s : string) : no_capital_T s -> before_T s = s.
Proof.
  unfold no_capital_T.
  induction s as [ | c s IH ]; intros H; simpl; [ reflexivity | ].
  destruct (Ascii.eqb c "T"%char) eqn:E.
  - apply Ascii.eqb_eq in E. subst c. exfalso. apply (H EmptyString s). reflexivity.
  - f_equal. apply IH. intros s1 s2 ->. apply (H (String c s1) s2). reflexivity.
Qed.

(** [before_T] is the prefix in front of the first capital T. *)
Lemma before_T_split (s1 s2 : string) :
  before_T s1 = s1 -> before_T (s1 ++ String "T"%char s2) = s1.
Proof.
  induction s1 as [ | c s1 IH ]; simpl; intros H; [ reflexivity | ].
  destruct (Ascii.eqb c "T"%char) eqn:E; [ discriminate | ].
  f_equal. apply IH. congruence.
Qed.

(** ** What a computation leaves alone *)

Section Frames.

Context {X : Type} (f : world -> X).

Lemma keeps_ret {A} (a : A) : keeps f (ret a).
Proof. intros w. reflexivity. Qed.

Lemma keeps_raise {A} (e : exn) : keeps f (@raise A e).
Proof. intros w. reflexivity. Qed.

Lemma keeps_bind {A B} (m : M A) (k : A -> M B) :
  keeps f m -> (forall a, keeps f (k a)) -> keeps f (bind m k).
Proof.
  intros Hm Hk w. unfold bind. specialize (Hm w).
  destruct (m w) as [[a | e | ] w1]; simpl in *; try exact Hm.
  now rewrite Hk.
Qed.

Lemma keeps_try {A} (body : M A) (caught : exn -> bool) (handler : exn -> M A) :
  keeps f body -> (forall e, keeps f (handler e)) ->
  keeps f (try_except body caught handler).
Proof.
  intros Hb Hh w. unfold try_except. specialize (Hb w).
  destruct (body w) as [[a | e | ] w1]; simpl in *; try exact Hb.
  destruct (caught e); simpl; [ now rewrite Hh | exact Hb ].
Qed.

Lemma keeps_modify (g : world -> world) :
  (forall w, f (g w) = f w) -> keeps f (modify g).
Proof. intros H w. apply H. Qed.

Lemma keeps_gets {A} (g : world -> A) : keeps f (gets g).
Proof. intros w. reflexivity. Qed.

Lemma keeps_lift_option {A} (o : option A) (e : exn) : keeps f (lift_option o e).
Proof. destruct o; intros w; reflexivity. Qed.

Lemma keeps_logger (l : level) (msg : string) : log_blind f -> keeps f (logger l msg).
Proof. intros H w. apply H. Qed.

Lemma keeps_count_documents (q : query) (limit : Z) : keeps f (count_documents q limit).
Proof. intros w. unfold count_documents. now destruct (reachable _). Qed.

Lemma keeps_find (q : query) : keeps f (find q).
Proof. intros w. unfold find. now destruct (reachable _). Qed.

Lemma keeps_bulk_write (ops : list dict) : store_blind f -> keeps f (bulk_write ops).
Proof.
  intros H w. unfold bulk_write. destruct ops as [ | d ops ]; [ reflexivity | ].
  destruct (reachable _); [ | reflexivity ].
  destruct (bulk_insert _ _) as [c' ok]. simpl. apply H.
Qed.

Lemma keeps_py_get (v : value) (k : string) (dflt : value) : keeps f (py_get v k dflt).
Proof. destruct v; intros w; reflexivity. Qed.

Lemma keeps_as_dict (v : value) : keeps f (as_dict v).
Proof. destruct v; intros w; reflexivity. Qed.

Lemma keeps_py_iter (v : value) : keeps f (py_iter v).
Proof. destruct v; intros w; reflexivity. Qed.

Lemma keeps_index_below (i : Z) (t : bound) : keeps f (index_below i t).
Proof. destruct t as [ | [ | | | | | ] ]; intros w; reflexivity. Qed.

Lemma keeps_py_split_T_0 (v : value) : keeps f (py_split_T_0 v).
Proof. destruct v; intros w; reflexivity. Qed.

Lemma keeps_py_replace_Z (v : value) : keeps f (py_replace_Z v).
Proof. destruct v; intros w; reflexivity. Qed.

Lemma keeps_datetime_sub (e s : datetime) : keeps f (datetime_sub e s).
Proof. unfold datetime_sub. destruct (Bool.eqb _ _); intros w; reflexivity. Qed.

Lemma keeps_datetime_minus_days (t : datetime) (n : Z) : keeps f (datetime_minus_days t n).
Proof.
  unfold datetime_minus_days. destruct (_ >? _); [ intros w; reflexivity | ].
  destruct (_ || _); intros w; reflexivity.
Qed.

Lemma keeps_next_reply : nvd_blind f -> keeps f next_reply.
Proof. intros H w. unfold next_reply. destruct (nvd w); [ reflexivity | apply H ]. Qed.

End Frames.

Create HintDb frame.
#[local] Hint Resolve keeps_ret keeps_raise keeps_gets keeps_lift_option
  keeps_count_documents keeps_find keeps_py_get keeps_as_dict keeps_py_iter
  keeps_index_below keeps_py_split_T_0 keeps_py_replace_Z keeps_datetime_sub
  keeps_datetime_minus_days keeps_logger keeps_bulk_write keeps_next_reply : frame.

(** Split a goal [keeps f m] along the structure of [m]. *)
Ltac frame_step :=
  match goal with
  | |- keeps _ (bind _ _) => apply keeps_bind; [ | intros ? ]
  | |- keeps _ (try_except _ _ _) => apply keeps_try; [ | intros ? ]
  | |- keeps _ (modify _) => apply keeps_modify; solve [ auto ]
  | |- keeps _ (if ?b then _ else _) => destruct b
  | |- keeps _ (match ?x with _ => _ end) => destruct x
  | |- keeps _ _ => solve [ auto with frame ]
  end.
Ltac frame := repeat frame_step.

Section UtilsFrames.

Context {RT : PyRuntime} {X : Type} (f : world -> X).
Hypothesis Hlog : log_blind f.

Lemma keeps_py_float (v : value) : keeps f (py_float v).
Proof. destruct v; simpl; frame. Qed.

Lemma keeps_py_int (v : value) : keeps f (py_int v).
Proof. destruct v; simpl; frame. Qed.

Lemma keeps_clean_date_field (k : string) (d : dict) : keeps f (clean_date_field k d).
Proof. unfold clean_date_field. frame. Qed.

Lemma keeps_clean_cve_data (d : dict) : keeps f (clean_cve_data d).
Proof.
  unfold clean_cve_data. generalize date_fields. intros fields. revert d.
  induction fields as [ | k fields IH ]; intros d; simpl; frame.
  apply keeps_clean_date_field.
Qed.

Lemma keeps_is_valid_cve (v : value) : keeps f (is_valid_cve v).
Proof. unfold is_valid_cve. frame. Qed.

Lemma keeps_prepare_each (vs : list value) (acc : list dict) : keeps f (prepare_each vs acc).
Proof.
  revert acc. induction vs as [ | v vs IH ]; intros acc; simpl; frame.
  - apply keeps_is_valid_cve.
  - apply keeps_clean_cve_data.
Qed.

Lemma keeps_prepare_bulk_operations (v : value) : keeps f (prepare_bulk_operations v).
Proof. unfold prepare_bulk_operations. frame. apply keeps_prepare_each. Qed.

Lemma keeps_execute_bulk_operations (ops : list dict) :
  store_blind f -> keeps f (execute_bulk_operations ops).
Proof. intros Hs. unfold execute_bulk_operations. frame. Qed.

Lemma keeps_window_ok (a b : value) : keeps f (window_ok a b).
Proof. unfold window_ok. frame. Qed.

Lemma keeps_effective_window (a b : value) : keeps f (effective_window a b).
Proof. unfold effective_window. frame. Qed.

Lemma keeps_build_query (a b c : value) : keeps f (build_query a b c).
Proof.
  unfold build_query. frame; try apply keeps_py_float; try apply keeps_py_int.
Qed.

Lemma keeps_fetch_filtered_cve_data (a b c : value) :
  keeps f (fetch_filtered_cve_data a b c).
Proof. unfold fetch_filtered_cve_data. frame. apply keeps_build_query. Qed.

Hypothesis Hsent : sent_blind f.

Lemma keeps_fetch_data (r : option reply) (params : value) : keeps f (fetch_data r params).
Proof. unfold fetch_data. frame. Qed.

Hypothesis Hstore : store_blind f.
Hypothesis Hnvd : nvd_blind f.

Lemma keeps_process_page (r : option reply) (i rpp : Z) (a b : value) :
  keeps f (process_page r i rpp a b).
Proof.
  unfold process_page. frame.
  - apply keeps_fetch_data.
  - apply keeps_prepare_bulk_operations.
  - apply keeps_execute_bulk_operations, Hstore.
Qed.

Lemma keeps_fetch_pages (script : list reply) (i rpp : Z) (t : bound) (a b : value) :
  keeps f (fetch_pages script i rpp t a b).
Proof.
  revert i t. induction script as [ | r script IH ]; intros i t; simpl; frame;
    apply keeps_process_page.
Qed.

Lemma keeps_fetch_and_store_cve_data (i rpp : Z) (a b : value) :
  keeps f (fetch_and_store_cve_data i rpp a b).
Proof. intros w. unfold fetch_and_store_cve_data. apply keeps_fetch_pages. Qed.

Lemma keeps_UpdateCveDataView_get : keeps f UpdateCveDataView_get.
Proof. unfold UpdateCveDataView_get. frame. apply keeps_fetch_and_store_cve_data. Qed.

End UtilsFrames.

(** ** The requests a run issues *)

Lemma sent_log_blind : log_blind sent.
Proof. intros l msg w. reflexivity. Qed.
Lemma sent_store_blind : store_blind sent.
Proof. intros c w. reflexivity. Qed.
Lemma sent_nvd_blind : nvd_blind sent.
Proof. intros rs w. reflexivity. Qed.
Lemma sent_stamp_blind : stamp_blind sent.
Proof. intros v w. reflexivity. Qed.

#[local] Hint Resolve sent_log_blind sent_store_blind sent_nvd_blind sent_stamp_blind : frame.

Lemma emits_keeps {A} (R : value -> Prop) (m : M A) : keeps sent m -> emits R m.
Proof. intros H w. exists []. rewrite H, app_nil_r. auto. Qed.

Lemma emits_bind {A B} (R : value -> Prop) (m : M A) (k : A -> M B) :
  emits R m -> (forall a, emits R (k a)) -> emits R (bind m k).
Proof.
  intros Hm Hk w. unfold bind. destruct (Hm w) as [r1 [E1 F1]].
  destruct (m w) as [[a | e | ] w1]; simpl in *; eauto.
  destruct (Hk a w1) as [r2 [E2 F2]]. exists (r1 ++ r2)%list.
  rewrite E2, E1, app_assoc. split; [ reflexivity | ]. apply Forall_app. auto.
Qed.

Lemma emits_weaken {A} (R R' : value -> Prop) (m : M A) :
  (forall r, R r -> R' r) -> emits R m -> emits R' m.
Proof.
  intros H Hm w. destruct (Hm w) as [reqs [E F]]. exists reqs. split; [ exact E | ].
  eapply Forall_impl; eauto.
Qed.

Section Trace.

Context {RT : PyRuntime}.

(** [fetch_data] issues exactly its request. *)
Lemma fetch_data_sent (r : option reply) (params : value) (w : world) :
  sent (snd (fetch_data r params w)) = (sent w ++ [params])%list.
Proof.
  unfold fetch_data, bind, modify. simpl.
  destruct r as [ [ status body | ] | ]; simpl; try reflexivity.
  destruct (status =? 200); simpl; [ | reflexivity ].
  now destruct body.
Qed.

(** One turn of the page loop issues exactly one request, the page's. *)
Lemma process_page_sent (r : option reply) (i rpp : Z) (a b : value) (w : world) :
  sent (snd (process_page r i rpp a b w)) = (sent w ++ [page_params i rpp a b])%list.
Proof.
  unfold process_page. unfold bind at 1.
  pose proof (fetch_data_sent r (page_params i rpp a b) w) as E.
  destruct (fetch_data r (page_params i rpp a b) w) as [[data | e | ] w1];
    simpl in *; try exact E.
  rewrite <- E.
  match goal with |- sent (snd (?m w1)) = _ => assert (K : keeps sent m) end.
  { frame.
    - apply keeps_prepare_bulk_operations; auto with frame.
    - apply keeps_execute_bulk_operations; auto with frame. }
  apply K.
Qed.

Lemma emits_process_page (r : option reply) (i rpp : Z) (a b : value) :
  emits (fun p => exists j, p = page_params j rpp a b) (process_page r i rpp a b).
Proof.
  intros w. exists [page_params i rpp a b]. split; [ apply process_page_sent | ].
  constructor; eauto.
Qed.

(** Every request of the page loop is a page request, with the window the
    loop was given. *)
Lemma emits_fetch_pages (script : list reply) (i rpp : Z) (t : bound) (a b : value) :
  emits (fun p => exists j, p = page_params j rpp a b) (fetch_pages script i rpp t a b).
Proof.
  revert i t. induction script as [ | r script IH ]; intros i t; simpl.
  - apply emits_bind; [ apply emits_keeps; auto with frame | ].
    intros [ | ]; [ | apply emits_keeps; auto with frame ].
    apply emits_bind; [ apply emits_process_page | ].
    intros _. apply emits_keeps; auto with frame.
  - apply emits_bind; [ apply emits_keeps; auto with frame | ].
    intros [ | ]; [ | apply emits_keeps; auto with frame ].
    apply emits_bind; [ apply emits_keeps; apply keeps_modify; reflexivity | ].
    intros _. apply emits_bind; [ apply emits_process_page | ].
    intros [ [j t'] | ]; [ apply IH | apply emits_keeps; auto with frame ].
Qed.

(** A call of [fetch_and_store_cve_data] always issues the request for its
    first page; the others follow. *)
Lemma fetch_and_store_first (i rpp : Z) (a b : value) (w : world) :
  exists rest,
    sent (snd (fetch_and_store_cve_data i rpp a b w))
    = (sent w ++ page_params i rpp a b :: rest)%list
    /\ Forall (fun p => exists j, p = page_params j rpp a b) rest.
Proof.
  unfold fetch_and_store_cve_data. destruct (nvd w) as [ | r script ]; simpl.
  - exists []. auto.
  - unfold bind at 1. simpl. unfold bind at 1. simpl. unfold bind at 1.
    pose proof (process_page_sent (Some r) i rpp a b (set_nvd script w)) as E.
    destruct (process_page (Some r) i rpp a b (set_nvd script w)) as [[x | e | ] w1];
      simpl in *; try (exists []; rewrite E; auto; fail).
    destruct x as [ [j t] | ]; [ | exists []; simpl; rewrite E; auto ].
    destruct (emits_fetch_pages script j rpp t a b w1) as [rest [E' F]].
    exists rest. rewrite E', E. simpl. rewrite <- app_assoc. auto.
Qed.

(** The metadata call is one request, with no parameters. *)
Lemma update_last_sync_timestamp_sent (w : world) :
  sent (snd (update_last_sync_timestamp w)) = (sent w ++ [VDict []])%list.
Proof.
  unfold update_last_sync_timestamp. unfold bind at 1.
  assert (N : sent (snd (next_reply w)) = sent w) by (apply keeps_next_reply; auto with frame).
  destruct (next_reply w) as [[r | e | ] w1] eqn:En; simpl in N;
    try (unfold next_reply in En; destruct (nvd w); discriminate).
  unfold bind at 1. pose proof (fetch_data_sent r (VDict []) w1) as E.
  destruct (fetch_data r (VDict []) w1) as [[data | e | ] w2]; simpl in *;
    try (rewrite E, N; reflexivity).
  rewrite <- N, <- E.
  match goal with |- sent (snd (?m w2)) = _ => assert (K : keeps sent m) end.
  { frame. }
  apply K.
Qed.

(** A window made of the two given values is attached only when both count
    as true; otherwise the request has the page cursor alone. *)
Lemma page_params_window (i rpp : Z) (a b : value) :
  truthy a = true -> truthy b = true ->
  request_window (page_params i rpp a b) = Some (a, b).
Proof. intros Ha Hb. unfold page_params. rewrite Ha, Hb. reflexivity. Qed.

Lemma page_params_bare (i rpp : Z) (a b : value) :
  truthy a && truthy b = false ->
  page_params i rpp a b
  = VDict [("startIndex", VNum (inject_Z i)); ("resultsPerPage", VNum (inject_Z rpp))].
Proof. intros H. unfold page_params. now rewrite H. Qed.

Lemma page_params_bare_window (i rpp : Z) (a b : value) :
  truthy a && truthy b = false -> request_window (page_params i rpp a b) = None.
Proof. intros H. now rewrite page_params_bare. Qed.

(** The page loop reads its window through [page_params] only. *)
Lemma process_page_window_irrelevant (r : option reply) (i rpp : Z) (a b a' b' : value) :
  truthy a && truthy b = false -> truthy a' && truthy b' = false ->
  process_page r i rpp a b = process_page r i rpp a' b'.
Proof.
  intros H H'. unfold process_page. now rewrite (page_params_bare _ _ _ _ H), (page_params_bare _ _ _ _ H').
Qed.

Lemma fetch_pages_window_irrelevant (script : list reply) (i rpp : Z) (t : bound)
      (a b a' b' : value) (w : world) :
  truthy a && truthy b = false -> truthy a' && truthy b' = false ->
  fetch_pages script i rpp t a b w = fetch_pages script i rpp t a' b' w.
Proof.
  intros H H'. revert i t w. induction script as [ | r script IH ]; intros i t w; simpl.
  - now rewrite (process_page_window_irrelevant None i rpp a b a' b' H H').
  - rewrite (process_page_window_irrelevant (Some r) i rpp a b a' b' H H').
    unfold bind. destruct (index_below i t w) as [[[ | ] | e | ] w1]; try reflexivity.
    destruct (modify (set_nvd script) w1) as [[u | e | ] w2]; try reflexivity.
    destruct (process_page (Some r) i rpp a' b' w2) as [[[[j t'] | ] | e | ] w3];
      try reflexivity.
    apply IH.
Qed.

(** A call given at most one usable date runs exactly as the call given
    none: the date takes no part in it. *)
Lemma synchronize_body_lone_date (a b : value) (w : world) :
  truthy a && truthy b = false ->
  synchronize_body a b w = synchronize_body VNone VNone w.
Proof.
  intros H. unfold synchronize_body, window_ok, effective_window. rewrite H. simpl.
  unfold bind, logger, modify, gets, ret. simpl.
  destruct (truthy (last_sync_timestamp w)); simpl; [ reflexivity | ].
  unfold fetch_and_store_cve_data. simpl.
  now rewrite (fetch_pages_window_irrelevant _ _ _ _ a b VNone VNone _ H eq_refl).
Qed.

(** The requests of a run that was given at most one usable date: the first
    page first; and every page request carries the window [watermark, now]
    when there is a watermark, and no window when there is none. *)
Lemma synchronize_body_trace (a b : value) (w : world) :
  truthy a && truthy b = false ->
  let wm := last_sync_timestamp w in
  let now := VStr (isoformat (mkDatetime true (utcnow w))) in
  let win := if truthy wm then (wm, now) else (a, b) in
  exists rest,
    sent (snd (synchronize_body a b w))
    = (sent w ++ page_params 0 2000 (fst win) (snd win) :: rest)%list
    /\ Forall (fun p => p = VDict [] \/ exists j, p = page_params j 2000 (fst win) (snd win))
              rest.
Proof.
  intros H wm now win. unfold synchronize_body, window_ok, effective_window. rewrite H.
  unfold bind, logger, modify, gets, ret. simpl. subst win. fold wm.
  destruct (truthy wm); simpl;
    match goal with
    | |- context [fetch_and_store_cve_data 0 2000 ?x ?y ?w1] =>
        destruct (fetch_and_store_first 0 2000 x y w1) as [rest [E F]];
        destruct (fetch_and_store_cve_data 0 2000 x y w1) as [[u | e | ] w2];
        simpl in E |- *;
        [ exists (rest ++ [VDict []])%list;
          rewrite update_last_sync_timestamp_sent, E, <- app_assoc;
          split; [ reflexivity | ];
          apply Forall_app; split;
          [ eapply Forall_impl; [ | exact F ]; auto | constructor; auto ]
        | exists rest; split; [ exact E | ]; eapply Forall_impl; [ | exact F ]; auto
        | exists rest; split; [ exact E | ]; eapply Forall_impl; [ | exact F ]; auto ]
    end.
Qed.

(** Taking and releasing the lock leaves the trace of requests alone. *)
Lemma with_sync_lock_sent {A} (body : M A) (w : world) :
  sync_lock w = false ->
  sent (snd (with_sync_lock body w)) = sent (snd (body (set_sync_lock true w))).
Proof.
  intros H. unfold with_sync_lock. rewrite H.
  now destruct (body (set_sync_lock true w)).
Qed.

End Trace.

(** ** [synchronize_cve_data]: the window *)

Lemma isoformat_truthy (t : datetime) : truthy (VStr (isoformat t)) = true.
Proof.
  unfold isoformat, Cal.format_iso.
  destruct (Cal.civil_from_days (micros t / MICROS_PER_DAY)) as [[y m] d].
  generalize (Cal.pad 4 y). intros p. now destruct p.
Qed.

Lemma truthy_VStr (s : string) : s <> EmptyString -> truthy (VStr s) = true.
Proof.
  intros H. simpl. destruct (String.eqb s EmptyString) eqn:E; [ | reflexivity ].
  apply String.eqb_eq in E. contradiction.
Qed.

Lemma world_eta (w : world) :
  mkWorld (cve_collection w) (last_sync_timestamp w) (sync_lock w) (nvd w)
          (sent w) (logged w) (utcnow w) = w.
Proof. now destruct w. Qed.

Section Window.

Context {RT : PyRuntime}.

(** What the validation of lines 112-126 answers on a window of two
    non-empty strings that both parse, with matching awareness. *)
Lemma window_ok_parsed (s e : string) (ds de : datetime) (w : world) :
  s <> EmptyString -> e <> EmptyString ->
  fromisoformat (replace_Z s) = Some ds ->
  fromisoformat (replace_Z e) = Some de ->
  aware de = aware ds ->
  window_ok (VStr s) (VStr e) w
  = if micros de - micros ds >? timedelta_days 120
    then (Ok false,
          add_logged ERROR "Date range exceeds the maximum allowable range of 120 days." w)
    else (Ok true, w).
Proof.
  intros Hs He Ps Pe Ha. unfold window_ok.
  rewrite (truthy_VStr s Hs), (truthy_VStr e He). simpl.
  unfold try_except, bind, py_replace_Z, ret. rewrite Ps, Pe. simpl.
  unfold datetime_sub. rewrite Ha, Bool.eqb_reflx. unfold ret.
  change (timedelta_days 120) with 10368000000000.
  now destruct (micros de - micros ds >? 10368000000000).
Qed.

(** C3, as the code has it.  A window of two dates whose span exceeds 120
    days ends the run before any request: the error is logged and the call
    returns normally, so that the world differs from the one before by two
    log lines only (no request, no change to the store or the watermark,
    the lock free again).  A window of at most 120 days, exactly 120
    included, is not rejected, and goes out unchanged with the first page
    request. *)
Theorem synchronize_window_over_120_days (s e : string) (ds de : datetime) (w : world) :
  sync_lock w = false ->
  s <> EmptyString -> e <> EmptyString ->
  fromisoformat (replace_Z s) = Some ds ->
  fromisoformat (replace_Z e) = Some de ->
  aware de = aware ds ->
  (micros de - micros ds > timedelta_days 120 ->
   synchronize_cve_data (VStr s) (VStr e) w
   = (Ok tt,
      add_logged ERROR "Date range exceeds the maximum allowable range of 120 days."
        (add_logged INFO "Starting CVE data synchronization." w)))
  /\ (micros de - micros ds <= timedelta_days 120 ->
      exists rest,
        sent (snd (synchronize_cve_data (VStr s) (VStr e) w))
        = (sent w ++ page_params 0 2000 (VStr s) (VStr e) :: rest)%list
        /\ request_window (page_params 0 2000 (VStr s) (VStr e)) = Some (VStr s, VStr e)).
Proof.
  intros Hl Hs He Ps Pe Ha. split; intros Hspan.
  - unfold synchronize_cve_data, with_sync_lock. rewrite Hl.
    unfold synchronize_body, bind, logger, modify. simpl.
    rewrite (window_ok_parsed s e ds de _ Hs He Ps Pe Ha).
    replace (micros de - micros ds >? timedelta_days 120) with true
      by (symmetry; apply Z.gtb_lt; lia).
    simpl. unfold ret. f_equal.
    destruct w. simpl in *. subst. reflexivity.
  - assert (Hwin : request_window (page_params 0 2000 (VStr s) (VStr e))
                   = Some (VStr s, VStr e))
      by (apply page_params_window; now apply truthy_VStr).
    assert (Es : String.eqb s EmptyString = false) by (now apply String.eqb_neq).
    assert (Ee : String.eqb e EmptyString = false) by (now apply String.eqb_neq).
    unfold synchronize_cve_data. rewrite with_sync_lock_sent by exact Hl.
    unfold synchronize_body, bind, logger, modify. simpl.
    rewrite (window_ok_parsed s e ds de _ Hs He Ps Pe Ha).
    replace (micros de - micros ds >? timedelta_days 120) with false
      by (symmetry; rewrite Z.gtb_ltb; apply Z.ltb_ge; lia).
    unfold effective_window, bind, gets, ret. cbn [negb truthy fst snd].
    rewrite Es, Ee, andb_false_r. cbn [negb andb fst snd].
    match goal with
    | |- context [fetch_and_store_cve_data 0 2000 ?x ?y ?w1] =>
        destruct (fetch_and_store_first 0 2000 x y w1) as [rest [E F]];
        destruct (fetch_and_store_cve_data 0 2000 x y w1) as [[u | err | ] w2]
    end; simpl in E.
    + exists (rest ++ [VDict []])%list.
      rewrite update_last_sync_timestamp_sent, E, <- app_assoc. auto.
    + exists rest. auto.
    + exists rest. auto.
Qed.

(** C7.  A call without a window, the lock being free.  With a watermark
    the first request is the first page of the window [watermark, now] and
    every page request of the run carries that window; without one (none
    yet, or a value that counts as false) no request carries a window: a
    full resynchronisation.  The watermark is a module global, so after a
    restart of the process the first such call is a full one, whatever the
    watermark was before. *)
Theorem synchronize_without_window (w : world) :
  sync_lock w = false ->
  let wm := last_sync_timestamp w in
  let now := VStr (isoformat (mkDatetime true (utcnow w))) in
  (truthy wm = true ->
   exists rest,
     sent (snd (synchronize_cve_data VNone VNone w))
     = (sent w ++ page_params 0 2000 wm now :: rest)%list
     /\ request_window (page_params 0 2000 wm now) = Some (wm, now)
     /\ Forall (fun p => p = VDict [] \/ request_window p = Some (wm, now)) rest)
  /\ (truthy wm = false ->
      exists rest,
        sent (snd (synchronize_cve_data VNone VNone w))
        = (sent w ++ VDict [("startIndex", VNum 0); ("resultsPerPage", VNum 2000)]
                  :: rest)%list
        /\ Forall (fun p => request_window p = None) rest)
  /\ (exists rest,
        sent (snd (synchronize_cve_data VNone VNone (restart w)))
        = VDict [("startIndex", VNum 0); ("resultsPerPage", VNum 2000)] :: rest
        /\ Forall (fun p => request_window p = None) rest).
Proof.
  intros Hl wm now.
  assert (Full : forall w0, sync_lock w0 = false -> truthy (last_sync_timestamp w0) = false ->
            exists rest,
              sent (snd (synchronize_cve_data VNone VNone w0))
              = (sent w0 ++ VDict [("startIndex", VNum 0); ("resultsPerPage", VNum 2000)]
                         :: rest)%list
              /\ Forall (fun p => request_window p = None) rest).
  { intros w0 Hl0 Hwm. unfold synchronize_cve_data.
    rewrite with_sync_lock_sent by exact Hl0.
    destruct (synchronize_body_trace VNone VNone (set_sync_lock true w0) eq_refl)
      as [rest [E F]].
    simpl in E, F. rewrite Hwm in E, F. simpl in E, F.
    exists rest. split; [ exact E | ].
    eapply Forall_impl; [ | exact F ]. intros p [-> | [j ->]]; reflexivity. }
  split; [ | split ].
  - intros Hwm. unfold synchronize_cve_data.
    rewrite with_sync_lock_sent by exact Hl.
    destruct (synchronize_body_trace VNone VNone (set_sync_lock true w) eq_refl)
      as [rest [E F]].
    simpl in E, F. fold wm in E, F. rewrite Hwm in E, F. simpl in E, F. fold now in E, F.
    assert (Hw : forall j, request_window (page_params j 2000 wm now) = Some (wm, now)).
    { intros j. apply page_params_window; [ exact Hwm | apply isoformat_truthy ]. }
    exists rest. split; [ exact E | ]. split; [ apply Hw | ].
    eapply Forall_impl; [ | exact F ]. intros p [-> | [j ->]]; auto.
  - apply Full, Hl.
  - apply (Full (restart w)); reflexivity.
Qed.

(** C10.  A call given one date only (the other being [None]) runs exactly
    as the call given none, whatever the date is: it is neither parsed nor
    measured against the 120 days, and it reaches no request.  With a
    watermark, every page request carries [watermark, now] instead; without
    one, no request carries a window. *)
Theorem synchronize_with_one_date (d : value) (w : world) :
  synchronize_cve_data d VNone w = synchronize_cve_data VNone VNone w
  /\ synchronize_cve_data VNone d w = synchronize_cve_data VNone VNone w
  /\ window_ok d VNone w = (Ok true, w)
  /\ window_ok VNone d w = (Ok true, w)
  /\ (sync_lock w = false ->
      let wm := last_sync_timestamp w in
      let now := VStr (isoformat (mkDatetime true (utcnow w))) in
      let carried := if truthy wm then Some (wm, now) else None in
      forall a b, (a, b) = (d, VNone) \/ (a, b) = (VNone, d) ->
      exists first rest,
        sent (snd (synchronize_cve_data a b w)) = (sent w ++ first :: rest)%list
        /\ Forall (fun p => p = VDict [] \/ request_window p = carried) (first :: rest)).
Proof.
  assert (Hd : truthy d && truthy VNone = false) by apply andb_false_r.
  assert (Hd' : truthy VNone && truthy d = false) by reflexivity.
  split; [ | split; [ | split; [ | split ] ] ].
  - unfold synchronize_cve_data, with_sync_lock. destruct (sync_lock w); [ reflexivity | ].
    now rewrite (synchronize_body_lone_date d VNone _ Hd).
  - unfold synchronize_cve_data, with_sync_lock. destruct (sync_lock w); [ reflexivity | ].
    now rewrite (synchronize_body_lone_date VNone d _ Hd').
  - unfold window_ok. now rewrite Hd.
  - reflexivity.
  - intros Hl wm now carried a b Hab.
    assert (Hab' : truthy a && truthy b = false).
    { destruct Hab as [E | E]; inversion E; subst; assumption. }
    unfold synchronize_cve_data. rewrite with_sync_lock_sent by exact Hl.
    destruct (synchronize_body_trace a b (set_sync_lock true w) Hab') as [rest [E F]].
    simpl in E, F. fold wm in E, F. fold now in E, F.
    assert (Hw : forall j,
               request_window (page_params j 2000
                                 (fst (if truthy wm then (wm, now) else (a, b)))
                                 (snd (if truthy wm then (wm, now) else (a, b))))
               = carried).
    { intros j. unfold carried. destruct (truthy wm) eqn:Hwm; cbn [fst snd].
      - apply page_params_window; [ exact Hwm | apply isoformat_truthy ].
      - now apply page_params_bare_window. }
    eexists. exists rest. split; [ exact E | ].
    constructor; [ right; apply Hw | ].
    eapply Forall_impl; [ | exact F ]. intros p [-> | [j ->]]; auto.
Qed.

End Window.

(** ** [clean_cve_data] *)

Section Clean.

Context {RT : PyRuntime}.

(** One date field: the call never raises, and changes nothing but that
    field and, for a value that is not a string, the log. *)
Lemma clean_date_field_run (k : string) (d : dict) (w : world) :
  clean_date_field k d w
  = match dict_get k d with
    | None => (Ok d, w)
    | Some (VStr s) => (Ok (dict_set k (VStr (before_T s)) d), w)
    | Some _ => (Ok (dict_set k VNone d),
                 add_logged ERROR "Error cleaning date field %s: %s" w)
    end.
Proof.
  unfold clean_date_field. destruct (dict_get k d) as [ [ | | | | | ] | ]; reflexivity.
Qed.

Lemma clean_date_field_get (k k' : string) (d d' : dict) (w w' : world) :
  clean_date_field k d w = (Ok d', w') ->
  dict_get k' d'
  = if String.eqb k' k then option_map cleaned_date (dict_get k' d) else dict_get k' d.
Proof.
  rewrite clean_date_field_run. intros H.
  destruct (String.eqb k' k) eqn:E.
  - apply String.eqb_eq in E. subst k'.
    destruct (dict_get k d) as [ [ | | | | | ] | ] eqn:G; inversion H; subst;
      rewrite ?dict_get_set_same, ?G; reflexivity.
  - apply String.eqb_neq in E.
    destruct (dict_get k d) as [ [ | | | | | ] | ] eqn:G; inversion H; subst;
      try reflexivity; apply dict_get_set_other; congruence.
Qed.

Lemma clean_date_field_keys (k : string) (d d' : dict) (w w' : world) :
  clean_date_field k d w = (Ok d', w') -> map fst d' = map fst d.
Proof.
  rewrite clean_date_field_run. intros H.
  destruct (dict_get k d) as [ [ | | | | | ] | ] eqn:G; inversion H; subst;
    try reflexivity; apply dict_set_keys; unfold dict_has; now rewrite G.
Qed.

Lemma clean_date_field_total (k : string) (d : dict) (w : world) :
  exists d' w', clean_date_field k d w = (Ok d', w').
Proof.
  rewrite clean_date_field_run.
  destruct (dict_get k d) as [ [ | | | | | ] | ]; eauto.
Qed.

(** Cleaning never raises, rewrites the two date fields and nothing else. *)
Lemma clean_cve_data_run (cve_data : dict) (w : world) :
  exists cleaned w',
    clean_cve_data cve_data w = (Ok cleaned, w')
    /\ (forall k, dict_get k cleaned
                  = if is_date_field k then option_map cleaned_date (dict_get k cve_data)
                    else dict_get k cve_data)
    /\ map fst cleaned = map fst cve_data.
Proof.
  unfold clean_cve_data, date_fields. simpl. unfold bind.
  destruct (clean_date_field_total "published" cve_data w) as [d1 [w1 E1]].
  rewrite E1.
  destruct (clean_date_field_total "lastModified" d1 w1) as [d2 [w2 E2]].
  rewrite E2. exists d2, w2. split; [ reflexivity | ]. split.
  - intros k.
    rewrite (clean_date_field_get _ k _ _ _ _ E2), (clean_date_field_get _ k _ _ _ _ E1).
    unfold is_date_field. simpl.
    destruct (String.eqb k "lastModified") eqn:EL; destruct (String.eqb k "published") eqn:EP;
      simpl; try reflexivity.
    apply String.eqb_eq in EL, EP. congruence.
  - rewrite (clean_date_field_keys _ _ _ _ _ E2). apply (clean_date_field_keys _ _ _ _ _ E1).
Qed.

(** C5, as the code has it.  Cleaning never raises.  A date field
    ([published], [lastModified]) that is present and holds a string is cut
    at its first capital T, so that a string without one, well-formed or
    not, stays as it is; a date field that is present and holds anything
    but a string becomes [None]; an absent date field stays absent; every
    other field, and the order of the fields, is kept. *)
Theorem clean_cve_data_fields (cve_data : dict) (w : world) :
  exists cleaned w',
    clean_cve_data cve_data w = (Ok cleaned, w')
    /\ (forall k, dict_get k cleaned
                  = if is_date_field k then option_map cleaned_date (dict_get k cve_data)
                    else dict_get k cve_data)
    /\ map fst cleaned = map fst cve_data
    /\ (forall day time, no_capital_T day ->
                          cleaned_date (VStr (day ++ String "T" time)) = VStr day)
    /\ (forall s, no_capital_T s -> cleaned_date (VStr s) = VStr s)
    /\ (forall v, (forall s, v <> VStr s) -> cleaned_date v = VNone)
    /\ cleaned_date (VStr "2024-01-05T10:00:00Z") = VStr "2024-01-05"
    /\ cleaned_date (VStr "not-a-date") = VStr "not-a-date".
Proof.
  destruct (clean_cve_data_run cve_data w) as [cleaned [w' [E [Hget Hkeys]]]].
  exists cleaned, w'. repeat (split; [ assumption | ]).
  split; [ | split; [ | split; [ | split; reflexivity ] ] ].
  - intros day time H. simpl. f_equal. now apply before_T_split, before_T_no_T.
  - intros s H. simpl. now rewrite before_T_no_T.
  - intros v H. destruct v; try reflexivity. now elim (H s).
Qed.

End Clean.

(** ** [execute_bulk_operations] and the ordered bulk write *)

Lemma insert_one_fits (d : dict) (c : collection) :
  conflicts d c = false -> insert_one d c = Some (with_more [d] c).
Proof. unfold insert_one, conflicts. now intros ->. Qed.

Lemma insert_one_conflict (d : dict) (c : collection) :
  conflicts d c = true -> insert_one d c = None.
Proof. unfold insert_one, conflicts. now intros ->. Qed.

Lemma with_more_nil (c : collection) : with_more [] c = c.
Proof. destruct c. unfold with_more. simpl. now rewrite app_nil_r. Qed.

Lemma with_more_app (a b : list dict) (c : collection) :
  with_more b (with_more a c) = with_more (a ++ b) c.
Proof. unfold with_more. simpl. now rewrite app_assoc. Qed.

(** The ordered bulk write commits the records in front of the first
    conflict and nothing else. *)
Lemma bulk_insert_until_conflict (pre : list dict) (d : dict) (post : list dict)
      (c : collection) :
  all_fit pre c = true -> conflicts d (with_more pre c) = true ->
  bulk_insert (pre ++ d :: post) c = (with_more pre c, false).
Proof.
  revert c. induction pre as [ | x pre IH ]; intros c Hfit Hc; simpl in *.
  - rewrite with_more_nil in *. now rewrite insert_one_conflict.
  - apply andb_prop in Hfit. destruct Hfit as [Hx Hfit].
    apply negb_true_iff in Hx. rewrite (insert_one_fits _ _ Hx).
    rewrite IH; [ now rewrite with_more_app | exact Hfit | now rewrite with_more_app ].
Qed.

Lemma bulk_insert_all_fit (ops : list dict) (c : collection) :
  all_fit ops c = true -> bulk_insert ops c = (with_more ops c, true).
Proof.
  revert c. induction ops as [ | x ops IH ]; intros c Hfit; simpl in *.
  - now rewrite with_more_nil.
  - apply andb_prop in Hfit. destruct Hfit as [Hx Hfit].
    apply negb_true_iff in Hx. rewrite (insert_one_fits _ _ Hx).
    rewrite IH by exact Hfit. now rewrite with_more_app.
Qed.

(** Whatever the batch, what an ordered bulk write adds is a prefix of it. *)
Lemma bulk_insert_prefix (ops : list dict) (c : collection) :
  exists pre post,
    ops = (pre ++ post)%list /\ fst (bulk_insert ops c) = with_more pre c.
Proof.
  revert c. induction ops as [ | x ops IH ]; intros c; simpl.
  - exists [], []. now rewrite with_more_nil.
  - destruct (insert_one x c) as [c' | ] eqn:E.
    + destruct (IH c') as [pre [post [-> Hc]]]. exists (x :: pre), post.
      split; [ reflexivity | ]. rewrite Hc.
      unfold insert_one in E. destruct (_ && _); [ discriminate | ].
      inversion E. unfold with_more. simpl. now rewrite <- app_assoc.
    + exists [], (x :: ops). now rewrite with_more_nil.
Qed.

Lemma bulk_write_run (ops : list dict) (w : world) :
  ops <> [] -> reachable (cve_collection w) = true ->
  bulk_write ops w
  = (if snd (bulk_insert ops (cve_collection w)) then Ok tt else Raise BulkWriteError,
     set_collection (fst (bulk_insert ops (cve_collection w))) w).
Proof.
  intros Hne Hr. unfold bulk_write. destruct ops as [ | x ops ]; [ congruence | ].
  rewrite Hr. now destruct (bulk_insert (x :: ops) (cve_collection w)).
Qed.

Lemma execute_bulk_operations_run (ops : list dict) (w : world) :
  ops <> [] -> reachable (cve_collection w) = true ->
  execute_bulk_operations ops w
  = (Ok tt,
     add_logged (if snd (bulk_insert ops (cve_collection w)) then INFO else ERROR)
                (if snd (bulk_insert ops (cve_collection w))
                 then "Bulk operations executed successfully."
                 else "Bulk write error: %s")
                (set_collection (fst (bulk_insert ops (cve_collection w))) w)).
Proof.
  intros Hne Hr. unfold execute_bulk_operations.
  destruct ops as [ | x ops ]; [ congruence | ].
  unfold try_except, bind. rewrite (bulk_write_run _ _ Hne Hr).
  now destruct (snd (bulk_insert (x :: ops) (cve_collection w))).
Qed.

(** C4, as the code has it.  An empty batch is a no-op.  On a reachable
    store a batch with no conflict is committed whole.  A batch whose first
    conflict is at record [d] commits exactly the records in front of [d]:
    [d] and every record behind it, conflicting or not, are left out; the
    error is logged, the write is not tried again, and the call returns
    normally. *)
Theorem execute_bulk_operations_stops_at_first_conflict (w : world) :
  execute_bulk_operations [] w = (Ok tt, w)
  /\ (forall ops,
        reachable (cve_collection w) = true -> ops <> [] ->
        all_fit ops (cve_collection w) = true ->
        execute_bulk_operations ops w
        = (Ok tt, add_logged INFO "Bulk operations executed successfully."
                    (set_collection (with_more ops (cve_collection w)) w)))
  /\ (forall pre d post,
        reachable (cve_collection w) = true ->
        all_fit pre (cve_collection w) = true ->
        conflicts d (with_more pre (cve_collection w)) = true ->
        execute_bulk_operations (pre ++ d :: post) w
        = (Ok tt, add_logged ERROR "Bulk write error: %s"
                    (set_collection (with_more pre (cve_collection w)) w))).
Proof.
  split; [ reflexivity | split ].
  - intros ops Hr Hne Hfit.
    rewrite (execute_bulk_operations_run _ _ Hne Hr), (bulk_insert_all_fit _ _ Hfit).
    reflexivity.
  - intros pre d post Hr Hfit Hc.
    rewrite execute_bulk_operations_run, (bulk_insert_until_conflict _ _ _ _ Hfit Hc);
      [ reflexivity | now destruct pre | exact Hr ].
Qed.

(** ** [fetch_filtered_cve_data] *)

Lemma collection_log_blind : log_blind cve_collection.
Proof. intros l msg w. reflexivity. Qed.
Lemma collection_sent_blind : sent_blind cve_collection.
Proof. intros p w. reflexivity. Qed.
Lemma collection_nvd_blind : nvd_blind cve_collection.
Proof. intros rs w. reflexivity. Qed.
Lemma collection_stamp_blind : stamp_blind cve_collection.
Proof. intros v w. reflexivity. Qed.

#[local] Hint Resolve collection_log_blind collection_sent_blind collection_nvd_blind
  collection_stamp_blind : frame.

Section Filter.

Context {RT : PyRuntime}.

(** Once the query is built, the call returns what the store finds, or the
    empty list (and a line in the log) when the store raises. *)
Lemma fetch_filtered_cve_data_run (cve_id base_score days : value) (q : query)
      (w w1 : world) :
  build_query cve_id base_score days w = (Ok q, w1) ->
  fetch_filtered_cve_data cve_id base_score days w
  = if reachable (cve_collection w)
    then (Ok (filter (matches q) (docs (cve_collection w))), w1)
    else (Ok [], add_logged ERROR "Error fetching filtered CVE data: %s" w1).
Proof.
  intros Hq. unfold fetch_filtered_cve_data, bind. rewrite Hq.
  assert (Hc : cve_collection w1 = cve_collection w).
  { change w1 with (snd (Ok q, w1)). rewrite <- Hq.
    apply keeps_build_query; auto with frame. }
  unfold try_except, find. rewrite Hc.
  now destruct (reachable (cve_collection w)).
Qed.

(** C9.  When the store query raises, the call logs the error and returns
    the empty list instead of raising; and it returns the empty list when
    no record matches. *)
Theorem fetch_filtered_cve_data_swallows_store_failure
        (cve_id base_score days : value) (q : query) (w w1 : world) :
  build_query cve_id base_score days w = (Ok q, w1) ->
  (fst (find q w1) = Raise ConnectionFailure ->
   fetch_filtered_cve_data cve_id base_score days w
   = (Ok [], add_logged ERROR "Error fetching filtered CVE data: %s" w1))
  /\ (reachable (cve_collection w) = true ->
      (forall d, In d (docs (cve_collection w)) -> matches q d = false) ->
      fst (fetch_filtered_cve_data cve_id base_score days w) = Ok []).
Proof.
  intros Hq. rewrite (fetch_filtered_cve_data_run _ _ _ _ _ _ Hq).
  assert (Hc : cve_collection w1 = cve_collection w).
  { change w1 with (snd (Ok q, w1)). rewrite <- Hq.
    apply keeps_build_query; auto with frame. }
  split.
  - unfold find. rewrite Hc. destruct (reachable (cve_collection w)); [ discriminate | ].
    reflexivity.
  - intros -> Hnone. simpl. f_equal.
    induction (docs (cve_collection w)) as [ | d ds IH ]; [ reflexivity | ].
    simpl. rewrite (Hnone d) by (now left). apply IH. intros d' Hd'. apply Hnone. now right.
Qed.

(** The query built from the three filters, when each is given and usable. *)
Lemma build_query_all_three (cve_id base_score days : value) (s : Q) (n : Z)
      (start : datetime) (w : world) :
  truthy cve_id = true -> truthy base_score = true ->
  py_float base_score = ret s ->
  days <> VNone -> py_int days = ret n ->
  datetime_minus_days (mkDatetime true (utcnow w)) n = ret start ->
  build_query cve_id base_score days w
  = (Ok [FieldEq ["id"] cve_id;
         AnyOf [(V2_SCORE, VNum s); (V3_SCORE, VNum s)];
         FieldBetween ["lastModified"] (VStr (isoformat start))
                      (VStr (isoformat (mkDatetime true (utcnow w))))],
     add_logged INFO "Query: {query}" w).
Proof.
  intros Hi Hs Hf Hd Hn Hm. unfold build_query. rewrite Hi, Hs, Hf.
  unfold bind at 1. unfold bind at 1. unfold bind at 1. cbn [ret app].
  assert (E : forall (q2 : query),
             match days with
             | VNone => ret q2
             | _ =>
                 now <- gets utcnow ;;
                 days0 <- py_int days ;;
                 start_date <- datetime_minus_days (mkDatetime true now) days0 ;;
                 ret (q2 ++ [FieldBetween ["lastModified"] (VStr (isoformat start_date))
                                          (VStr (isoformat (mkDatetime true now)))])%list
             end w
             = (Ok (q2 ++ [FieldBetween ["lastModified"] (VStr (isoformat start))
                             (VStr (isoformat (mkDatetime true (utcnow w))))])%list, w)).
  { intros q2. destruct days; try congruence;
      unfold bind, gets; rewrite Hn; unfold ret at 1; rewrite Hm; reflexivity. }
  unfold bind. rewrite E. reflexivity.
Qed.

(** With the three filters given, the records returned are those that
    satisfy all three. *)
Lemma fetch_filtered_cve_data_conjunction (cve_id base_score days : value) (s : Q)
      (n : Z) (start : datetime) (w : world) :
  reachable (cve_collection w) = true ->
  truthy cve_id = true -> truthy base_score = true ->
  py_float base_score = ret s ->
  days <> VNone -> py_int days = ret n ->
  datetime_minus_days (mkDatetime true (utcnow w)) n = ret start ->
  fst (fetch_filtered_cve_data cve_id base_score days w)
  = Ok (filter (fun d => has_id cve_id d && has_score s d
                         && modified_between (isoformat start)
                              (isoformat (mkDatetime true (utcnow w))) d)
               (docs (cve_collection w))).
Proof.
  intros Hr Hi Hs Hf Hd Hn Hm.
  rewrite (fetch_filtered_cve_data_run _ _ _ _ _ _
             (build_query_all_three _ _ _ _ _ _ _ Hi Hs Hf Hd Hn Hm)), Hr.
  simpl fst. f_equal. apply filter_ext. intros d.
  unfold matches, has_id, has_score, modified_between. simpl forallb.
  rewrite andb_true_r, orb_false_r, andb_assoc. reflexivity.
Qed.

(** A score that is given and is not zero selects exactly the records that
    carry it in their v2 or v3 metrics. *)
Lemma fetch_filtered_cve_data_by_score (s : Q) (w : world) :
  reachable (cve_collection w) = true ->
  Qeq_bool s 0 = false ->
  fst (fetch_filtered_cve_data VNone (VNum s) VNone w)
  = Ok (filter (has_score s) (docs (cve_collection w))).
Proof.
  intros Hr Hs.
  assert (Hq : build_query VNone (VNum s) VNone w
               = (Ok [AnyOf [(V2_SCORE, VNum s); (V3_SCORE, VNum s)]],
                  add_logged INFO "Query: {query}" w)).
  { unfold build_query. simpl. rewrite Hs. reflexivity. }
  rewrite (fetch_filtered_cve_data_run _ _ _ _ _ _ Hq), Hr. simpl fst.
  f_equal. apply filter_ext. intros d.
  unfold matches, has_score. simpl forallb.
  rewrite andb_true_r, orb_false_r. reflexivity.
Qed.

(** A score of zero is not taken as a filter: with nothing else given, the
    call returns every record. *)
Lemma fetch_filtered_cve_data_score_zero (s : Q) (w : world) :
  reachable (cve_collection w) = true ->
  Qeq_bool s 0 = true ->
  fst (fetch_filtered_cve_data VNone (VNum s) VNone w) = Ok (docs (cve_collection w)).
Proof.
  intros Hr Hs.
  assert (Hq : build_query VNone (VNum s) VNone w
               = (Ok [], add_logged INFO "Query: {query}" w)).
  { unfold build_query. simpl. rewrite Hs. reflexivity. }
  rewrite (fetch_filtered_cve_data_run _ _ _ _ _ _ Hq), Hr. simpl fst.
  f_equal. induction (docs (cve_collection w)) as [ | d ds IH ]; [ reflexivity | ].
  simpl. now rewrite IH.
Qed.

End Filter.

(** ** The store: append-only, and one record per id *)

Lemma grows_refl (c : collection) : grows c c.
Proof. split; [ reflexivity | ]. exists []. now rewrite app_nil_r. Qed.

Lemma grows_trans (a b c : collection) : grows a b -> grows b c -> grows a c.
Proof.
  intros [U1 [m1 D1]] [U2 [m2 D2]]. split; [ congruence | ].
  exists (m1 ++ m2)%list. now rewrite D2, D1, app_assoc.
Qed.

Lemma grows_with_more (more : list dict) (c : collection) : grows c (with_more more c).
Proof. split; [ reflexivity | ]. now exists more. Qed.

Lemma existsb_false_forall {A} (p : A -> bool) (l : list A) :
  existsb p l = false <-> forall x, In x l -> p x = false.
Proof.
  induction l as [ | a l IH ]; simpl.
  - split; [ intros _ x [] | reflexivity ].
  - rewrite orb_false_iff, IH. split.
    + intros [Ha Hl] x [<- | Hx]; auto.
    + intros H. split; [ apply H; now left | intros x Hx; apply H; now right ].
Qed.

Lemma same_id_sym (a b : dict) : same_id a b = same_id b a.
Proof. apply value_eqb_sym. Qed.

Lemma distinct_ids_app (l m : list dict) :
  distinct_ids (l ++ m) = true
  <-> distinct_ids l = true /\ distinct_ids m = true
      /\ forall a b, In a l -> In b m -> same_id a b = false.
Proof.
  induction l as [ | x l IH ]; simpl.
  - split; [ intros H; repeat split; auto; intros a b [] | tauto ].
  - rewrite !andb_true_iff, !negb_true_iff, IH, !existsb_false_forall. split.
    + intros [Hx [Hl [Hm Hlm]]]. repeat split; auto.
      * intros y Hy. apply Hx, in_or_app. now left.
      * intros a b [<- | Ha] Hb; [ apply Hx, in_or_app; now right | now apply Hlm ].
    + intros [[Hx Hl] [Hm Hlm]]. repeat split; auto.
      intros y Hy. apply in_app_or in Hy. destruct Hy as [Hy | Hy]; auto.
Qed.

(** An insert keeps the ids distinct when the collection enforces it, or
    when the new document repeats no stored id. *)
Lemma insert_one_distinct (d : dict) (c c' : collection) :
  distinct_ids (docs c) = true ->
  unique_id c = true \/ (forall s, In s (docs c) -> same_id s d = false) ->
  insert_one d c = Some c' ->
  distinct_ids (docs c') = true.
Proof.
  intros Hc Hor. unfold insert_one.
  destruct (unique_id c && existsb (fun s => same_id s d) (docs c)) eqn:E; [ discriminate | ].
  intros H. inversion H. subst c'. simpl.
  apply distinct_ids_app. repeat split; auto.
  intros a b Ha [<- | []].
  destruct Hor as [Hu | Hf]; [ | now apply Hf ].
  rewrite Hu in E. simpl in E.
  now apply (proj1 (existsb_false_forall _ _) E).
Qed.

Lemma insert_one_grows (d : dict) (c c' : collection) :
  insert_one d c = Some c' -> c' = with_more [d] c.
Proof.
  unfold insert_one. destruct (_ && _); [ discriminate | ]. now intros [= <-].
Qed.

Lemma bulk_insert_grows (ops : list dict) (c : collection) :
  grows c (fst (bulk_insert ops c)).
Proof.
  destruct (bulk_insert_prefix ops c) as [pre [post [_ ->]]]. apply grows_with_more.
Qed.

Lemma bulk_insert_distinct (ops : list dict) (c : collection) :
  distinct_ids (docs c) = true ->
  unique_id c = true \/ fresh_batch ops c ->
  distinct_ids (docs (fst (bulk_insert ops c))) = true.
Proof.
  revert c. induction ops as [ | d ops IH ]; intros c Hc Hor; simpl; [ exact Hc | ].
  destruct (insert_one d c) as [c' | ] eqn:E; [ | exact Hc ].
  pose proof (insert_one_grows _ _ _ E) as Hc'.
  apply IH.
  - eapply insert_one_distinct; [ exact Hc | | exact E ].
    destruct Hor as [Hu | [_ Hf]]; [ now left | right ].
    intros s Hs. apply Hf; [ exact Hs | now left ].
  - destruct Hor as [Hu | [Hd Hf]]; [ left; subst c'; exact Hu | right ].
    simpl in Hd. apply andb_true_iff in Hd. destruct Hd as [Hd1 Hd2].
    apply negb_true_iff in Hd1.
    split; [ exact Hd2 | ].
    intros s o Hs Ho. subst c'. simpl in Hs. apply in_app_or in Hs.
    destruct Hs as [Hs | [<- | []]].
    + apply Hf; [ exact Hs | now right ].
    + now apply (proj1 (existsb_false_forall _ _) Hd1).
Qed.

Section Store.

Context {RT : PyRuntime}.

(** A record accepted by [is_valid_cve] is a dict with a usable id that no
    stored document has; the check changes nothing. *)
Lemma is_valid_cve_true (cve_data : value) (w w' : world) :
  is_valid_cve cve_data w = (Ok true, w') ->
  exists c, cve_data = VDict c /\ w' = w /\ truthy (index_key c) = true
            /\ forall s, In s (docs (cve_collection w)) -> same_id s c = false.
Proof.
  unfold is_valid_cve. destruct cve_data as [ | | | | | c ]; try discriminate.
  unfold bind. simpl. fold (index_key c).
  destruct (truthy (index_key c)) eqn:Ht; simpl; [ | discriminate ].
  unfold count_documents. destruct (reachable (cve_collection w)); [ | discriminate ].
  destruct (filter _ _) as [ | x l ] eqn:Ef.
  - simpl. intros [= <-]. exists c. repeat split; auto.
    intros s Hs. unfold same_id.
    assert (Hm : matches [FieldEq ["id"] (index_key c)] s = false).
    { destruct (matches [FieldEq ["id"] (index_key c)] s) eqn:Em; [ | reflexivity ].
      assert (In s (filter (matches [FieldEq ["id"] (index_key c)]) (docs (cve_collection w))))
        by (apply filter_In; auto).
      rewrite Ef in H. destruct H. }
    unfold matches in Hm. simpl in Hm. rewrite andb_true_r in Hm.
    unfold field_eq in Hm. simpl in Hm. unfold index_key at 1.
    destruct (dict_get "id" s) as [x | ].
    + simpl in Hm. rewrite orb_false_r in Hm. unfold eq_match in Hm.
      apply orb_false_iff in Hm. destruct Hm as [Hm _].
      now rewrite value_eqb_sym.
    + now rewrite value_eqb_sym.
  - replace (Z.min 1 (Z.of_nat (List.length (x :: l)))) with 1
      by (simpl List.length; lia).
    discriminate.
Qed.

Lemma is_valid_cve_world (cve_data : value) (b : bool) (w w' : world) :
  is_valid_cve cve_data w = (Ok b, w') -> w' = w.
Proof.
  unfold is_valid_cve. destruct cve_data as [ | | | | | c ]; try discriminate.
  unfold bind. simpl. destruct (truthy _); simpl; [ | now intros [= _ <-] ].
  unfold count_documents. destruct (reachable (cve_collection w)); [ | discriminate ].
  destruct (_ >? 0); now intros [= _ <-].
Qed.

Lemma distinct_keys_none (vs : list value) :
  (forall v, In v vs -> wrapper_key v = VNone) -> distinct_keys (map wrapper_key vs) = true.
Proof.
  induction vs as [ | v vs IH ]; intros H; simpl; [ reflexivity | ].
  rewrite (H v) by (now left). simpl. apply IH. intros v' Hv'. apply H. now right.
Qed.

(** The batch prepared from a page that repeats no id repeats none either,
    and holds no id that is stored. *)
Lemma prepare_each_fresh (vs : list value) (acc ops : list dict) (w w' : world) :
  prepare_each vs acc w = (Ok ops, w') ->
  distinct_keys (map wrapper_key vs) = true ->
  fresh_batch acc (cve_collection w) ->
  (forall a v, In a acc -> In v vs -> value_eqb (index_key a) (wrapper_key v) = false) ->
  fresh_batch ops (cve_collection w).
Proof.
  revert acc w. induction vs as [ | v vs IH ]; intros acc w H Hk Hacc Hcross; simpl in H.
  - now inversion H; subst.
  - destruct v as [ | | | | | d ]; try discriminate.
    unfold bind at 1 in H. simpl in H.
    set (cve := match dict_get "cve" d with Some x => x | None => VDict [] end) in *.
    unfold bind at 1 in H.
    destruct (is_valid_cve cve w) as [[[ | ] | e | ] w1] eqn:Ev; try discriminate.
    + destruct (is_valid_cve_true _ _ _ Ev) as [c [Ec [-> [Ht Hfresh]]]].
      rewrite Ec in H. simpl in H. unfold bind at 1 in H. simpl in H.
      unfold bind at 1 in H.
      destruct (clean_cve_data_run c w) as [cleaned [w2 [Ecl [Hget _]]]].
      rewrite Ecl in H.
      assert (Hid : index_key cleaned = index_key c).
      { unfold index_key. now rewrite (Hget "id"). }
      assert (Hc2 : cve_collection w2 = cve_collection w).
      { change w2 with (snd (Ok cleaned, w2)). rewrite <- Ecl.
        apply keeps_clean_cve_data. intros l msg w0. reflexivity. }
      assert (Hwk : wrapper_key (VDict d) = index_key c).
      { simpl. unfold cve in Ec. destruct (dict_get "cve" d) as [x | ].
        - now subst x.
        - inversion Ec. subst c. discriminate. }
      cbn [map distinct_keys] in Hk. rewrite Hwk, Ht in Hk. cbn [andb] in Hk.
      apply andb_true_iff in Hk. destruct Hk as [Hk1 Hk2].
      apply negb_true_iff in Hk1.
      rewrite <- Hc2. apply (IH _ _ H Hk2).
      * rewrite Hc2. destruct Hacc as [Hd Hf]. split.
        -- apply distinct_ids_app. repeat split; auto.
           intros a b Ha [<- | []]. unfold same_id. rewrite Hid, <- Hwk.
           apply Hcross; [ exact Ha | now left ].
        -- intros s o Hs Ho. apply in_app_or in Ho. destruct Ho as [Ho | [<- | []]].
           ++ now apply Hf.
           ++ unfold same_id. rewrite Hid. now apply Hfresh.
      * intros a v' Ha Hv'. apply in_app_or in Ha. destruct Ha as [Ha | [<- | []]].
        -- apply Hcross; [ exact Ha | now right ].
        -- rewrite Hid.
           apply (proj1 (existsb_false_forall _ _) Hk1). now apply in_map.
    + rewrite (is_valid_cve_world _ _ _ _ Ev) in *.
      cbn [map distinct_keys] in Hk. apply andb_true_iff in Hk.
      apply (IH _ _ H (proj2 Hk) Hacc).
      intros a v' Ha Hv'. apply Hcross; [ exact Ha | now right ].
Qed.

Lemma prepare_bulk_operations_fresh (v : value) (ops : list dict) (w w' : world) :
  prepare_bulk_operations v w = (Ok ops, w') ->
  match v with VList vs => distinct_keys (map wrapper_key vs) = true | _ => True end ->
  fresh_batch ops (cve_collection w).
Proof.
  unfold prepare_bulk_operations, bind. intros H Hv.
  assert (Hnil : fresh_batch [] (cve_collection w)) by (split; [ reflexivity | intros s o _ [] ]).
  destruct v as [ | | | s | vs | d ]; try discriminate; simpl in H.
  - apply (prepare_each_fresh _ _ _ _ _ H); [ | exact Hnil | intros a v [] ].
    apply distinct_keys_none. intros v Hv'. apply in_map_iff in Hv'.
    now destruct Hv' as [c [<- _]].
  - apply (prepare_each_fresh _ _ _ _ _ H); [ exact Hv | exact Hnil | intros a v [] ].
  - apply (prepare_each_fresh _ _ _ _ _ H); [ | exact Hnil | intros a v [] ].
    apply distinct_keys_none. intros v Hv'. apply in_map_iff in Hv'.
    now destruct Hv' as [c [<- _]].
Qed.

Lemma store_step_refl (ok : Prop) (c : collection) : store_step ok c c.
Proof. split; [ apply grows_refl | auto ]. Qed.

Lemma store_step_same (ok : Prop) (c c' : collection) : c' = c -> store_step ok c c'.
Proof. intros ->. apply store_step_refl. Qed.

Lemma store_step_trans (ok1 ok2 : Prop) (a b c : collection) :
  store_step ok1 a b -> store_step ok2 b c -> store_step (ok1 /\ ok2) a c.
Proof.
  intros [G1 D1] [G2 D2]. split; [ eapply grows_trans; eauto | ].
  intros Ha Hor. apply D2.
  - apply D1; [ exact Ha | ]. destruct Hor as [Hu | [H1 _]]; auto.
  - destruct G1 as [U _]. rewrite U. destruct Hor as [Hu | [_ H2]]; auto.
Qed.

Lemma store_step_weaken (ok ok' : Prop) (c c' : collection) :
  (ok' -> ok) -> store_step ok c c' -> store_step ok' c c'.
Proof. intros H [G D]. split; [ exact G | ]. intros Hc [Hu | Ho]; auto. Qed.

Lemma fetch_data_truthy (r : option reply) (p data : value) (w w1 : world) :
  fetch_data r p w = (Ok data, w1) -> truthy data = true ->
  exists status, r = Some (Http status (Some data)) /\ (status =? 200) = true.
Proof.
  unfold fetch_data, bind, modify. simpl.
  destruct r as [ [ status body | ] | ]; simpl.
  - destruct (status =? 200) eqn:Es.
    + destruct body as [ body | ]; simpl; [ | discriminate ].
      intros [= <- _] _. now exists status.
    + intros [= <- _]. discriminate.
  - intros [= <- _]. discriminate.
  - intros [= <- _]. discriminate.
Qed.

Lemma execute_bulk_operations_store (ops : list dict) (w : world) :
  cve_collection (snd (execute_bulk_operations ops w)) = cve_collection w
  \/ cve_collection (snd (execute_bulk_operations ops w))
     = fst (bulk_insert ops (cve_collection w)).
Proof.
  destruct ops as [ | d ops ]; [ now left | ].
  destruct (reachable (cve_collection w)) eqn:Hr.
  - right. rewrite execute_bulk_operations_run; [ reflexivity | discriminate | exact Hr ].
  - left. unfold execute_bulk_operations, try_except, bind, bulk_write. now rewrite Hr.
Qed.

(** One turn of the page loop. *)
Lemma process_page_store (r : option reply) (i rpp : Z) (a b : value) (w : world) :
  store_step (match r with Some x => page_distinct x = true | None => True end)
             (cve_collection w)
             (cve_collection (snd (process_page r i rpp a b w))).
Proof.
  unfold process_page. unfold bind at 1.
  assert (K1 : cve_collection (snd (fetch_data r (page_params i rpp a b) w))
               = cve_collection w)
    by (apply keeps_fetch_data; auto with frame).
  destruct (fetch_data r (page_params i rpp a b) w) as [[data | e | ] w1] eqn:Ef;
    simpl in K1; try (apply store_step_same; exact K1).
  destruct (truthy data) eqn:Ht; [ | apply store_step_same; exact K1 ].
  destruct (fetch_data_truthy _ _ _ _ _ Ef Ht) as [status [-> Es]].
  cbn [negb]. destruct data as [ | | | | | dd ]; try (apply store_step_same; exact K1).
  unfold bind at 1. cbn [py_get ret].
  unfold bind at 1. cbn [py_get ret].
  set (v := match dict_get "vulnerabilities" dd with Some x => x | None => VList [] end).
  destruct (truthy v) eqn:Hv; [ | apply store_step_same; exact K1 ].
  cbn [negb]. unfold bind at 1.
  assert (K2 : cve_collection (snd (prepare_bulk_operations v w1)) = cve_collection w1)
    by (apply keeps_prepare_bulk_operations; auto with frame).
  destruct (prepare_bulk_operations v w1) as [[ops | e | ] w2] eqn:Ep; simpl in K2;
    try (apply store_step_same; simpl; congruence).
  assert (Hfresh : page_distinct (Http status (Some (VDict dd))) = true ->
                   fresh_batch ops (cve_collection w)).
  { intros Hp. rewrite <- K1. apply (prepare_bulk_operations_fresh _ _ _ _ Ep).
    simpl in Hp. rewrite Es in Hp. unfold v.
    destruct (dict_get "vulnerabilities" dd) as [ [ | | | | vs | ] | ]; auto. }
  unfold bind at 1.
  match goal with
  | |- context [match ?m w2 with _ => _ end] =>
      assert (K3 : cve_collection (snd (m w2)) = cve_collection w
                   \/ cve_collection (snd (m w2))
                      = fst (bulk_insert ops (cve_collection w)));
      [ | destruct (m w2) as [[u | e | ] w3]; simpl in K3 |- * ]
  end.
  { destruct ops as [ | o ops ]; [ left; simpl; congruence | ].
    destruct (execute_bulk_operations_store (o :: ops) w2) as [E | E];
      rewrite E, K2, K1; auto. }
  all: destruct K3 as [K3 | K3]; try (apply store_step_same; exact K3);
    rewrite K3; (split; [ apply bulk_insert_grows | ]);
    intros Hd [Hu | Hp]; apply bulk_insert_distinct; auto.
Qed.

(** The page loop. *)
Lemma fetch_pages_store (script : list reply) (i rpp : Z) (t : bound) (a b : value)
      (w : world) :
  store_step (forallb page_distinct script = true)
             (cve_collection w)
             (cve_collection (snd (fetch_pages script i rpp t a b w))).
Proof.
  revert i t w. induction script as [ | r script IH ]; intros i t w; simpl fetch_pages.
  - unfold bind at 1.
    assert (K : cve_collection (snd (index_below i t w)) = cve_collection w)
      by (apply keeps_index_below).
    destruct (index_below i t w) as [[[ | ] | e | ] w1]; simpl in K;
      apply store_step_same; exact K.
  - unfold bind at 1.
    assert (K : cve_collection (snd (index_below i t w)) = cve_collection w)
      by (apply keeps_index_below).
    destruct (index_below i t w) as [[[ | ] | e | ] w1]; simpl in K;
      try (apply store_step_same; exact K).
    unfold bind at 1. cbn [modify].
    unfold bind at 1.
    pose proof (process_page_store (Some r) i rpp a b (set_nvd script w1)) as S.
    change (cve_collection (set_nvd script w1)) with (cve_collection w1) in S.
    rewrite K in S.
    assert (Hsplit : forallb page_distinct (r :: script) = true ->
                     page_distinct r = true /\ forallb page_distinct script = true)
      by (simpl; intros H; now apply andb_true_iff in H).
    destruct (process_page (Some r) i rpp a b (set_nvd script w1)) as [[x | e | ] w2];
      simpl in S |- *;
      try (eapply store_step_weaken; [ | exact S ]; intros H; apply Hsplit in H; tauto).
    destruct x as [ [j t'] | ];
      [ | eapply store_step_weaken; [ | exact S ]; intros H; apply Hsplit in H; tauto ].
    eapply store_step_weaken; [ exact Hsplit | ].
    eapply store_step_trans; [ exact S | apply IH ].
Qed.

Lemma fetch_and_store_cve_data_store (i rpp : Z) (a b : value) (w : world) :
  store_step (forallb page_distinct (nvd w) = true)
             (cve_collection w)
             (cve_collection (snd (fetch_and_store_cve_data i rpp a b w))).
Proof. unfold fetch_and_store_cve_data. apply fetch_pages_store. Qed.

Lemma nvd_log_blind : log_blind nvd.
Proof. intros l msg w. reflexivity. Qed.

Lemma advances_keeps {A} (ok : Prop) (c : collection) (n : list reply) (m : M A) :
  keeps cve_collection m -> advances ok c n m.
Proof. intros K w Hc _. apply store_step_same. now rewrite K. Qed.

Lemma advances_after {A B} (ok : Prop) (c : collection) (n : list reply)
      (m : M A) (k : A -> M B) :
  keeps cve_collection m -> keeps nvd m -> (forall a, advances ok c n (k a)) ->
  advances ok c n (bind m k).
Proof.
  intros Kc Kn Hk w Hc Hn. unfold bind. specialize (Kc w). specialize (Kn w).
  destruct (m w) as [[a | e | ] w1]; simpl in *;
    try (apply store_step_same; congruence).
  apply Hk; congruence.
Qed.

Lemma advances_before {A B} (ok : Prop) (c : collection) (n : list reply)
      (m : M A) (k : A -> M B) :
  advances ok c n m -> (forall a, keeps cve_collection (k a)) ->
  advances ok c n (bind m k).
Proof.
  intros Hm Kk w Hc Hn. unfold bind. specialize (Hm w Hc Hn).
  destruct (m w) as [[a | e | ] w1]; simpl in *; try exact Hm.
  now rewrite Kk.
Qed.

Lemma advances_try {A} (ok : Prop) (c : collection) (n : list reply)
      (body : M A) (caught : exn -> bool) (handler : exn -> M A) :
  advances ok c n body -> (forall e, keeps cve_collection (handler e)) ->
  advances ok c n (try_except body caught handler).
Proof.
  intros Hb Kh w Hc Hn. unfold try_except. specialize (Hb w Hc Hn).
  destruct (body w) as [[a | e | ] w1]; simpl in *; try exact Hb.
  destruct (caught e); simpl; [ now rewrite Kh | exact Hb ].
Qed.

Lemma advances_fetch_and_store_cve_data (i rpp : Z) (a b : value) (c : collection)
      (n : list reply) :
  advances (forallb page_distinct n = true) c n (fetch_and_store_cve_data i rpp a b).
Proof. intros w <- <-. apply fetch_and_store_cve_data_store. Qed.

Lemma keeps_update_last_sync_timestamp :
  keeps cve_collection update_last_sync_timestamp.
Proof.
  unfold update_last_sync_timestamp. frame. apply keeps_fetch_data; auto with frame.
Qed.

Lemma advances_synchronize_body (a b : value) (c : collection) (n : list reply) :
  advances (forallb page_distinct n = true) c n (synchronize_body a b).
Proof.
  unfold synchronize_body.
  apply advances_after; [ apply keeps_logger; auto with frame
                        | apply keeps_logger, nvd_log_blind | intros _ ].
  apply advances_after; [ apply keeps_window_ok; auto with frame
                        | apply keeps_window_ok, nvd_log_blind | intros ok ].
  destruct ok; cbn [negb]; [ | apply advances_keeps; auto with frame ].
  apply advances_after; [ apply keeps_effective_window; auto with frame
                        | apply keeps_effective_window | intros win ].
  apply advances_before; [ apply advances_fetch_and_store_cve_data | intros _ ].
  apply keeps_update_last_sync_timestamp.
Qed.

Lemma synchronize_cve_data_store (a b : value) (w : world) :
  store_step (forallb page_distinct (nvd w) = true)
             (cve_collection w)
             (cve_collection (snd (synchronize_cve_data a b w))).
Proof.
  unfold synchronize_cve_data, with_sync_lock.
  destruct (sync_lock w); [ apply store_step_refl | ].
  pose proof (advances_synchronize_body a b (cve_collection w) (nvd w)
                (set_sync_lock true w) eq_refl eq_refl) as S.
  now destruct (synchronize_body a b (set_sync_lock true w)) as [r w'].
Qed.

Lemma UpdateCveDataView_get_store (w : world) :
  store_step (forallb page_distinct (nvd w) = true)
             (cve_collection w)
             (cve_collection (snd (UpdateCveDataView_get w))).
Proof.
  apply (advances_try _ _ (nvd w)); try reflexivity.
  - apply advances_before; [ apply advances_fetch_and_store_cve_data | intros _; frame ].
  - intros e. frame.
Qed.

(** One run of the service. *)
Lemma exec_store (r : run) (w : world) :
  store_step (forallb page_distinct (feed r) = true)
             (cve_collection w) (cve_collection (exec r w)).
Proof.
  assert (S0 : store_step (forallb page_distinct (feed r) = true) (cve_collection w)
                          (cve_collection (stage_run r w))).
  { split; [ split; [ reflexivity | exists []; simpl; now rewrite app_nil_r ] | auto ]. }
  eapply store_step_weaken; [ | eapply store_step_trans; [ exact S0 | ] ].
  - intros H. split; exact H.
  - unfold exec. destruct (op r) as [ a b | i n a b | ].
    + apply (synchronize_cve_data_store a b (stage_run r w)).
    + apply (fetch_and_store_cve_data_store i n a b (stage_run r w)).
    + apply (UpdateCveDataView_get_store (stage_run r w)).
Qed.

Lemma exec_all_store (rs : list run) (w : world) :
  store_step (forallb (fun r => forallb page_distinct (feed r)) rs = true)
             (cve_collection w) (cve_collection (exec_all rs w)).
Proof.
  revert w. induction rs as [ | r rs IH ]; intros w; simpl.
  - apply store_step_refl.
  - eapply store_step_weaken; [ | eapply store_step_trans; [ apply exec_store | apply IH ] ].
    intros H. now apply andb_true_iff in H.
Qed.

(** C1, as the code has it.  Over any sequence of runs (synchronisations,
    plain fetch-and-store calls, requests to the update view), with any
    answers of the feed, the collection only ever has documents appended:
    none is changed or removed.  If its ids start distinct they stay
    distinct provided the collection enforces a unique index on the id, or
    no page of the feed carries the same id twice: ids repeated across pages
    or across runs are filtered out, ids repeated inside one page are not. *)
Theorem store_append_only_and_deduplicated (rs : list run) (w : world) :
  (exists more,
      docs (cve_collection (exec_all rs w)) = (docs (cve_collection w) ++ more)%list)
  /\ (distinct_ids (docs (cve_collection w)) = true ->
      unique_id (cve_collection w) = true
      \/ forallb (fun r => forallb page_distinct (feed r)) rs = true ->
      distinct_ids (docs (cve_collection (exec_all rs w))) = true).
Proof.
  destruct (exec_all_store rs w) as [[_ G] D]. split; assumption.
Qed.

End Store.

(** ** The update view *)

(** *** Calls that are never suspended *)

Lemma runs_ret {A} (a : A) : runs (ret a).
Proof. intros w. discriminate. Qed.

Lemma runs_raise {A} (e : exn) : runs (@raise A e).
Proof. intros w. discriminate. Qed.

Lemma runs_bind {A B} (m : M A) (k : A -> M B) :
  runs m -> (forall a, runs (k a)) -> runs (bind m k).
Proof.
  intros Hm Hk w. unfold bind. specialize (Hm w).
  destruct (m w) as [[a | e | ] w1]; simpl in *; [ apply Hk | discriminate | now elim Hm ].
Qed.

Lemma runs_try {A} (body : M A) (caught : exn -> bool) (handler : exn -> M A) :
  runs body -> (forall e, runs (handler e)) -> runs (try_except body caught handler).
Proof.
  intros Hb Hh w. unfold try_except. specialize (Hb w).
  destruct (body w) as [[a | e | ] w1]; simpl in *; [ discriminate | | now elim Hb ].
  destruct (caught e); [ apply Hh | discriminate ].
Qed.

Lemma runs_modify (g : world -> world) : runs (modify g).
Proof. intros w. discriminate. Qed.

Lemma runs_gets {A} (g : world -> A) : runs (gets g).
Proof. intros w. discriminate. Qed.

Lemma runs_lift_option {A} (o : option A) (e : exn) : runs (lift_option o e).
Proof. destruct o; intros w; discriminate. Qed.

Lemma runs_logger (l : level) (msg : string) : runs (logger l msg).
Proof. intros w. discriminate. Qed.

Lemma runs_count_documents (q : query) (limit : Z) : runs (count_documents q limit).
Proof. intros w. unfold count_documents. destruct (reachable _); discriminate. Qed.

Lemma runs_bulk_write (ops : list dict) : runs (bulk_write ops).
Proof.
  intros w. unfold bulk_write. destruct ops; [ discriminate | ].
  destruct (reachable _); [ | discriminate ].
  destruct (bulk_insert _ _) as [c [ | ]]; discriminate.
Qed.

Lemma runs_py_get (v : value) (k : string) (dflt : value) : runs (py_get v k dflt).
Proof. destruct v; intros w; discriminate. Qed.

Lemma runs_as_dict (v : value) : runs (as_dict v).
Proof. destruct v; intros w; discriminate. Qed.

Lemma runs_py_iter (v : value) : runs (py_iter v).
Proof. destruct v; intros w; discriminate. Qed.

Lemma runs_index_below (i : Z) (t : bound) : runs (index_below i t).
Proof. destruct t as [ | [ | | | | | ] ]; intros w; discriminate. Qed.

Lemma runs_py_split_T_0 (v : value) : runs (py_split_T_0 v).
Proof. destruct v; intros w; discriminate. Qed.

Create HintDb running.
#[local] Hint Resolve runs_ret runs_raise runs_modify runs_gets runs_lift_option
  runs_logger runs_count_documents runs_bulk_write runs_py_get runs_as_dict
  runs_py_iter runs_index_below runs_py_split_T_0 : running.

Ltac running_step :=
  match goal with
  | |- runs (bind _ _) => apply runs_bind; [ | intros ? ]
  | |- runs (try_except _ _ _) => apply runs_try; [ | intros ? ]
  | |- runs (if ?b then _ else _) => destruct b
  | |- runs (match ?x with _ => _ end) => destruct x
  | |- runs _ => solve [ auto with running ]
  end.
Ltac running := repeat running_step.

Section View.

Context {RT : PyRuntime}.

Lemma runs_clean_cve_data (d : dict) : runs (clean_cve_data d).
Proof.
  unfold clean_cve_data. generalize date_fields. intros fields. revert d.
  induction fields as [ | k fields IH ]; intros d; simpl; running.
  unfold clean_date_field. running.
Qed.

Lemma runs_prepare_each (vs : list value) (acc : list dict) : runs (prepare_each vs acc).
Proof.
  revert acc. induction vs as [ | v vs IH ]; intros acc; simpl; running.
  - unfold is_valid_cve. running.
  - apply runs_clean_cve_data.
Qed.

Lemma runs_process_page (r : option reply) (i rpp : Z) (a b : value) :
  runs (process_page r i rpp a b).
Proof.
  unfold process_page. running.
  - unfold fetch_data. running.
  - unfold prepare_bulk_operations. running. apply runs_prepare_each.
  - unfold execute_bulk_operations. running.
Qed.

Lemma runs_fetch_pages (script : list reply) (i rpp : Z) (t : bound) (a b : value) :
  runs (fetch_pages script i rpp t a b).
Proof.
  revert i t. induction script as [ | r script IH ]; intros i t; simpl; running;
    apply runs_process_page.
Qed.

(** [fetch_and_store_cve_data] takes no lock: it is never suspended. *)
Lemma runs_fetch_and_store_cve_data (i rpp : Z) (a b : value) :
  runs (fetch_and_store_cve_data i rpp a b).
Proof. intros w. unfold fetch_and_store_cve_data. apply runs_fetch_pages. Qed.

Lemma lock_log_blind : log_blind sync_lock.
Proof. intros l msg w. reflexivity. Qed.
Lemma lock_sent_blind : sent_blind sync_lock.
Proof. intros p w. reflexivity. Qed.
Lemma lock_store_blind : store_blind sync_lock.
Proof. intros c w. reflexivity. Qed.
Lemma lock_nvd_blind : nvd_blind sync_lock.
Proof. intros rs w. reflexivity. Qed.
Lemma stamp_log_blind : log_blind last_sync_timestamp.
Proof. intros l msg w. reflexivity. Qed.
Lemma stamp_sent_blind : sent_blind last_sync_timestamp.
Proof. intros p w. reflexivity. Qed.
Lemma stamp_store_blind : store_blind last_sync_timestamp.
Proof. intros c w. reflexivity. Qed.
Lemma stamp_nvd_blind : nvd_blind last_sync_timestamp.
Proof. intros rs w. reflexivity. Qed.

(** C6, as the code has it.  The update view calls
    [fetch_and_store_cve_data()] itself, with the default arguments, and not
    [synchronize_cve_data]: it answers every request (200, or 500 when the
    fetch raised) without ever waiting for the lock, held or not; it leaves
    the lock and the watermark as they were; and what it sends is the first
    page request, without a window, followed by page requests without a
    window only, the metadata call never. *)
Theorem update_view_calls_fetch_and_store_directly (w : world) :
  (exists response,
      fst (UpdateCveDataView_get w) = Ok response
      /\ (status_code response = 200 \/ status_code response = 500))
  /\ sync_lock (snd (UpdateCveDataView_get w)) = sync_lock w
  /\ last_sync_timestamp (snd (UpdateCveDataView_get w)) = last_sync_timestamp w
  /\ exists rest,
      sent (snd (UpdateCveDataView_get w))
      = (sent w ++ VDict [("startIndex", VNum 0); ("resultsPerPage", VNum 2000)]
                :: rest)%list
      /\ Forall (fun p => exists j,
                     p = VDict [("startIndex", VNum (inject_Z j));
                                ("resultsPerPage", VNum 2000)]) rest.
Proof.
  split; [ | split; [ | split ] ].
  - unfold UpdateCveDataView_get, try_except, bind.
    pose proof (runs_fetch_and_store_cve_data 0 2000 VNone VNone w) as R.
    destruct (fetch_and_store_cve_data 0 2000 VNone VNone w) as [[u | e | ] w1];
      simpl in R |- *; [ eexists; split; [ reflexivity | now left ]
                       | eexists; split; [ reflexivity | now right ]
                       | congruence ].
  - apply keeps_UpdateCveDataView_get;
      [ apply lock_log_blind | apply lock_sent_blind | apply lock_store_blind
      | apply lock_nvd_blind ].
  - apply keeps_UpdateCveDataView_get;
      [ apply stamp_log_blind | apply stamp_sent_blind | apply stamp_store_blind
      | apply stamp_nvd_blind ].
  - destruct (fetch_and_store_first 0 2000 VNone VNone w) as [rest [E F]].
    exists rest. split.
    + assert (V : sent (snd (UpdateCveDataView_get w))
                  = sent (snd (fetch_and_store_cve_data 0 2000 VNone VNone w))).
      { unfold UpdateCveDataView_get, try_except, bind.
        destruct (fetch_and_store_cve_data 0 2000 VNone VNone w) as [[u | e | ] w1];
          reflexivity. }
      rewrite V. exact E.
    + eapply Forall_impl; [ | exact F ]. intros p [j ->]. now exists j.
Qed.

End View.

(** ** [serialize_mongo_data] *)

Lemma bson_ind (P : bson -> Prop)
      (HNone : P BNone)
      (HBool : forall b, P (BBool b))
      (HNum : forall q, P (BNum q))
      (HStr : forall s, P (BStr s))
      (HOid : forall h, P (BObjectId h))
      (HList : forall xs, Forall P xs -> P (BList xs))
      (HDict : forall kv, Forall (fun e => P (snd e)) kv -> P (BDict kv)) :
  forall v, P v.
Proof.
  fix IH 1. intros [ | b | q | s | h | xs | kv ].
  - exact HNone.
  - apply HBool.
  - apply HNum.
  - apply HStr.
  - apply HOid.
  - apply HList. induction xs as [ | x xs IHxs ]; constructor; [ apply IH | exact IHxs ].
  - apply HDict. induction kv as [ | [k x] kv IHkv ]; constructor; [ apply IH | exact IHkv ].
Qed.

(** The two functions call each other as in the source. *)
Lemma serialize_mongo_document_dict (kv : list (string * bson)) :
  serialize_mongo_document (BDict kv) = BDict (map serialize_field kv).
Proof. reflexivity. Qed.

Lemma serialize_mongo_document_list (items : list bson) :
  serialize_mongo_document (BList items) = BList (map serialize_mongo_data items).
Proof. reflexivity. Qed.

Lemma serialize_mongo_data_list (items : list bson) :
  serialize_mongo_data (BList items) = BList (map serialize_mongo_document items).
Proof. reflexivity. Qed.

Lemma serialize_mongo_data_dict (kv : list (string * bson)) :
  serialize_mongo_data (BDict kv) = serialize_mongo_document (BDict kv).
Proof. reflexivity. Qed.

Lemma forallb_map_ext {A B} (f : A -> B) (p : B -> bool) (q : A -> bool) (l : list A) :
  Forall (fun x => p (f x) = q x) l -> forallb p (map f l) = forallb q l.
Proof. induction 1 as [ | x l Hx _ IH ]; simpl; [ reflexivity | now rewrite Hx, IH ]. Qed.

Lemma map_map_fixed {A} (f : A -> A) (l : list A) :
  Forall (fun x => f (f x) = f x) l -> map f (map f l) = map f l.
Proof. induction 1 as [ | x l Hx _ IH ]; simpl; [ reflexivity | now rewrite Hx, IH ]. Qed.

Lemma map_fixed {A} (f : A -> A) (l : list A) :
  Forall (fun x => f x = x) l -> map f l = l.
Proof. induction 1 as [ | x l Hx _ IH ]; simpl; [ reflexivity | now rewrite Hx, IH ]. Qed.

(** Both functions at once: the result can be written as JSON exactly when
    no [ObjectId] of the input sits outside the fields of a document. *)
Lemma serialize_json_safe_both (v : bson) :
  json_safe (serialize_mongo_document v) = ids_in_fields v
  /\ json_safe (serialize_mongo_data v) = ids_in_fields v.
Proof.
  induction v as [ | b | q | s | h | xs IH | kv IH ] using bson_ind;
    try (split; reflexivity).
  - rewrite serialize_mongo_document_list, serialize_mongo_data_list. simpl. split.
    + apply forallb_map_ext. eapply Forall_impl; [ | exact IH ]. now intros x [_ H].
    + apply forallb_map_ext. eapply Forall_impl; [ | exact IH ]. now intros x [H _].
  - rewrite serialize_mongo_data_dict, serialize_mongo_document_dict. simpl.
    assert (H : forallb (fun e => json_safe (snd e)) (map serialize_field kv)
                = forallb (fun e => match snd e with
                                    | BObjectId _ => true
                                    | _ => ids_in_fields (snd e)
                                    end) kv).
    { apply forallb_map_ext. eapply Forall_impl; [ | exact IH ].
      intros [k x] [Hd Hx]. unfold serialize_field. simpl in *.
      destruct x; try reflexivity; simpl snd; exact Hx. }
    now split.
Qed.

(** [serialize_mongo_data] turns into strings the [ObjectId]s that are
    values of fields, at any depth, and no others: its result can be written
    as JSON exactly when the input has no [ObjectId] as the value itself or
    as an element of a list. *)
Theorem serialize_mongo_data_json_safe (data : bson) :
  json_safe (serialize_mongo_data data) = ids_in_fields data.
Proof. apply serialize_json_safe_both. Qed.

Lemma serialize_idempotent_both (v : bson) :
  serialize_mongo_document (serialize_mongo_document v) = serialize_mongo_document v
  /\ serialize_mongo_data (serialize_mongo_data v) = serialize_mongo_data v.
Proof.
  induction v as [ | b | q | s | h | xs IH | kv IH ] using bson_ind;
    try (split; reflexivity).
  - rewrite (serialize_mongo_document_list xs), (serialize_mongo_data_list xs).
    rewrite (serialize_mongo_document_list (map serialize_mongo_data xs)).
    rewrite (serialize_mongo_data_list (map serialize_mongo_document xs)).
    split; f_equal.
    + apply map_map_fixed. eapply Forall_impl; [ | exact IH ]. now intros x [_ H].
    + apply map_map_fixed. eapply Forall_impl; [ | exact IH ]. now intros x [H _].
  - rewrite (serialize_mongo_data_dict kv), (serialize_mongo_document_dict kv).
    rewrite (serialize_mongo_data_dict (map serialize_field kv)).
    rewrite (serialize_mongo_document_dict (map serialize_field kv)).
    assert (H : map serialize_field (map serialize_field kv) = map serialize_field kv).
    { apply map_map_fixed. eapply Forall_impl; [ | exact IH ].
      intros [k x] [Hd Hx]. simpl in Hx.
      destruct x; try reflexivity; exact (f_equal (pair k) Hx). }
    now rewrite H.
Qed.

(** Serialising twice is serialising once. *)
Theorem serialize_mongo_data_idempotent (data : bson) :
  serialize_mongo_data (serialize_mongo_data data) = serialize_mongo_data data.
Proof. apply serialize_idempotent_both. Qed.

Lemma serialize_identity_both (v : bson) :
  json_safe v = true ->
  serialize_mongo_document v = v /\ serialize_mongo_data v = v.
Proof.
  induction v as [ | b | q | s | h | xs IH | kv IH ] using bson_ind; intros Hs;
    try (split; reflexivity).
  - simpl in Hs. rewrite forallb_forall in Hs. rewrite Forall_forall in IH.
    rewrite serialize_mongo_document_list, serialize_mongo_data_list. split; f_equal.
    + apply map_fixed, Forall_forall. intros x Hx. now apply IH; [ | apply Hs ].
    + apply map_fixed, Forall_forall. intros x Hx. now apply IH; [ | apply Hs ].
  - simpl in Hs. rewrite forallb_forall in Hs. rewrite Forall_forall in IH.
    rewrite serialize_mongo_data_dict, serialize_mongo_document_dict.
    assert (H : map serialize_field kv = kv).
    { apply map_fixed, Forall_forall. intros [k x] Hx.
      specialize (IH _ Hx). specialize (Hs _ Hx). simpl in *.
      unfold serialize_field. simpl.
      destruct x; try reflexivity; try discriminate; f_equal; now apply IH. }
    now rewrite H.
Qed.

(** Data without any [ObjectId] comes back unchanged. *)
Theorem serialize_mongo_data_identity (data : bson) :
  json_safe data = true -> serialize_mongo_data data = data.
Proof. intros H. now apply serialize_identity_both. Qed.

Lemma of_value_json_safe (v : value) : json_safe (of_value v) = true.
Proof.
  induction v as [ | b | q | s | xs IH | kv IH ] using value_ind; try reflexivity.
  - simpl. apply forallb_forall. intros x Hx. apply in_map_iff in Hx.
    destruct Hx as [y [<- Hy]]. rewrite Forall_forall in IH. now apply IH.
  - simpl. apply forallb_forall. intros x Hx. apply in_map_iff in Hx.
    destruct Hx as [y [<- Hy]]. rewrite Forall_forall in IH. now apply (IH y).
Qed.

Section Found.

Variable oid_of : dict -> string.

Lemma serialize_found (ds : list dict) :
  serialize_mongo_data (BList (map (as_found oid_of) ds))
  = BList (map (fun d => BDict (("_id", BStr (oid_of d))
                                :: map (fun e => (fst e, of_value (snd e))) d)) ds).
Proof.
  rewrite serialize_mongo_data_list, map_map. f_equal. apply map_ext. intros d.
  unfold as_found. rewrite serialize_mongo_document_dict. simpl. f_equal. f_equal.
  apply map_fixed, Forall_forall. intros [k x] Hx. apply in_map_iff in Hx.
  destruct Hx as [[k' v] [[= <- <-] _]].
  pose proof (of_value_json_safe v) as Hs.
  unfold serialize_field. simpl.
  destruct (of_value v) eqn:Ev; try reflexivity; try discriminate; f_equal;
    now apply serialize_identity_both.
Qed.

Lemma serialize_found_safe (ds : list dict) :
  json_safe (serialize_mongo_data (BList (map (as_found oid_of) ds))) = true.
Proof.
  rewrite serialize_found. simpl. apply forallb_forall.
  intros x Hx. apply in_map_iff in Hx. destruct Hx as [d [<- _]]. simpl.
  apply forallb_forall. intros e He. apply in_map_iff in He.
  destruct He as [[k v] [<- _]]. apply of_value_json_safe.
Qed.

(** The documents of a query result, serialised: each keeps its fields as
    they are stored and shows its [_id] as a string; the list can be written
    as JSON. *)
Theorem serialize_mongo_data_found (ds : list dict) :
  serialize_mongo_data (BList (map (as_found oid_of) ds))
  = BList (map (fun d => BDict (("_id", BStr (oid_of d))
                                :: map (fun e => (fst e, of_value (snd e))) d)) ds)
  /\ json_safe (serialize_mongo_data (BList (map (as_found oid_of) ds))) = true.
Proof. split; [ apply serialize_found | apply serialize_found_safe ]. Qed.

Context {RT : PyRuntime}.

(** The filter view answers every request: 200 with the matching documents
    (none when the store cannot be reached) once the parameters have been
    converted; and, when the conversion of [baseScore] or
    [lastModifiedDays] raised [e], 500 with the status "error" and [str(e)]
    as the message. *)
Theorem FilterCveDataView_get_response (GET : QueryDict) (w : world) :
  (forall q w1,
      build_query (querydict_get "cveId" GET) (querydict_get "baseScore" GET)
                  (querydict_get "lastModifiedDays" GET) w = (Ok q, w1) ->
      fst (FilterCveDataView_get oid_of GET w)
      = Ok (Listed
              (mkJsonListResponse 200
                 (BList (map (fun d => BDict (("_id", BStr (oid_of d))
                                              :: map (fun e => (fst e, of_value (snd e))) d))
                             (if reachable (cve_collection w)
                              then filter (matches q) (docs (cve_collection w))
                              else []))))))
  /\ (forall e w1,
        build_query (querydict_get "cveId" GET) (querydict_get "baseScore" GET)
                    (querydict_get "lastModifiedDays" GET) w = (Raise e, w1) ->
        FilterCveDataView_get oid_of GET w
        = (Ok (Failed (mkJsonResponse 500 [("status", Words "error");
                                           ("message", StrOf e)])),
           add_logged ERROR "Error filtering CVE data: {e}" w1)).
Proof.
  set (cve_id := querydict_get "cveId" GET).
  set (base_score := querydict_get "baseScore" GET).
  set (days := querydict_get "lastModifiedDays" GET).
  split.
  - intros q w1 Hq. unfold FilterCveDataView_get, try_except. unfold bind at 1.
    fold cve_id base_score days.
    rewrite (fetch_filtered_cve_data_run _ _ _ _ _ _ Hq).
    destruct (reachable (cve_collection w)); unfold bind, json_response;
      rewrite serialize_found_safe, serialize_found; reflexivity.
  - intros e w1 Hq. unfold FilterCveDataView_get, try_except. unfold bind at 1.
    fold cve_id base_score days.
    unfold fetch_filtered_cve_data. unfold bind at 1. rewrite Hq. reflexivity.
Qed.

(** A [baseScore] or a [lastModifiedDays] that is not a number makes
    [fetch_filtered_cve_data] raise [ValueError]: the conversion stands
    outside its [try], the store is not queried and nothing is logged. *)
Theorem fetch_filtered_cve_data_bad_number (cve_id other : value) (s : string) (w : world) :
  (s <> EmptyString -> float_of_str s = None ->
   fetch_filtered_cve_data cve_id (VStr s) other w = (Raise ValueError, w))
  /\ (truthy other = false -> int_of_str s = None ->
      fetch_filtered_cve_data cve_id other (VStr s) w = (Raise ValueError, w)).
Proof.
  split.
  - intros Hs Hf. unfold fetch_filtered_cve_data, build_query.
    rewrite (truthy_VStr s Hs). unfold bind at 1. unfold bind at 1. unfold bind at 1.
    unfold bind at 1. simpl py_float. rewrite Hf. reflexivity.
  - intros Ho Hi. unfold fetch_filtered_cve_data, build_query. rewrite Ho.
    unfold bind at 1. unfold bind at 1. unfold bind at 1. cbn [ret].
    unfold bind at 1. unfold gets. unfold bind at 1. simpl py_int. rewrite Hi.
    reflexivity.
Qed.

(** Filtering reads only: whatever its arguments and however it ends, it
    leaves the collection, the watermark, the lock, the feed and the trace
    of requests as they were. *)
Theorem fetch_filtered_cve_data_reads_only (cve_id base_score days : value) (w : world) :
  cve_collection (snd (fetch_filtered_cve_data cve_id base_score days w))
  = cve_collection w
  /\ last_sync_timestamp (snd (fetch_filtered_cve_data cve_id base_score days w))
     = last_sync_timestamp w
  /\ sync_lock (snd (fetch_filtered_cve_data cve_id base_score days w)) = sync_lock w
  /\ nvd (snd (fetch_filtered_cve_data cve_id base_score days w)) = nvd w
  /\ sent (snd (fetch_filtered_cve_data cve_id base_score days w)) = sent w.
Proof.
  repeat split; apply keeps_fetch_filtered_cve_data; intros l msg w0; reflexivity.
Qed.

End Found.

(** ** [is_valid_cve], and what gets stored *)

Lemma count_positive {A} (p : A -> bool) (l : list A) :
  (Z.min 1 (Z.of_nat (List.length (filter p l))) >? 0) = existsb p l.
Proof.
  induction l as [ | x l IH ]; [ reflexivity | ]. simpl.
  destruct (p x); simpl; [ | exact IH ].
  apply Z.gtb_lt. lia.
Qed.

Section Valid.

Context {RT : PyRuntime}.

(** [is_valid_cve] admits exactly the records with a usable id that the
    store does not hold.  A record whose id is missing, [None] or empty is
    turned down without a query, whether the store answers or not; with a
    usable id the answer is that of the store, and a store that cannot be
    reached makes the call raise; a record that is not a dict raises
    [AttributeError]. *)
Theorem is_valid_cve_admits (cve_data : dict) (w : world) :
  (truthy (index_key cve_data) = false -> is_valid_cve (VDict cve_data) w = (Ok false, w))
  /\ (truthy (index_key cve_data) = true -> reachable (cve_collection w) = true ->
      is_valid_cve (VDict cve_data) w
      = (Ok (negb (id_stored (index_key cve_data) (cve_collection w))), w))
  /\ (truthy (index_key cve_data) = true -> reachable (cve_collection w) = false ->
      is_valid_cve (VDict cve_data) w = (Raise ConnectionFailure, w))
  /\ (forall v, (forall d, v <> VDict d) -> is_valid_cve v w = (Raise AttributeError, w)).
Proof.
  split; [ | split; [ | split ] ].
  - intros Ht. unfold is_valid_cve, bind. simpl. fold (index_key cve_data).
    now rewrite Ht.
  - intros Ht Hr. unfold is_valid_cve, bind. simpl. fold (index_key cve_data).
    rewrite Ht. simpl. unfold count_documents. rewrite Hr.
    rewrite count_positive. unfold id_stored.
    assert (E : existsb (matches [FieldEq ["id"] (index_key cve_data)])
                        (docs (cve_collection w))
                = existsb (field_eq ["id"] (index_key cve_data)) (docs (cve_collection w))).
    { induction (docs (cve_collection w)) as [ | s l IH ]; [ reflexivity | ].
      simpl. rewrite IH. unfold matches. simpl. now rewrite andb_true_r. }
    rewrite E.
    now destruct (existsb (field_eq ["id"] (index_key cve_data)) (docs (cve_collection w))).
  - intros Ht Hr. unfold is_valid_cve, bind. simpl. fold (index_key cve_data).
    rewrite Ht. simpl. unfold count_documents. now rewrite Hr.
  - intros v Hv. destruct v; try reflexivity. now elim (Hv kv).
Qed.

End Valid.

Lemma before_T_idempotent (s : string) : before_T (before_T s) = before_T s.
Proof.
  induction s as [ | c s IH ]; simpl; [ reflexivity | ].
  destruct (Ascii.eqb c "T"%char) eqn:E; simpl; [ reflexivity | ].
  now rewrite E, IH.
Qed.

Lemma cleaned_date_idempotent (v : value) : cleaned_date (cleaned_date v) = cleaned_date v.
Proof. destruct v; simpl; try reflexivity. now rewrite before_T_idempotent. Qed.

Lemma clean_date_value_cleaned (o : option value) :
  clean_date_value (option_map cleaned_date o) = true.
Proof.
  destruct o as [ [ | | | s | | ] | ]; simpl; try reflexivity.
  rewrite before_T_idempotent. apply String.eqb_refl.
Qed.

Lemma adds_well_stored_refl (c : collection) : adds_well_stored c c.
Proof. exists []. now rewrite app_nil_r. Qed.

Lemma adds_well_stored_trans (a b c : collection) :
  adds_well_stored a b -> adds_well_stored b c -> adds_well_stored a c.
Proof.
  intros [m1 [D1 W1]] [m2 [D2 W2]]. exists (m1 ++ m2)%list.
  rewrite D2, D1, app_assoc, forallb_app, W1, W2. auto.
Qed.

Section Proceeds.

Variable R : collection -> collection -> Prop.
Hypothesis R_refl : forall c, R c c.
Hypothesis R_trans : forall a b c, R a b -> R b c -> R a c.

Lemma proceeds_keeps {A} (m : M A) : keeps cve_collection m -> proceeds R m.
Proof. intros K w. rewrite K. apply R_refl. Qed.

Lemma proceeds_bind {A B} (m : M A) (k : A -> M B) :
  proceeds R m -> (forall x, proceeds R (k x)) -> proceeds R (bind m k).
Proof.
  intros Hm Hk w. unfold bind. specialize (Hm w).
  destruct (m w) as [[x | e | ] w1]; simpl in *; try exact Hm.
  eapply R_trans; [ exact Hm | apply Hk ].
Qed.

(** The continuation may rely on what the first step returns. *)
Lemma proceeds_bind_yield {A B} (Q : A -> Prop) (m : M A) (k : A -> M B) :
  keeps cve_collection m -> yields Q m -> (forall x, Q x -> proceeds R (k x)) ->
  proceeds R (bind m k).
Proof.
  intros Km Ym Hk w. unfold bind. specialize (Km w). specialize (Ym w).
  destruct (m w) as [[x | e | ] w1]; simpl in *; try (rewrite Km; apply R_refl).
  rewrite <- Km. apply Hk. eapply Ym. reflexivity.
Qed.

Lemma proceeds_try {A} (body : M A) (caught : exn -> bool) (handler : exn -> M A) :
  proceeds R body -> (forall e, keeps cve_collection (handler e)) ->
  proceeds R (try_except body caught handler).
Proof.
  intros Hb Kh w. unfold try_except. specialize (Hb w).
  destruct (body w) as [[x | e | ] w1]; simpl in *; try exact Hb.
  destruct (caught e); simpl; [ now rewrite Kh | exact Hb ].
Qed.

End Proceeds.

Section WellStored.

Context {RT : PyRuntime}.

(** Whatever [prepare_each] adds to the batch has a usable id and clean
    dates. *)
Lemma prepare_each_well_stored (vs : list value) (acc : list dict) :
  forallb well_stored acc = true ->
  yields (fun ops => forallb well_stored ops = true) (prepare_each vs acc).
Proof.
  revert acc. induction vs as [ | v vs IH ]; intros acc Hacc w ops w' H; simpl in H.
  - now inversion H; subst.
  - destruct v as [ | | | | | d ]; try discriminate.
    unfold bind at 1 in H. simpl in H.
    set (cve := match dict_get "cve" d with Some x => x | None => VDict [] end) in *.
    unfold bind at 1 in H.
    destruct (is_valid_cve cve w) as [[[ | ] | e | ] w1] eqn:Ev; try discriminate.
    + destruct (is_valid_cve_true _ _ _ Ev) as [c [Ec [-> [Ht _]]]].
      rewrite Ec in H. simpl in H. unfold bind at 1 in H. simpl in H.
      unfold bind at 1 in H.
      destruct (clean_cve_data_run c w) as [cleaned [w2 [Ecl [Hget _]]]].
      rewrite Ecl in H. refine (IH _ _ _ _ _ H).
      rewrite forallb_app, Hacc. simpl. rewrite andb_true_r.
      unfold well_stored, index_key.
      rewrite (Hget "id"), (Hget "published"), (Hget "lastModified"). simpl.
      fold (index_key c). rewrite Ht, !clean_date_value_cleaned. reflexivity.
    + apply (IH _ Hacc _ _ _ H).
Qed.

Lemma prepare_bulk_operations_well_stored (v : value) :
  yields (fun ops => forallb well_stored ops = true) (prepare_bulk_operations v).
Proof.
  intros w ops w' H. unfold prepare_bulk_operations, bind in H.
  destruct v; try discriminate; simpl in H;
    now apply (prepare_each_well_stored _ [] eq_refl _ _ _ H).
Qed.

Lemma proceeds_execute_bulk_operations (ops : list dict) :
  forallb well_stored ops = true ->
  proceeds adds_well_stored (execute_bulk_operations ops).
Proof.
  intros Hops w. destruct (execute_bulk_operations_store ops w) as [E | E]; rewrite E.
  - apply adds_well_stored_refl.
  - destruct (bulk_insert_prefix ops (cve_collection w)) as [pre [post [-> ->]]].
    exists pre. split; [ reflexivity | ].
    rewrite forallb_app in Hops. now apply andb_true_iff in Hops.
Qed.

Lemma proceeds_process_page (r : option reply) (i rpp : Z) (a b : value) :
  proceeds adds_well_stored (process_page r i rpp a b).
Proof.
  pose proof adds_well_stored_refl as Rr. pose proof adds_well_stored_trans as Rt.
  unfold process_page.
  apply proceeds_bind; auto;
    [ apply proceeds_keeps; auto; apply keeps_fetch_data; auto with frame | intros data ].
  destruct (negb (truthy data)); [ apply proceeds_keeps; auto with frame | ].
  apply proceeds_bind; auto; [ apply proceeds_keeps; auto with frame | intros total ].
  apply proceeds_bind; auto; [ apply proceeds_keeps; auto with frame | intros vs ].
  destruct (negb (truthy vs)); [ apply proceeds_keeps; auto; frame | ].
  apply (proceeds_bind_yield _ Rr (fun ops => forallb well_stored ops = true));
    [ apply keeps_prepare_bulk_operations; auto with frame
    | apply prepare_bulk_operations_well_stored | intros ops Hops ].
  apply proceeds_bind; auto; [ | intros _; apply proceeds_keeps; auto; frame ].
  destruct ops; [ apply proceeds_keeps; auto with frame | ].
  now apply proceeds_execute_bulk_operations.
Qed.

Lemma proceeds_fetch_pages (script : list reply) (i rpp : Z) (t : bound) (a b : value) :
  proceeds adds_well_stored (fetch_pages script i rpp t a b).
Proof.
  pose proof adds_well_stored_refl as Rr. pose proof adds_well_stored_trans as Rt.
  revert i t. induction script as [ | r script IH ]; intros i t; simpl.
  - apply proceeds_bind; auto; [ apply proceeds_keeps; auto with frame | intros go ].
    destruct go; [ | apply proceeds_keeps; auto with frame ].
    apply proceeds_bind; auto; [ apply proceeds_process_page | intros x ].
    apply proceeds_keeps; auto with frame.
  - apply proceeds_bind; auto; [ apply proceeds_keeps; auto with frame | intros go ].
    destruct go; [ | apply proceeds_keeps; auto with frame ].
    apply proceeds_bind; auto;
      [ apply proceeds_keeps; auto; apply keeps_modify; reflexivity | intros _ ].
    apply proceeds_bind; auto; [ apply proceeds_process_page | intros x ].
    destruct x as [ [j t'] | ]; [ apply IH | apply proceeds_keeps; auto with frame ].
Qed.

Lemma proceeds_fetch_and_store_cve_data (i rpp : Z) (a b : value) :
  proceeds adds_well_stored (fetch_and_store_cve_data i rpp a b).
Proof. intros w. unfold fetch_and_store_cve_data. apply proceeds_fetch_pages. Qed.

Lemma proceeds_synchronize_cve_data (a b : value) :
  proceeds adds_well_stored (synchronize_cve_data a b).
Proof.
  pose proof adds_well_stored_refl as Rr. pose proof adds_well_stored_trans as Rt.
  assert (B : proceeds adds_well_stored (synchronize_body a b)).
  { unfold synchronize_body.
    apply proceeds_bind; auto; [ apply proceeds_keeps; auto with frame | intros _ ].
    apply proceeds_bind; auto;
      [ apply proceeds_keeps; auto; apply keeps_window_ok; auto with frame | intros ok ].
    destruct (negb ok); [ apply proceeds_keeps; auto with frame | ].
    apply proceeds_bind; auto;
      [ apply proceeds_keeps; auto; apply keeps_effective_window | intros win ].
    apply proceeds_bind; auto; [ apply proceeds_fetch_and_store_cve_data | intros _ ].
    apply proceeds_keeps; auto. apply keeps_update_last_sync_timestamp. }
  intros w. unfold synchronize_cve_data, with_sync_lock.
  destruct (sync_lock w); [ apply Rr | ].
  specialize (B (set_sync_lock true w)).
  now destruct (synchronize_body a b (set_sync_lock true w)).
Qed.

Lemma proceeds_UpdateCveDataView_get : proceeds adds_well_stored UpdateCveDataView_get.
Proof.
  pose proof adds_well_stored_refl as Rr. pose proof adds_well_stored_trans as Rt.
  unfold UpdateCveDataView_get. apply proceeds_try; auto; [ | intros e; frame ].
  apply proceeds_bind; auto; [ apply proceeds_fetch_and_store_cve_data | intros _ ].
  apply proceeds_keeps; auto with frame.
Qed.

Lemma exec_all_well_stored (rs : list run) (w : world) :
  adds_well_stored (cve_collection w) (cve_collection (exec_all rs w)).
Proof.
  revert w. induction rs as [ | r rs IH ]; intros w; simpl.
  - apply adds_well_stored_refl.
  - eapply adds_well_stored_trans; [ | apply IH ].
    assert (S0 : adds_well_stored (cve_collection w) (cve_collection (stage_run r w)))
      by (exists []; simpl; now rewrite app_nil_r).
    eapply adds_well_stored_trans; [ exact S0 | ].
    unfold exec. destruct (op r) as [ a b | i n a b | ].
    + apply proceeds_synchronize_cve_data.
    + apply proceeds_fetch_and_store_cve_data.
    + apply proceeds_UpdateCveDataView_get.
Qed.

(** Over any sequence of runs, with any answers of the feed, every document
    the program adds to the store has a usable id (a record whose id is
    missing, [None] or empty is never stored) and has its [published] and
    [lastModified] fields cleaned: absent, [None], or a string without a
    time part. *)
Theorem stored_documents_are_admitted_and_cleaned (rs : list run) (w : world) :
  exists more,
    docs (cve_collection (exec_all rs w)) = (docs (cve_collection w) ++ more)%list
    /\ forallb well_stored more = true.
Proof. apply exec_all_well_stored. Qed.

End WellStored.

(* ===================================================================== *)
(** ** The page loop of [fetch_and_store_cve_data] *)
(* ===================================================================== *)

Lemma yields_ret {A} (Q : A -> Prop) (a : A) : Q a -> yields Q (ret a).
Proof. intros H w x w' E. now inversion E; subst. Qed.

Lemma yields_bind {A B} (Q : B -> Prop) (m : M A) (k : A -> M B) :
  (forall x, yields Q (k x)) -> yields Q (bind m k).
Proof.
  intros H w x w' E. unfold bind in E.
  destruct (m w) as [[y | e | ] w1]; try discriminate. eapply H; eauto.
Qed.

Lemma cursor_requests_S (i rpp : Z) (a b : value) (n : nat) :
  cursor_requests i rpp a b (S n)
  = page_params i rpp a b :: cursor_requests (i + rpp) rpp a b n.
Proof.
  unfold cursor_requests. rewrite <- cons_seq, <- seq_shift. cbn [map]. rewrite map_map.
  f_equal.
  - f_equal. lia.
  - apply map_ext. intros j. f_equal. lia.
Qed.

Lemma index_below_world (i : Z) (t : bound) (w : world) : snd (index_below i t w) = w.
Proof. destruct t as [ | [ | | | | | ] ]; reflexivity. Qed.

Section Loop.

Context {RT : PyRuntime}.

(** A turn of the loop that goes on has read a 200 answer holding a dict;
    the cursor moves by the page size and the bound becomes what the answer
    carries under [totalResults] (0 when it carries none). *)
Lemma process_page_next (r : option reply) (i rpp : Z) (a b : value) :
  yields (fun x => forall j t, x = Some (j, t) ->
            j = i + rpp
            /\ exists d, r = Some (Http 200 (Some (VDict d)))
                 /\ t = Reported (match dict_get "totalResults" d with
                                  | Some v => v | None => VNum 0 end))
         (process_page r i rpp a b).
Proof.
  set (Q := fun x : option (Z * bound) =>
              forall j t, x = Some (j, t) ->
                j = i + rpp
                /\ exists d, r = Some (Http 200 (Some (VDict d)))
                     /\ t = Reported (match dict_get "totalResults" d with
                                      | Some v => v | None => VNum 0 end)).
  intros w x w' E. unfold process_page in E. unfold bind at 1 in E.
  destruct (fetch_data r (page_params i rpp a b) w) as [[data | e | ] w1] eqn:Ef;
    try discriminate.
  destruct (negb (truthy data)) eqn:Et;
    [ inversion E; subst; intros j t; discriminate | ].
  destruct data as [ | | | | | d ]; try discriminate.
  assert (Hr : r = Some (Http 200 (Some (VDict d)))).
  { unfold fetch_data, bind, modify in Ef. simpl in Ef.
    destruct r as [ [ status body | ] | ]; try (now inversion Ef).
    destruct (status =? 200) eqn:Es; [ | now inversion Ef ].
    apply Z.eqb_eq in Es. subst status.
    destruct body; inversion Ef; now subst. }
  revert E. simpl py_get. unfold bind at 1. simpl. unfold bind at 1. simpl.
  match goal with
  | |- ?m w1 = _ -> _ => cut (yields Q m); [ intros Y; exact (Y w1 x w') | ]
  end.
  clear Et. destruct (negb (truthy _)).
  - apply yields_bind. intros _. apply yields_ret. intros j t. discriminate.
  - apply yields_bind. intros ops. apply yields_bind. intros _.
    apply yields_bind. intros _. apply yields_ret.
    intros j t [= <- <-]. split; [ reflexivity | ]. now exists d.
Qed.

(** The requests of the loop are those of a cursor that moves by the page
    size, one for each answer taken from the feed. *)
Lemma fetch_pages_cursor (rpp : Z) (a b : value) (script : list reply) :
  forall (i : Z) (t : bound) (w : world) (res : outcome unit * world),
    nvd w = script ->
    fetch_pages script i rpp t a b w = res ->
    exists n,
      (n <= List.length script + 1)%nat
      /\ (t = Infinity -> (1 <= n)%nat)
      /\ sent (snd res) = (sent w ++ cursor_requests i rpp a b n)%list
      /\ nvd (snd res) = skipn n script.
Proof.
  assert (Kn : forall r i w, nvd (snd (process_page r i rpp a b w)) = nvd w).
  { intros r i w. apply keeps_process_page; repeat intro; reflexivity. }
  assert (Stop : forall script i t (w : world), nvd w = script ->
            index_below i t w <> (Ok true, w) ->
            exists n,
              (n <= List.length script + 1)%nat
              /\ (t = Infinity -> (1 <= n)%nat)
              /\ sent w = (sent w ++ cursor_requests i rpp a b n)%list
              /\ nvd w = skipn n script).
  { intros s i t w E Hi. exists 0%nat. simpl. rewrite app_nil_r.
    repeat split; [ lia | | exact E ]. intros ->. elim Hi. reflexivity. }
  assert (One : forall script i t (w w1 : world),
            sent w1 = (sent w ++ [page_params i rpp a b])%list ->
            nvd w1 = skipn 1 script ->
            exists n,
              (n <= List.length script + 1)%nat
              /\ (t = Infinity -> (1 <= n)%nat)
              /\ sent w1 = (sent w ++ cursor_requests i rpp a b n)%list
              /\ nvd w1 = skipn n script).
  { intros s i t w w1 Es Ek. exists 1%nat. rewrite cursor_requests_S.
    repeat split; auto; lia. }
  induction script as [ | r script IH ]; intros i t w res Hn E.
  - simpl in E. unfold bind at 1 in E. pose proof (index_below_world i t w) as Ew.
    destruct (index_below i t w) as [[[ | ] | e | ] w0] eqn:Ei; simpl in Ew; subst w0;
      try (subst res; simpl snd; apply (Stop [] i t w Hn); rewrite Ei; discriminate).
    unfold bind at 1 in E.
    pose proof (process_page_sent None i rpp a b w) as Es.
    pose proof (Kn None i w) as Ek. rewrite Hn in Ek.
    destruct (process_page None i rpp a b w) as [[x | e | ] w1]; subst res;
      simpl in *; exact (One [] i t w w1 Es Ek).
  - simpl in E. unfold bind at 1 in E. pose proof (index_below_world i t w) as Ew.
    destruct (index_below i t w) as [[[ | ] | e | ] w0] eqn:Ei; simpl in Ew; subst w0;
      try (subst res; simpl snd; apply (Stop (r :: script) i t w Hn); rewrite Ei;
           discriminate).
    unfold bind at 1 in E. simpl in E. unfold bind at 1 in E.
    pose proof (process_page_sent (Some r) i rpp a b (set_nvd script w)) as Es.
    pose proof (Kn (Some r) i (set_nvd script w)) as Ek.
    pose proof (process_page_next (Some r) i rpp a b (set_nvd script w)) as Ey.
    destruct (process_page (Some r) i rpp a b (set_nvd script w)) as [[x | e | ] w1];
      simpl in Es, Ek; try (subst res; simpl snd; exact (One (r :: script) i t w w1 Es Ek)).
    destruct x as [ [j t'] | ]; [ | subst res; simpl snd; exact (One (r :: script) i t w w1 Es Ek) ].
    destruct (Ey _ _ eq_refl j t' eq_refl) as [-> _].
    destruct (IH (i + rpp) t' w1 res Ek E) as [n [Hle [_ [Hs Hk]]]].
    exists (S n). rewrite Hs, Hk, Es, cursor_requests_S, <- app_assoc. simpl.
    repeat split; auto; lia.
Qed.

(** A call of [fetch_and_store_cve_data] sends the requests of one cursor:
    the k-th request asks for the page at [start_index + k * results_per_page],
    whatever number of records the pages before it held; there is at least
    one request, each request takes the next answer of the feed, and the
    call stops at the latest one request after the feed has fallen silent. *)
Theorem fetch_and_store_cve_data_cursor (i rpp : Z) (a b : value) (w : world) :
  exists n,
    (1 <= n <= List.length (nvd w) + 1)%nat
    /\ sent (snd (fetch_and_store_cve_data i rpp a b w))
       = (sent w ++ cursor_requests i rpp a b n)%list
    /\ nvd (snd (fetch_and_store_cve_data i rpp a b w)) = skipn n (nvd w).
Proof.
  unfold fetch_and_store_cve_data.
  destruct (fetch_pages_cursor rpp a b (nvd w) i Infinity w _ eq_refl eq_refl)
    as [n [H1 [H2 [H3 H4]]]].
  exists n. repeat split; auto.
Qed.

(** What a call makes of a first answer that carries no page. *)
Lemma fetch_and_store_cve_data_no_page (i rpp : Z) (a b : value) (w : world) :
  no_page (hd_error (nvd w)) = true ->
  exists msg,
    fetch_and_store_cve_data i rpp a b w
    = (Ok tt, add_logged ERROR msg (add_sent (page_params i rpp a b) (set_nvd (tl (nvd w)) w))).
Proof.
  intros H. unfold fetch_and_store_cve_data.
  destruct (nvd w) as [ | r rest ] eqn:En; simpl in *.
  - exists "Request error: {e}". unfold bind, process_page, fetch_data, bind, modify, logger,
      modify, ret. simpl. do 2 f_equal. destruct w; simpl in *; now subst.
  - destruct r as [ status body | ]; simpl in H.
    + exists "Error fetching data: HTTP {response.status}".
      unfold bind, process_page, fetch_data, bind, modify, logger, modify, ret. simpl.
      apply negb_true_iff in H. rewrite H. reflexivity.
    + exists "Request error: {e}". reflexivity.
Qed.

(** When the first answer of the feed carries no page (the feed is silent,
    the request fails, or the status is not 200), the call does not raise:
    it returns normally after that one request, with one error in the log,
    nothing stored and the watermark as it was. *)
Theorem fetch_and_store_cve_data_feed_failure (i rpp : Z) (a b : value) (w : world) :
  no_page (hd_error (nvd w)) = true ->
  fst (fetch_and_store_cve_data i rpp a b w) = Ok tt
  /\ sent (snd (fetch_and_store_cve_data i rpp a b w))
     = (sent w ++ [page_params i rpp a b])%list
  /\ cve_collection (snd (fetch_and_store_cve_data i rpp a b w)) = cve_collection w
  /\ last_sync_timestamp (snd (fetch_and_store_cve_data i rpp a b w)) = last_sync_timestamp w
  /\ exists msg,
       logged (snd (fetch_and_store_cve_data i rpp a b w)) = (logged w ++ [(ERROR, msg)])%list.
Proof.
  intros H. destruct (fetch_and_store_cve_data_no_page i rpp a b w H) as [msg ->].
  simpl. repeat split; eauto.
Qed.

(** Once a page reports a total that the next start index reaches, the loop
    asks for nothing more: that page's request is the last of the call and
    the rest of the feed is left untouched, whatever the page holds. *)
Theorem fetch_and_store_cve_data_last_page
        (i rpp : Z) (a b : value) (d : dict) (q : Q) (rest : list reply) (w : world) :
  nvd w = Http 200 (Some (VDict d)) :: rest ->
  match dict_get "totalResults" d with Some v => v | None => VNum 0 end = VNum q ->
  Qle_bool q (inject_Z (i + rpp)) = true ->
  sent (snd (fetch_and_store_cve_data i rpp a b w))
  = (sent w ++ [page_params i rpp a b])%list
  /\ nvd (snd (fetch_and_store_cve_data i rpp a b w)) = rest.
Proof.
  intros Hn Ht Hq. unfold fetch_and_store_cve_data. rewrite Hn.
  set (r := Http 200 (Some (VDict d))).
  remember (fetch_pages (r :: rest) i rpp Infinity a b w) as res eqn:E.
  simpl in E. unfold bind at 1 in E. simpl in E. unfold bind at 1 in E. simpl in E.
  unfold bind at 1 in E.
  pose proof (process_page_sent (Some r) i rpp a b (set_nvd rest w)) as Es.
  assert (Ek : nvd (snd (process_page (Some r) i rpp a b (set_nvd rest w))) = rest)
    by (rewrite keeps_process_page; [ reflexivity | repeat intro; reflexivity .. ]).
  pose proof (process_page_next (Some r) i rpp a b (set_nvd rest w)) as Ey.
  destruct (process_page (Some r) i rpp a b (set_nvd rest w)) as [[x | e | ] w1];
    simpl in Es, Ek; try (subst res; now split).
  destruct x as [ [j t'] | ]; [ | subst res; now split ].
  destruct (Ey _ _ eq_refl j t' eq_refl) as [-> [d' [[= <-] ->]]].
  rewrite Ht in E.
  assert (E' : fetch_pages rest (i + rpp) rpp (Reported (VNum q)) a b w1 = (Ok tt, w1)).
  { destruct rest; simpl; unfold bind, ret; simpl; now rewrite Hq. }
  rewrite E' in E. subst res. now split.
Qed.

(** The update view answers 200 "success" when the feed gave no page at
    all: nothing was stored and the only trace is one error in the log.  It
    answers 500, with [str(e)] of the exception [e] as the message, exactly
    when the fetch raised [e]; what the fetch had written and logged before
    it raised stays (one more error is logged). *)
Theorem UpdateCveDataView_get_answers (w : world) :
  (no_page (hd_error (nvd w)) = true ->
   fst (UpdateCveDataView_get w)
   = Ok (mkJsonResponse 200 [("status", Words "success");
                             ("message", Words "CVE data updated successfully.")])
   /\ cve_collection (snd (UpdateCveDataView_get w)) = cve_collection w)
  /\ (forall e, fst (fetch_and_store_cve_data 0 2000 VNone VNone w) = Raise e ->
      UpdateCveDataView_get w
      = (Ok (mkJsonResponse 500 [("status", Words "error"); ("message", StrOf e)]),
         add_logged ERROR "Error updating CVE data: {e}"
                    (snd (fetch_and_store_cve_data 0 2000 VNone VNone w))))
  /\ (forall resp, fst (UpdateCveDataView_get w) = Ok resp ->
      status_code resp = 500 ->
      exists e, fst (fetch_and_store_cve_data 0 2000 VNone VNone w) = Raise e).
Proof.
  split; [ | split ].
  - intros H. destruct (fetch_and_store_cve_data_no_page 0 2000 VNone VNone w H) as [msg E].
    unfold UpdateCveDataView_get, try_except, bind. rewrite E. simpl. auto.
  - intros e E. unfold UpdateCveDataView_get, try_except, bind.
    destruct (fetch_and_store_cve_data 0 2000 VNone VNone w) as [[u | e' | ] w1];
      simpl in E; try discriminate.
    now inversion E; subst.
  - intros resp E Hc. unfold UpdateCveDataView_get, try_except, bind in E.
    pose proof (runs_fetch_and_store_cve_data 0 2000 VNone VNone w) as Hr.
    destruct (fetch_and_store_cve_data 0 2000 VNone VNone w) as [[u | e' | ] w1];
      simpl in *.
    + inversion E; subst. discriminate.
    + eauto.
    + now elim Hr.
Qed.

End Loop.

(* ===================================================================== *)
(** ** [synchronize_cve_data]: errors and the watermark *)
(* ===================================================================== *)

Lemma bind_Ok {A B} (m : M A) (k : A -> M B) (w w1 : world) (x : A) :
  m w = (Ok x, w1) -> bind m k w = k x w1.
Proof. intros E. unfold bind. now rewrite E. Qed.

Lemma bind_Raise {A B} (m : M A) (k : A -> M B) (w w1 : world) (e : exn) :
  m w = (Raise e, w1) -> bind m k w = (Raise e, w1).
Proof. intros E. unfold bind. now rewrite E. Qed.

Lemma unlock_after_lock (w : world) :
  sync_lock w = false -> set_sync_lock false (set_sync_lock true w) = w.
Proof. intros H. destruct w; simpl in *; now subst. Qed.

Lemma unlock_logged (l : level) (msg : string) (w : world) :
  set_sync_lock false (add_logged l msg w) = add_logged l msg (set_sync_lock false w).
Proof. reflexivity. Qed.

Section SyncErrors.

Context {RT : PyRuntime}.

Lemma effective_window_run (a b : value) (w : world) :
  exists win, effective_window a b w = (Ok win, w).
Proof.
  unfold effective_window, bind, gets, ret. simpl.
  destruct (truthy (last_sync_timestamp w) && negb (truthy a && truthy b)); eauto.
Qed.

(** What the validation answers when one of the two dates does not parse. *)
Lemma window_ok_unparsed (s e : string) (w : world) :
  s <> EmptyString -> e <> EmptyString ->
  fromisoformat (replace_Z s) = None
  \/ (fromisoformat (replace_Z s) <> None /\ fromisoformat (replace_Z e) = None) ->
  window_ok (VStr s) (VStr e) w = (Ok false, add_logged ERROR "Invalid date format: %s" w).
Proof.
  intros Hs He H. unfold window_ok.
  rewrite (truthy_VStr s Hs), (truthy_VStr e He). simpl.
  unfold try_except, bind, py_replace_Z, ret.
  destruct H as [Ps | [Ps Pe]].
  - now rewrite Ps.
  - destruct (fromisoformat (replace_Z s)) as [ds | ]; [ | contradiction ]. simpl.
    now rewrite Pe.
Qed.

(** A window of two non-empty strings of which one is not an ISO date ends
    the run before any request: the error is logged and the call returns
    normally, the world differing from the one before by two log lines
    only. *)
Theorem synchronize_invalid_date_format (s e : string) (w : world) :
  sync_lock w = false ->
  s <> EmptyString -> e <> EmptyString ->
  fromisoformat (replace_Z s) = None \/ fromisoformat (replace_Z e) = None ->
  synchronize_cve_data (VStr s) (VStr e) w
  = (Ok tt,
     add_logged ERROR "Invalid date format: %s"
       (add_logged INFO "Starting CVE data synchronization." w)).
Proof.
  intros Hl Hs He H. unfold synchronize_cve_data, with_sync_lock. rewrite Hl.
  unfold synchronize_body. erewrite bind_Ok by reflexivity.
  erewrite bind_Ok.
  2:{ apply window_ok_unparsed; auto.
      destruct (fromisoformat (replace_Z s)); [ right | left; reflexivity ].
      split; [ discriminate | ]. destruct H as [H | H]; [ discriminate | exact H ]. }
  cbn [negb]. unfold ret. rewrite !unlock_logged, unlock_after_lock by exact Hl.
  reflexivity.
Qed.

(** The validation catches [ValueError] only.  Two dates that both parse,
    one with an offset and one without, cannot be subtracted: the
    [TypeError] leaves the call; so does the [AttributeError] of a date that
    counts as true and is not a string.  In both cases nothing is requested
    or stored and the lock is free again. *)
Theorem synchronize_raises_past_the_validation (w : world) :
  sync_lock w = false ->
  (forall s e ds de,
     s <> EmptyString -> e <> EmptyString ->
     fromisoformat (replace_Z s) = Some ds ->
     fromisoformat (replace_Z e) = Some de ->
     aware de <> aware ds ->
     synchronize_cve_data (VStr s) (VStr e) w
     = (Raise TypeError, add_logged INFO "Starting CVE data synchronization." w))
  /\ (forall a b,
        truthy a = true -> truthy b = true ->
        (forall s, a <> VStr s) ->
        synchronize_cve_data a b w
        = (Raise AttributeError, add_logged INFO "Starting CVE data synchronization." w)).
Proof.
  intros Hl. split.
  - intros s e ds de Hs He Ps Pe Ha.
    unfold synchronize_cve_data, with_sync_lock. rewrite Hl.
    unfold synchronize_body. erewrite bind_Ok by reflexivity.
    erewrite bind_Raise.
    2:{ unfold window_ok. rewrite (truthy_VStr s Hs), (truthy_VStr e He). simpl.
        unfold try_except, bind, py_replace_Z, ret. rewrite Ps, Pe. simpl.
        unfold datetime_sub.
        replace (Bool.eqb (aware de) (aware ds)) with false; [ reflexivity | ].
        symmetry. apply Bool.eqb_false_iff. exact Ha. }
    rewrite unlock_logged, unlock_after_lock by exact Hl. reflexivity.
  - intros a b Ta Tb Hns.
    unfold synchronize_cve_data, with_sync_lock. rewrite Hl.
    unfold synchronize_body. erewrite bind_Ok by reflexivity.
    erewrite bind_Raise.
    2:{ unfold window_ok. rewrite Ta, Tb. simpl.
        unfold try_except, bind. 
        destruct a as [ | | | s | | ]; try reflexivity. now elim (Hns s). }
    rewrite unlock_logged, unlock_after_lock by exact Hl. reflexivity.
Qed.

(** The watermark moves only when the metadata call has answered. *)
Lemma update_last_sync_timestamp_stamp (w : world) (res : outcome unit * world) :
  update_last_sync_timestamp w = res ->
  last_sync_timestamp (snd res) = last_sync_timestamp w \/ fst res = Ok tt.
Proof.
  intros E. unfold update_last_sync_timestamp in E. unfold bind at 1 in E.
  assert (N : last_sync_timestamp (snd (next_reply w)) = last_sync_timestamp w)
    by (apply keeps_next_reply; repeat intro; reflexivity).
  destruct (next_reply w) as [[r | e | ] w1]; simpl in N; try (subst res; auto; fail).
  unfold bind at 1 in E.
  assert (F : last_sync_timestamp (snd (fetch_data r (VDict []) w1)) = last_sync_timestamp w1)
    by (apply keeps_fetch_data; repeat intro; reflexivity).
  destruct (fetch_data r (VDict []) w1) as [[data | e | ] w2]; simpl in F;
    try (subst res; left; simpl; congruence).
  destruct (truthy data); [ | subst res; left; simpl; congruence ].
  destruct data; subst res; try (left; simpl; congruence). right. reflexivity.
Qed.

Lemma synchronize_body_stamp (a b : value) (w : world) (res : outcome unit * world) :
  synchronize_body a b w = res ->
  last_sync_timestamp (snd res) = last_sync_timestamp w \/ fst res = Ok tt.
Proof.
  intros E. unfold synchronize_body in E. erewrite bind_Ok in E by reflexivity.
  set (w0 := add_logged INFO "Starting CVE data synchronization." w) in *.
  change (last_sync_timestamp w) with (last_sync_timestamp w0).
  unfold bind at 1 in E.
  assert (K1 : last_sync_timestamp (snd (window_ok a b w0)) = last_sync_timestamp w0)
    by (apply keeps_window_ok; repeat intro; reflexivity).
  destruct (window_ok a b w0) as [[ok | e | ] w1]; simpl in K1; try (subst res; auto; fail).
  destruct (negb ok); [ subst res; right; reflexivity | ].
  destruct (effective_window_run a b w1) as [win Ew]. erewrite bind_Ok in E by exact Ew.
  unfold bind at 1 in E.
  assert (K2 : last_sync_timestamp
                 (snd (fetch_and_store_cve_data 0 2000 (fst win) (snd win) w1))
               = last_sync_timestamp w1)
    by (apply keeps_fetch_and_store_cve_data; repeat intro; reflexivity).
  destruct (fetch_and_store_cve_data 0 2000 (fst win) (snd win) w1) as [[u | e | ] w2];
    simpl in K2; try (subst res; left; simpl; congruence).
  destruct (update_last_sync_timestamp_stamp w2 res E) as [H | H];
    [ left | right; exact H ].
  rewrite H, K2, K1. reflexivity.
Qed.

(** The watermark changes only in a run that completes: a call that raises,
    or that finds the lock taken, leaves it as it was. *)
Theorem synchronize_watermark_moves_only_on_return (a b : value) (w : world) :
  fst (synchronize_cve_data a b w) <> Ok tt ->
  last_sync_timestamp (snd (synchronize_cve_data a b w)) = last_sync_timestamp w.
Proof.
  unfold synchronize_cve_data, with_sync_lock. intros H.
  destruct (sync_lock w); [ reflexivity | ].
  destruct (synchronize_body_stamp a b (set_sync_lock true w) _ eq_refl) as [E | E];
    destruct (synchronize_body a b (set_sync_lock true w)) as [o w1]; simpl in *.
  - exact E.
  - contradiction.
Qed.

(** A run without a window whose page request fails while the metadata call
    that follows is answered returns normally, stores nothing, and still
    moves the watermark to the [timestamp] of that answer ([None] when the
    answer has none): the next run asks only for what changed after it. *)
Theorem synchronize_moves_watermark_without_data
        (a b : value) (r1 : reply) (d : dict) (rest : list reply) (w : world) :
  sync_lock w = false ->
  truthy a && truthy b = false ->
  nvd w = r1 :: Http 200 (Some (VDict d)) :: rest ->
  no_page (Some r1) = true ->
  d <> [] ->
  fst (synchronize_cve_data a b w) = Ok tt
  /\ cve_collection (snd (synchronize_cve_data a b w)) = cve_collection w
  /\ last_sync_timestamp (snd (synchronize_cve_data a b w))
     = match dict_get "timestamp" d with Some v => v | None => VNone end
  /\ nvd (snd (synchronize_cve_data a b w)) = rest.
Proof.
  intros Hl Hw Hn Hp Hd.
  assert (E : exists w',
             synchronize_body a b (set_sync_lock true w) = (Ok tt, w')
             /\ cve_collection w' = cve_collection w
             /\ last_sync_timestamp w'
                = match dict_get "timestamp" d with Some v => v | None => VNone end
             /\ nvd w' = rest).
  { unfold synchronize_body. erewrite bind_Ok by reflexivity.
    erewrite bind_Ok by (unfold window_ok; rewrite Hw; reflexivity).
    cbn [negb].
    set (w0 := add_logged INFO "Starting CVE data synchronization." (set_sync_lock true w)).
    destruct (effective_window_run a b w0) as [win Ew].
    assert (Hp0 : no_page (hd_error (nvd w0)) = true) by (simpl; rewrite Hn; exact Hp).
    destruct (fetch_and_store_cve_data_no_page 0 2000 (fst win) (snd win) w0 Hp0)
      as [msg Ef].
    erewrite bind_Ok by exact Ew. erewrite bind_Ok by exact Ef.
    unfold update_last_sync_timestamp, next_reply. simpl nvd. rewrite Hn. simpl tl.
    unfold bind at 1. unfold bind at 1. unfold fetch_data, bind, modify, lift_option, ret.
    simpl. destruct d as [ | kv d' ]; [ contradiction | ].
    eexists. split; [ reflexivity | ]. simpl. auto. }
  destruct E as [w' [E [H1 [H2 H3]]]].
  unfold synchronize_cve_data, with_sync_lock. rewrite Hl, E. simpl. auto.
Qed.

End SyncErrors.

(* ===================================================================== *)
(** ** Cleaning twice; the window of the filter against cleaned dates *)
(* ===================================================================== *)

Lemma dict_set_present (k : string) (v : value) (d : dict) :
  dict_get k d = Some v -> dict_set k v d = d.
Proof.
  induction d as [ | [k' v'] d IH ]; simpl; [ discriminate | ].
  destruct (String.eqb k k') eqn:E.
  - now intros [= ->].
  - intros H. now rewrite IH.
Qed.

Lemma string_app_assoc (a b c : string) : ((a ++ b) ++ c = a ++ b ++ c)%string.
Proof. induction a as [ | x a IH ]; simpl; [ reflexivity | now rewrite IH ]. Qed.

Lemma ascii_compare_refl (c : ascii) : Ascii.compare c c = Eq.
Proof. unfold Ascii.compare. apply N.compare_refl. Qed.

(** A string comes before every proper extension of itself. *)
Lemma leb_extension (s : string) (c : ascii) (r : string) :
  String.leb (s ++ String c r) s = false.
Proof.
  unfold String.leb. induction s as [ | x s IH ]; simpl; [ reflexivity | ].
  now rewrite ascii_compare_refl.
Qed.

(** [t.isoformat()] starts with the date of [t], followed by a capital T. *)
Lemma isoformat_isodate (t : datetime) :
  exists rest, isoformat t = (isodate t ++ String "T" rest)%string.
Proof.
  unfold isoformat, Cal.format_iso, isodate.
  destruct (Cal.civil_from_days (micros t / MICROS_PER_DAY)) as [[y m] d].
  eexists. rewrite ?string_app_assoc. simpl. reflexivity.
Qed.

Section CleanTwice.

Context {RT : PyRuntime}.

Lemma clean_date_field_fixed (k : string) (d : dict) (w : world) :
  (forall v, dict_get k d = Some v -> cleaned_date v = v) ->
  exists w', clean_date_field k d w = (Ok d, w').
Proof.
  intros H. rewrite clean_date_field_run.
  destruct (dict_get k d) as [ v | ] eqn:G; [ | eauto ].
  specialize (H v eq_refl).
  destruct v as [ | | | s | | ]; simpl in H; try discriminate.
  - rewrite (dict_set_present _ _ _ G). eauto.
  - injection H as H. rewrite H, (dict_set_present _ _ _ G). eauto.
Qed.

(** Cleaning a cleaned record gives the same record again, without
    raising. *)
Theorem clean_cve_data_idempotent (cve_data : dict) (w : world) :
  exists cleaned w1 w2,
    clean_cve_data cve_data w = (Ok cleaned, w1)
    /\ clean_cve_data cleaned w1 = (Ok cleaned, w2).
Proof.
  destruct (clean_cve_data_run cve_data w) as [cleaned [w1 [E [Hget _]]]].
  assert (Hfix : forall k v, is_date_field k = true ->
                             dict_get k cleaned = Some v -> cleaned_date v = v).
  { intros k v Hk. rewrite Hget, Hk.
    destruct (dict_get k cve_data) as [ v0 | ]; simpl; [ | discriminate ].
    intros [= <-]. apply cleaned_date_idempotent. }
  destruct (clean_date_field_fixed "published" cleaned w1) as [w2 E2];
    [ intros v; now apply Hfix | ].
  destruct (clean_date_field_fixed "lastModified" cleaned w2) as [w3 E3];
    [ intros v; now apply Hfix | ].
  exists cleaned, w1, w3. split; [ exact E | ].
  unfold clean_cve_data, date_fields. simpl. unfold bind. now rewrite E2, E3.
Qed.

(** The query built from the age filter alone. *)
Lemma build_query_days (days : value) (n : Z) (start : datetime) (w : world) :
  days <> VNone -> py_int days = ret n ->
  datetime_minus_days (mkDatetime true (utcnow w)) n = ret start ->
  build_query VNone VNone days w
  = (Ok [FieldBetween ["lastModified"] (VStr (isoformat start))
                      (VStr (isoformat (mkDatetime true (utcnow w))))],
     add_logged INFO "Query: {query}" w).
Proof.
  intros Hd Hn Hm. unfold build_query. cbn [truthy app].
  unfold bind at 1. cbn [ret].
  assert (E : forall (q2 : query),
             match days with
             | VNone => ret q2
             | _ =>
                 now <- gets utcnow ;;
                 days0 <- py_int days ;;
                 start_date <- datetime_minus_days (mkDatetime true now) days0 ;;
                 ret (q2 ++ [FieldBetween ["lastModified"] (VStr (isoformat start_date))
                                          (VStr (isoformat (mkDatetime true now)))])%list
             end w
             = (Ok (q2 ++ [FieldBetween ["lastModified"] (VStr (isoformat start))
                             (VStr (isoformat (mkDatetime true (utcnow w))))])%list, w)).
  { intros q2. destruct days; try congruence;
      unfold bind, gets; rewrite Hn; unfold ret at 1; rewrite Hm; reflexivity. }
  unfold bind. rewrite E. reflexivity.
Qed.

(** The age filter compares the stored [lastModified], which cleaning has
    cut down to its date, with the full timestamp of the start of the
    window: a record last modified on the very day the window starts is
    never returned. *)
Theorem fetch_filtered_cve_data_skips_first_day
        (days : value) (n : Z) (start : datetime) (d : dict) (w : world) :
  days <> VNone -> py_int days = ret n ->
  datetime_minus_days (mkDatetime true (utcnow w)) n = ret start ->
  dict_get "lastModified" d = Some (VStr (isodate start)) ->
  forall found,
    fst (fetch_filtered_cve_data VNone VNone days w) = Ok found -> ~ In d found.
Proof.
  intros Hd Hn Hm Hl found.
  rewrite (fetch_filtered_cve_data_run _ _ _ _ _ _ (build_query_days _ _ _ _ Hd Hn Hm)).
  destruct (reachable (cve_collection w)); simpl; intros [= <-]; [ | now intros [] ].
  intros Hin. apply filter_In in Hin. destruct Hin as [_ Hmatch].
  destruct (isoformat_isodate start) as [rest Hiso]. rewrite Hiso in Hmatch.
  revert Hl Hmatch.
  generalize (isodate start) (isoformat (mkDatetime true (utcnow w))). intros day hi Hl.
  unfold matches. simpl. rewrite Hl. simpl. unfold gte_match. simpl.
  rewrite leb_extension. discriminate.
Qed.

End CleanTwice.

(* ===================================================================== *)
(** ** The batch that [prepare_bulk_operations] builds *)
(* ===================================================================== *)

Section Batch.

Context {RT : PyRuntime}.

Lemma is_valid_cve_reachable (cve_data : dict) (w : world) :
  reachable (cve_collection w) = true ->
  is_valid_cve (VDict cve_data) w = (Ok (admitted (cve_collection w) cve_data), w).
Proof.
  intros Hr. unfold is_valid_cve, bind, admitted. simpl. fold (index_key cve_data).
  destruct (truthy (index_key cve_data)); simpl; [ | reflexivity ].
  unfold count_documents. rewrite Hr. rewrite count_positive. unfold id_stored.
  assert (E : existsb (matches [FieldEq ["id"] (index_key cve_data)])
                      (docs (cve_collection w))
              = existsb (field_eq ["id"] (index_key cve_data)) (docs (cve_collection w))).
  { induction (docs (cve_collection w)) as [ | s l IH ]; [ reflexivity | ].
    simpl. rewrite IH. unfold matches. simpl. now rewrite andb_true_r. }
  rewrite E.
  now destruct (existsb (field_eq ["id"] (index_key cve_data)) (docs (cve_collection w))).
Qed.

Lemma clean_date_field_value (k : string) (d : dict) (w : world) :
  exists w', clean_date_field k d w = (Ok (cleaned_field k d), w')
             /\ cve_collection w' = cve_collection w.
Proof.
  rewrite clean_date_field_run. unfold cleaned_field.
  destruct (dict_get k d) as [ [ | | | | | ] | ]; eauto.
Qed.

Lemma clean_cve_data_value (d : dict) (w : world) :
  exists w', clean_cve_data d w = (Ok (cleaned_record d), w')
             /\ cve_collection w' = cve_collection w.
Proof.
  unfold clean_cve_data, date_fields, cleaned_record. simpl. unfold bind.
  destruct (clean_date_field_value "published" d w) as [w1 [E1 C1]]. rewrite E1.
  destruct (clean_date_field_value "lastModified" (cleaned_field "published" d) w1)
    as [w2 [E2 C2]].
  rewrite E2. exists w2. split; [ reflexivity | congruence ].
Qed.

Lemma prepare_each_batch (vs : list value) :
  forall (acc : list dict) (w : world),
    forallb well_shaped vs = true ->
    reachable (cve_collection w) = true ->
    exists w',
      prepare_each vs acc w
      = (Ok (acc ++ map cleaned_record
                        (filter (admitted (cve_collection w)) (map cve_of vs)))%list, w')
      /\ cve_collection w' = cve_collection w.
Proof.
  induction vs as [ | v vs IH ]; intros acc w Hs Hr.
  - exists w. simpl. rewrite app_nil_r. auto.
  - simpl in Hs. apply andb_true_iff in Hs. destruct Hs as [Hv Hs].
    destruct v as [ | | | | | d ]; try discriminate.
    assert (Eg : py_get (VDict d) "cve" (VDict []) w = (Ok (VDict (cve_of (VDict d))), w)).
    { simpl in *. destruct (dict_get "cve" d) as [ [ | | | | | c ] | ];
        try discriminate; reflexivity. }
    cbn [prepare_each map filter].
    rewrite (bind_Ok _ _ _ _ _ Eg).
    rewrite (bind_Ok _ _ _ _ _ (is_valid_cve_reachable (cve_of (VDict d)) w Hr)).
    destruct (admitted (cve_collection w) (cve_of (VDict d))).
    + erewrite bind_Ok by reflexivity.
      destruct (clean_cve_data_value (cve_of (VDict d)) w) as [w1 [Ec Cc]].
      rewrite (bind_Ok _ _ _ _ _ Ec).
      destruct (IH (acc ++ [cleaned_record (cve_of (VDict d))])%list w1 Hs) as [w' [E C]];
        [ now rewrite Cc | ].
      exists w'. rewrite E, Cc, <- app_assoc. split; [ reflexivity | congruence ].
    + apply IH; assumption.
Qed.

(** On a page whose wrappers are dicts with a dict (or nothing) under
    ["cve"], and with the store within reach, the batch holds, in the order
    of the page, the cleaned records of exactly those wrappers whose id is
    usable and not stored.  Every record is checked against the store as it
    is before the page is written, which the call itself leaves as it is. *)
Theorem prepare_bulk_operations_batch (vs : list value) (w : world) :
  forallb well_shaped vs = true ->
  reachable (cve_collection w) = true ->
  fst (prepare_bulk_operations (VList vs) w)
  = Ok (map cleaned_record (filter (admitted (cve_collection w)) (map cve_of vs)))
  /\ cve_collection (snd (prepare_bulk_operations (VList vs) w)) = cve_collection w.
Proof.
  intros Hs Hr. destruct (prepare_each_batch vs [] w Hs Hr) as [w' [E C]].
  unfold prepare_bulk_operations, bind. simpl. rewrite E. auto.
Qed.

End Batch.

(** ** The same page a second time *)

Lemma filter_none {A} (p : A -> bool) (l : list A) :
  (forall x, In x l -> p x = false) -> filter p l = [].
Proof.
  induction l as [ | x l IH ]; intros H; simpl; [ reflexivity | ].
  rewrite (H x) by (now left). apply IH. intros y Hy. apply H. now right.
Qed.

Lemma index_key_cleaned_record (d : dict) : index_key (cleaned_record d) = index_key d.
Proof.
  assert (F : forall k x, k <> "id" -> dict_get "id" (cleaned_field k x) = dict_get "id" x).
  { intros k x Hk. unfold cleaned_field. destruct (dict_get k x); [ | reflexivity ].
    now apply dict_get_set_other. }
  unfold index_key, cleaned_record. rewrite !F by discriminate. reflexivity.
Qed.

(** A document with a usable id is found by the query on that id. *)
Lemma field_eq_own_id (d : dict) :
  truthy (index_key d) = true -> field_eq ["id"] (index_key d) d = true.
Proof.
  unfold field_eq, index_key. simpl. destruct (dict_get "id" d) as [ x | ]; simpl.
  - intros _. unfold eq_match. now rewrite value_eqb_refl.
  - discriminate.
Qed.

Section SecondPass.

Context {RT : PyRuntime}.

(** Once the batch of a page has been written whole, the same page gives an
    empty batch: every record of it is turned down, for want of a usable id
    or because its id is now stored. *)
Theorem prepare_bulk_operations_second_pass (vs : list value) (w w2 : world) :
  forallb well_shaped vs = true ->
  reachable (cve_collection w2) = true ->
  docs (cve_collection w2)
  = (docs (cve_collection w)
     ++ map cleaned_record (filter (admitted (cve_collection w)) (map cve_of vs)))%list ->
  fst (prepare_bulk_operations (VList vs) w2) = Ok [].
Proof.
  intros Hs Hr Hd. destruct (prepare_each_batch vs [] w2 Hs Hr) as [w' [E _]].
  unfold prepare_bulk_operations, bind. simpl. rewrite E. simpl. f_equal.
  rewrite filter_none; [ reflexivity | ].
  intros x Hx. unfold admitted.
  destruct (truthy (index_key x)) eqn:Ht; [ simpl | reflexivity ].
  apply negb_false_iff. unfold id_stored. rewrite Hd, existsb_app.
  destruct (existsb (field_eq ["id"] (index_key x)) (docs (cve_collection w))) eqn:Eo;
    [ reflexivity | ].
  simpl. apply existsb_exists. exists (cleaned_record x). split.
  - apply in_map, filter_In. split; [ exact Hx | ].
    unfold admitted, id_stored. now rewrite Ht, Eo.
  - rewrite <- (index_key_cleaned_record x). apply field_eq_own_id.
    now rewrite index_key_cleaned_record.
Qed.

End SecondPass.

(* ===================================================================== *)
(** ** [sync_lock]: one call in the body at a time *)
(* ===================================================================== *)

Lemma lock_stamp_blind : stamp_blind sync_lock.
Proof. intros v w. reflexivity. Qed.
Lemma nvd_sent_blind : sent_blind nvd.
Proof. intros p w. reflexivity. Qed.
Lemma nvd_store_blind : store_blind nvd.
Proof. intros c w. reflexivity. Qed.
Lemma nvd_stamp_blind : stamp_blind nvd.
Proof. intros v w. reflexivity. Qed.

Section GateFacts.

Import Gate.

Context {RT : PyRuntime}.

Lemma set_phase_same (t : nat) (p : phase) (f : nat -> phase) : set_phase t p f t = p.
Proof. unfold set_phase. now rewrite Nat.eqb_refl. Qed.

Lemma set_phase_other (t u : nat) (p : phase) (f : nat -> phase) :
  u <> t -> set_phase t p f u = f u.
Proof. intros H. unfold set_phase. now apply Nat.eqb_neq in H as ->. Qed.

(** *** The stretches are the body *)

(** No stretch of the body touches the lock. *)
Lemma stage_step_lock (a b : value) (st : stage) (w : world) :
  sync_lock (snd (stage_step a b st w)) = sync_lock w.
Proof.
  revert w. change (keeps sync_lock (stage_step a b st)).
  destruct st as [ | i t win | | o ]; unfold stage_step.
  - apply keeps_bind; [ apply keeps_logger, lock_log_blind | intros _ ].
    apply keeps_bind; [ apply keeps_window_ok, lock_log_blind | intros ok ].
    destruct (negb ok); [ apply keeps_ret | ].
    apply keeps_bind; [ apply keeps_effective_window | intros win; apply keeps_ret ].
  - apply keeps_bind; [ apply keeps_index_below | intros go ].
    destruct go; [ | apply keeps_ret ].
    apply keeps_bind; [ apply keeps_next_reply, lock_nvd_blind | intros r ].
    apply keeps_bind;
      [ apply keeps_process_page;
        [ apply lock_log_blind | apply lock_sent_blind | apply lock_store_blind ]
      | intros [ [j t'] | ]; apply keeps_ret ].
  - apply keeps_bind; [ | intros _; apply keeps_ret ].
    unfold update_last_sync_timestamp.
    apply keeps_bind; [ apply keeps_next_reply, lock_nvd_blind | intros r ].
    apply keeps_bind;
      [ apply keeps_fetch_data; [ apply lock_log_blind | apply lock_sent_blind ]
      | intros data ].
    destruct (truthy data); [ | apply keeps_ret ].
    apply keeps_bind; [ apply keeps_py_get | intros ts ].
    apply keeps_bind; [ apply keeps_modify; reflexivity | intros _ ].
    apply keeps_logger, lock_log_blind.
  - apply keeps_ret.
Qed.

(** What is left of the body at a stage is the stretch from that stage,
    followed by what is left at the stage it leads to. *)
Lemma rest_of_body_step (a b : value) (st : stage) (w : world) :
  rest_of_body a b st w
  = rest_of_body a b (next_stage (fst (stage_step a b st w))) (snd (stage_step a b st w)).
Proof.
  destruct st as [ | i t win | | o ].
  - unfold rest_of_body at 1, synchronize_body, stage_step.
    cbv beta iota delta [bind logger modify].
    destruct (window_ok a b (add_logged INFO "Starting CVE data synchronization." w))
      as [[ok | e | ] w1]; try reflexivity.
    destruct ok; cbn [negb]; [ | reflexivity ].
    destruct (effective_window_run a b w1) as [win Ew]. rewrite Ew. reflexivity.
  - unfold rest_of_body at 1, stage_step.
    destruct (nvd w) as [ | r script ] eqn:En.
    + cbn [fetch_pages]. cbv beta iota delta [bind].
      destruct (index_below i t w) as [[go | e | ] w0] eqn:Ei; try reflexivity.
      pose proof (index_below_world i t w) as Ew. rewrite Ei in Ew. simpl in Ew. subst w0.
      destruct go; [ | reflexivity ].
      unfold next_reply. rewrite En.
      pose proof (process_page_next None i 2000 (fst win) (snd win) w) as Hn.
      destruct (process_page None i 2000 (fst win) (snd win) w) as [[x | e | ] w1];
        try reflexivity.
      destruct x as [ [j t'] | ]; [ | reflexivity ].
      destruct (Hn _ _ eq_refl j t' eq_refl) as [_ [d [Hd _]]]. discriminate.
    + cbn [fetch_pages]. cbv beta iota delta [bind modify].
      destruct (index_below i t w) as [[go | e | ] w0] eqn:Ei; try reflexivity.
      pose proof (index_below_world i t w) as Ew. rewrite Ei in Ew. simpl in Ew. subst w0.
      destruct go; [ | reflexivity ].
      unfold next_reply. rewrite En.
      assert (Hk : nvd (snd (process_page (Some r) i 2000 (fst win) (snd win)
                                          (set_nvd script w))) = script).
      { rewrite keeps_process_page;
          [ reflexivity | apply nvd_log_blind | apply nvd_sent_blind
          | apply nvd_store_blind ]. }
      destruct (process_page (Some r) i 2000 (fst win) (snd win) (set_nvd script w))
        as [[x | e | ] w1]; try reflexivity.
      destruct x as [ [j t'] | ]; [ | reflexivity ].
      simpl in Hk. cbn [ret fst snd next_stage rest_of_body]. now rewrite Hk.
  - unfold rest_of_body at 1, stage_step. cbv beta iota delta [bind].
    destruct (update_last_sync_timestamp w) as [[[] | e | ] w1]; reflexivity.
  - reflexivity.
Qed.

(** Every stretch brings the body nearer to its end. *)
Lemma stage_step_nearer (a b : value) (st : stage) (w : world) :
  (forall o, st <> Leaving o) ->
  (stretches_left (next_stage (fst (stage_step a b st w))) (snd (stage_step a b st w))
   < stretches_left st w)%nat.
Proof.
  intros Hst. destruct st as [ | i t win | | o ]; [ | | | now elim (Hst o) ].
  - assert (Hn : nvd (snd (stage_step a b Validating w)) = nvd w).
    { revert w. change (keeps nvd (stage_step a b Validating)). unfold stage_step.
      apply keeps_bind; [ apply keeps_logger, nvd_log_blind | intros _ ].
      apply keeps_bind; [ apply keeps_window_ok, nvd_log_blind | intros ok ].
      destruct (negb ok); [ apply keeps_ret | ].
      apply keeps_bind; [ apply keeps_effective_window | intros win; apply keeps_ret ]. }
    assert (Hs : forall st', fst (stage_step a b Validating w) = Ok st' ->
                             st' = Leaving (Ok tt) \/ exists win, st' = Fetching 0 Infinity win).
    { intros st'. unfold stage_step. cbv beta iota delta [bind logger modify].
      destruct (window_ok a b _) as [[ok | e | ] w1]; try discriminate.
      destruct ok; cbn [negb]; [ | intros [= <-]; now left ].
      destruct (effective_window_run a b w1) as [win Ew]. rewrite Ew.
      intros [= <-]. right. now exists win. }
    destruct (stage_step a b Validating w) as [[st' | e | ] w1]; simpl in *;
      try lia.
    destruct (Hs _ eq_refl) as [-> | [win ->]]; simpl; rewrite ?Hn; lia.
  - unfold stage_step. cbv beta iota delta [bind].
    destruct (index_below i t w) as [[go | e | ] w0] eqn:Ei; simpl; try lia.
    pose proof (index_below_world i t w) as Ew. rewrite Ei in Ew. simpl in Ew. subst w0.
    destruct go; [ | simpl; lia ].
    unfold next_reply. destruct (nvd w) as [ | r script ] eqn:En.
    + pose proof (process_page_next None i 2000 (fst win) (snd win) w) as Hn.
      destruct (process_page None i 2000 (fst win) (snd win) w) as [[x | e | ] w1];
        simpl; try lia.
      destruct x as [ [j t'] | ]; simpl; [ | lia ].
      destruct (Hn _ _ eq_refl j t' eq_refl) as [_ [d [Hd _]]]. discriminate.
    + assert (Hk : nvd (snd (process_page (Some r) i 2000 (fst win) (snd win)
                                          (set_nvd script w))) = script).
      { rewrite keeps_process_page;
          [ reflexivity | apply nvd_log_blind | apply nvd_sent_blind
          | apply nvd_store_blind ]. }
      destruct (process_page (Some r) i 2000 (fst win) (snd win) (set_nvd script w))
        as [[x | e | ] w1]; simpl in *; try lia.
      destruct x as [ [j t'] | ]; simpl; [ rewrite Hk | ]; lia.
  - unfold stage_step. cbv beta iota delta [bind].
    destruct (update_last_sync_timestamp w) as [[[] | e | ] w1]; simpl; lia.
Qed.

Variable args : nat -> value * value.

Lemma replay_app (pre post : list event) (s0 s : state) :
  replay args (pre ++ post) s0 = Some s <->
  exists s1, replay args pre s0 = Some s1 /\ replay args post s1 = Some s.
Proof.
  revert s0. induction pre as [ | e pre IH ]; intros s0; simpl.
  - split; [ eauto | now intros [s1 [[= ->] H]] ].
  - destruct (fire args e s0) as [s1 | ]; [ apply IH | ].
    split; [ discriminate | now intros [s1 [H _]] ].
Qed.

(** What one stretch does to the state. *)
Lemma fire_advance (t : nat) (st : stage) (s : state) :
  phase_of s t = Critical st -> (forall o, st <> Leaving o) ->
  fire args (Advance t) s
  = Some (mkState (snd (stage_step (fst (args t)) (snd (args t)) st (shared s)))
                  (waiters s) (handoff s)
                  (set_phase t
                     (Critical (next_stage
                                  (fst (stage_step (fst (args t)) (snd (args t)) st
                                                   (shared s)))))
                     (phase_of s))).
Proof.
  intros Pt Hst. simpl. rewrite Pt.
  destruct st as [ | i b win | | o ]; [ | | | now elim (Hst o) ];
    now destruct (stage_step _ _ _ _).
Qed.

(** A call in the body that is left alone reaches the end of the body, in
    the world and with the outcome that the program's own body gives. *)
Lemma advance_to_leaving (t : nat) (n : nat) :
  forall (st : stage) (s : state),
    phase_of s t = Critical st ->
    (stretches_left st (shared s) <= n)%nat ->
    exists k s',
      replay args (repeat (Advance t) k) s = Some s'
      /\ phase_of s' t
         = Critical (Leaving (fst (rest_of_body (fst (args t)) (snd (args t)) st (shared s))))
      /\ shared s' = snd (rest_of_body (fst (args t)) (snd (args t)) st (shared s)).
Proof.
  induction n as [ | n IH ]; intros st s Pt Hn.
  - destruct st as [ | i b win | | o ]; simpl in Hn; try lia.
    exists 0%nat, s. simpl. auto.
  - destruct st as [ | i b win | | o ];
      [ | | | exists 0%nat, s; simpl; auto ].
    all: match type of Pt with _ = Critical ?st0 =>
           assert (Hst : forall o, st0 <> Leaving o) by (intros o; discriminate);
           pose proof (fire_advance t st0 s Pt Hst) as F;
           pose proof (stage_step_nearer (fst (args t)) (snd (args t)) st0 (shared s) Hst)
             as Hlt;
           rewrite (rest_of_body_step (fst (args t)) (snd (args t)) st0 (shared s))
         end.
    all: match type of F with _ = Some ?s1 =>
           destruct (IH _ s1 (set_phase_same t _ _)) as [k [s' [R [P Hw]]]];
           [ apply Nat.lt_succ_r; eapply Nat.lt_le_trans; [ exact Hlt | exact Hn ] | ];
           exists (S k), s'; simpl repeat; cbn [replay]; rewrite F;
           split; [ exact R | split; [ exact P | exact Hw ] ]
         end.
Qed.

(** *** The lock protocol *)

Lemma invariant_initial (w : world) : sync_lock w = false -> invariant [] (initial w).
Proof.
  intros L. constructor; simpl; try discriminate; try reflexivity;
    try (intros t []); try (rewrite L; discriminate).
  constructor.
Qed.

Lemma in_remove_waiter (t u : nat) (l : list nat) :
  In u (remove_waiter t l) -> In u l.
Proof.
  induction l as [ | x l IH ]; simpl; [ auto | ].
  destruct (Nat.eqb x t); [ now right | ]. intros [H | H]; auto.
Qed.

Lemma remove_waiter_gone (t : nat) (l : list nat) :
  NoDup l -> ~ In t (remove_waiter t l).
Proof.
  induction 1 as [ | x l Hx Hl IH ]; simpl; [ auto | ].
  destruct (Nat.eqb x t) eqn:E.
  - apply Nat.eqb_eq in E. now subst x.
  - apply Nat.eqb_neq in E. intros [H | H]; [ congruence | now apply IH ].
Qed.

Lemma remove_waiter_NoDup (t : nat) (l : list nat) :
  NoDup l -> NoDup (remove_waiter t l).
Proof.
  induction 1 as [ | x l Hx Hl IH ]; simpl; [ constructor | ].
  destruct (Nat.eqb x t); [ exact Hl | ].
  constructor; [ | exact IH ]. intros H. apply Hx. eapply in_remove_waiter, H.
Qed.

(** Case analysis on whether the call looked at is the one the event moved. *)
Ltac same_call t u :=
  let H := fresh "Hne" in
  destruct (Nat.eq_dec u t) as [-> | H];
  [ rewrite ?set_phase_same in *
  | rewrite ?(set_phase_other t u) in * by exact H;
    try rewrite (proj2 (Nat.eqb_neq t u)) by congruence ].

Ltac snoc_events :=
  rewrite ?existsb_app; simpl existsb; rewrite ?orb_false_r.

(** Every event keeps the invariant. *)
Lemma invariant_fire (evs : list event) (e : event) (s s' : state) :
  invariant evs s -> fire args e s = Some s' -> invariant (evs ++ [e]) s'.
Proof.
  intros [Hh Hl Hs Hd Hw Hq Hb He] F.
  destruct e as [ t | t | t | t | t ].
  - (* Enter *)
    simpl in F. destruct (phase_of s t) eqn:Pt; simpl in F; try discriminate.
    destruct (sync_lock (shared s)) eqn:L; simpl in F; try discriminate.
    destruct (waiters s) eqn:W; simpl in F; try discriminate.
    inversion F; subst s'; clear F.
    assert (Hfree : forall u, is_critical (phase_of s u) = false).
    { intros u. destruct (is_critical (phase_of s u)) eqn:C; [ | reflexivity ].
      apply Hh in C. congruence. }
    constructor; simpl.
    + reflexivity.
    + intros _. exists t. now rewrite set_phase_same.
    + intros a b. same_call t a; same_call t b; simpl; auto;
        rewrite ?Hfree; discriminate.
    + intros u Hu. apply Hd in Hu. rewrite ?W in Hu. now destruct Hu as [_ []].
    + intros u [].
    + constructor.
    + intros u. snoc_events. rewrite Hb. same_call t u; simpl.
      * rewrite Pt, Nat.eqb_refl. reflexivity.
      * now rewrite orb_false_r.
    + intros u. snoc_events. rewrite He. same_call t u; simpl; [ now rewrite Pt | reflexivity ].
  - (* Park *)
    simpl in F. destruct (phase_of s t) eqn:Pt; simpl in F; try discriminate.
    destruct (sync_lock (shared s) || negb (is_nil (waiters s))) eqn:G; try discriminate.
    inversion F; subst s'; clear F.
    assert (Hnew : ~ In t (waiters s)).
    { intros H. apply Hw in H. congruence. }
    constructor; simpl.
    + intros u. same_call t u; simpl; [ discriminate | apply Hh ].
    + intros L. destruct (Hl L) as [u Cu]. exists u.
      same_call t u; [ rewrite Pt in Cu; discriminate | exact Cu ].
    + intros a b. same_call t a; same_call t b; simpl; try discriminate. apply Hs.
    + intros u Hu. apply Hd in Hu. destruct Hu as [Hl' Hu].
      split; [ exact Hl' | apply in_or_app; now left ].
    + intros u Hu. apply in_app_or in Hu. same_call t u; [ reflexivity | ].
      destruct Hu as [Hu | [Hu | []]]; [ now apply Hw | congruence ].
    + apply NoDup_app; [ exact Hq | repeat constructor; intros [] | ].
      intros u Hu [<- | []]. contradiction.
    + intros u. snoc_events. rewrite Hb. same_call t u; simpl; [ now rewrite Pt | reflexivity ].
    + intros u. snoc_events. rewrite He. same_call t u; simpl; [ now rewrite Pt | reflexivity ].
  - (* Resume *)
    simpl in F. destruct (phase_of s t) eqn:Pt; simpl in F; try discriminate.
    unfold is_handoff in F. destruct (handoff s) as [h | ] eqn:H; try discriminate.
    destruct (Nat.eqb h t) eqn:E; try discriminate. apply Nat.eqb_eq in E. subst h.
    inversion F; subst s'; clear F.
    assert (Hfree : forall u, is_critical (phase_of s u) = false).
    { intros u. destruct (is_critical (phase_of s u)) eqn:C; [ | reflexivity ].
      apply Hh in C. rewrite (proj1 (Hd _ eq_refl)) in C. discriminate. }
    constructor; simpl.
    + reflexivity.
    + intros _. exists t. now rewrite set_phase_same.
    + intros a b. same_call t a; same_call t b; simpl; auto;
        rewrite ?Hfree; discriminate.
    + discriminate.
    + intros u Hu. same_call t u.
      * exfalso. now apply (remove_waiter_gone t (waiters s) Hq).
      * apply Hw. eapply in_remove_waiter, Hu.
    + now apply remove_waiter_NoDup.
    + intros u. snoc_events. rewrite Hb. same_call t u; simpl.
      * rewrite Pt, Nat.eqb_refl. reflexivity.
      * now rewrite orb_false_r.
    + intros u. snoc_events. rewrite He. same_call t u; simpl; [ now rewrite Pt | reflexivity ].
  - (* Advance *)
    destruct (phase_of s t) as [ | | st | ] eqn:Pt;
      try (simpl in F; rewrite Pt in F; discriminate).
    assert (Hst : forall o, st <> Leaving o).
    { intros o ->. simpl in F. rewrite Pt in F. discriminate. }
    rewrite (fire_advance t st s Pt Hst) in F.
    pose proof (stage_step_lock (fst (args t)) (snd (args t)) st (shared s)) as L'.
    inversion F; subst s'; clear F.
    assert (Ct : is_critical (phase_of s t) = true) by (now rewrite Pt).
    constructor; simpl.
    + intros u _. rewrite L'. now apply (Hh t).
    + intros _. exists t. now rewrite set_phase_same.
    + intros a b. same_call t a; same_call t b; simpl; auto;
        intros; first [ now apply Hs | symmetry; now apply Hs ].
    + intros u Hu. rewrite L'. now apply Hd.
    + intros u Hu. same_call t u; [ | now apply Hw ].
      apply Hw in Hu. congruence.
    + exact Hq.
    + intros u. snoc_events. rewrite Hb. same_call t u; simpl; [ now rewrite Pt | reflexivity ].
    + intros u. snoc_events. rewrite He. same_call t u; simpl; [ now rewrite Pt | reflexivity ].
  - (* Exit *)
    simpl in F. destruct (phase_of s t) as [ | | st | ] eqn:Pt; try discriminate.
    destruct st as [ | i b win | | o ]; try discriminate.
    inversion F; subst s'; clear F.
    assert (Ct : is_critical (phase_of s t) = true) by (now rewrite Pt).
    constructor; simpl.
    + intros u. same_call t u; simpl; [ discriminate | ].
      intros Cu. elim Hne. now apply Hs.
    + discriminate.
    + intros a b. same_call t a; same_call t b; simpl; try discriminate. apply Hs.
    + intros u Hu. split; [ reflexivity | ].
      destruct (waiters s) as [ | x l ]; simpl in Hu; [ discriminate | ].
      inversion Hu. now left.
    + intros u Hu. same_call t u; [ | now apply Hw ].
      apply Hw in Hu. congruence.
    + exact Hq.
    + intros u. snoc_events. rewrite Hb. same_call t u; simpl; [ now rewrite Pt | reflexivity ].
    + intros u. snoc_events. rewrite He. same_call t u; simpl.
      * rewrite Pt, Nat.eqb_refl. reflexivity.
      * now rewrite orb_false_r.
Qed.

(** The invariant holds after every run. *)
Lemma invariant_replay (evs pre : list event) (s0 s : state) :
  invariant pre s0 -> replay args evs s0 = Some s -> invariant (pre ++ evs) s.
Proof.
  revert pre s0. induction evs as [ | e evs IH ]; intros pre s0 I R; simpl in R.
  - inversion R; subst. now rewrite app_nil_r.
  - destruct (fire args e s0) as [s1 | ] eqn:F; [ | discriminate ].
    replace (pre ++ e :: evs)%list with ((pre ++ [e]) ++ evs)%list
      by (now rewrite <- app_assoc).
    eapply IH; [ | exact R ]. eapply invariant_fire; eassumption.
Qed.

Lemma invariant_reached (w0 : world) (evs : list event) (s : state) :
  sync_lock w0 = false -> replay args evs (initial w0) = Some s -> invariant evs s.
Proof.
  intros L R. apply (invariant_replay evs [] (initial w0) s (invariant_initial w0 L) R).
Qed.

(** While the lock is free, no call is in the body. *)
Lemma nobody_inside (evs : list event) (s : state) (t : nat) :
  invariant evs s -> sync_lock (shared s) = false -> is_critical (phase_of s t) = false.
Proof.
  intros I L. destruct (is_critical (phase_of s t)) eqn:C; [ | reflexivity ].
  apply (inv_holder _ _ I) in C. congruence.
Qed.

(** An event that takes a call into the body fires with the lock free. *)
Lemma begins_free (evs : list event) (s s' : state) (e : event) (u : nat) :
  invariant evs s -> begins u e = true -> fire args e s = Some s' ->
  sync_lock (shared s) = false.
Proof.
  intros I B F. destruct e as [ t | t | t | t | t ]; simpl in B; try discriminate;
    simpl in F.
  - destruct (sync_lock (shared s)); [ | reflexivity ].
    rewrite andb_false_r in F. discriminate.
  - unfold is_handoff in F. destruct (handoff s) as [h | ] eqn:H.
    + apply (inv_handoff _ _ I h H).
    + rewrite andb_false_r in F. discriminate.
Qed.

(** Inside a stretch the body has further [await]s (the GET, the write in
    the executor).  All that another call can do there is try the lock,
    which no stretch changes: whether it is queued before the stretch or
    after it, the state reached is the same. *)
Lemma park_commutes_with_advance (t u : nat) (st : stage) (s : state) :
  phase_of s t = Critical st -> (forall o, st <> Leaving o) ->
  phase_of s u = Fresh -> sync_lock (shared s) = true ->
  exists s1 s2 s1' s2',
    fire args (Park u) s = Some s1 /\ fire args (Advance t) s1 = Some s2
    /\ fire args (Advance t) s = Some s1' /\ fire args (Park u) s1' = Some s2'
    /\ shared s2 = shared s2' /\ waiters s2 = waiters s2' /\ handoff s2 = handoff s2'
    /\ forall v, phase_of s2 v = phase_of s2' v.
Proof.
  intros Pt Hst Pu L.
  assert (Hne : u <> t) by (intros ->; rewrite Pt in Pu; discriminate).
  assert (Hne' : t <> u) by congruence.
  pose proof (stage_step_lock (fst (args t)) (snd (args t)) st (shared s)) as L'.
  eexists. eexists. eexists. eexists.
  split; [ simpl; rewrite Pu, L; reflexivity | ].
  split; [ apply (fire_advance t st); [ simpl; now rewrite set_phase_other | exact Hst ] | ].
  split; [ apply (fire_advance t st s Pt Hst) | ].
  split; [ simpl; rewrite (set_phase_other t u) by exact Hne; rewrite Pu, L', L;
           reflexivity | ].
  simpl. repeat split. intros v. unfold set_phase.
  destruct (Nat.eqb v t) eqn:Et; destruct (Nat.eqb v u) eqn:Eu; try reflexivity.
  apply Nat.eqb_eq in Et, Eu. congruence.
Qed.

(** A call that finds the lock taken is suspended and changes nothing. *)
Lemma with_sync_lock_taken {A} (body : M A) (w : world) :
  sync_lock w = true -> with_sync_lock body w = (Parked, w).
Proof. intros L. unfold with_sync_lock. now rewrite L. Qed.

(** With the lock free, the body runs from the world in which the lock is
    taken, and the call ends in the world in which it is free again. *)
Lemma with_sync_lock_free {A} (body : M A) (w : world) :
  sync_lock w = false ->
  with_sync_lock body w = (fst (body (acquire w)), release (snd (body (acquire w)))).
Proof.
  intros L. unfold with_sync_lock, acquire, release. rewrite L.
  now destruct (body (set_sync_lock true w)).
Qed.

(** A call that finds the lock free and is left alone goes through the
    events of entering, the stretches of its body and leaving, and ends
    with the outcome and in the world of [synchronize_cve_data]. *)
Lemma lone_call (t : nat) (s : state) :
  phase_of s t = Fresh -> sync_lock (shared s) = false -> waiters s = [] ->
  exists n s',
    replay args (Enter t :: repeat (Advance t) n ++ [Exit t]) s = Some s'
    /\ phase_of s' t
       = Finished (fst (synchronize_cve_data (fst (args t)) (snd (args t)) (shared s)))
    /\ shared s' = snd (synchronize_cve_data (fst (args t)) (snd (args t)) (shared s)).
Proof.
  intros Pt L W.
  set (s1 := mkState (acquire (shared s)) (waiters s) (handoff s)
                     (set_phase t (Critical Validating) (phase_of s))).
  assert (F : fire args (Enter t) s = Some s1).
  { unfold s1. simpl. now rewrite Pt, L, W. }
  destruct (advance_to_leaving t _ Validating s1 (set_phase_same t _ _) (le_n _))
    as [n [s2 [R [P Hw]]]].
  exists n. eexists. cbn [replay app]. rewrite F.
  split; [ | split ].
  - apply replay_app. exists s2. split; [ exact R | ]. simpl. rewrite P. reflexivity.
  - simpl. rewrite set_phase_same. unfold synchronize_cve_data.
    rewrite (with_sync_lock_free _ _ L). reflexivity.
  - simpl. rewrite Hw. unfold synchronize_cve_data.
    rewrite (with_sync_lock_free _ _ L). reflexivity.
Qed.

(** C2.  Calls of [synchronize_cve_data] on one event loop, any number of
    them, each going through the program's own code: taking the lock, the
    window check, the turns of the page loop, the metadata call, the
    release.  In every state they can reach from a world with the lock free:
    at most one call is inside the body, and the lock is set exactly while
    one is; a call gets into the body only when every call that got in
    before it has left it, so the whole critical section of the first
    (window check, page loop, metadata call) is over before the body of the
    second begins; a call that finds the lock taken is suspended without
    any effect, which is what [synchronize_cve_data] itself answers in that
    world, and it is queued, not turned away; when the holder leaves, the
    first call in the queue can take the lock; no call is finished without
    having been through the body; a call that finds the lock free and is
    left alone ends with the outcome and in the world of
    [synchronize_cve_data]; and [async with sync_lock] runs its body in the
    world where the lock is taken and ends in the world where it is free. *)
Theorem sync_lock_one_call_at_a_time (w0 : world) (evs : list event) (s : state) :
  sync_lock w0 = false ->
  replay args evs (initial w0) = Some s ->
  (forall t u,
      is_critical (phase_of s t) = true -> is_critical (phase_of s u) = true -> t = u)
  /\ (sync_lock (shared s) = true <-> exists t, is_critical (phase_of s t) = true)
  /\ (forall pre e post u t,
        evs = (pre ++ e :: post)%list -> begins u e = true ->
        existsb (begins t) pre = true -> existsb (ends t) pre = true)
  /\ (forall t,
        phase_of s t = Fresh -> sync_lock (shared s) = true ->
        synchronize_cve_data (fst (args t)) (snd (args t)) (shared s) = (Parked, shared s)
        /\ fire args (Enter t) s = None
        /\ exists s', fire args (Park t) s = Some s'
                      /\ phase_of s' t = Waiting /\ In t (waiters s')
                      /\ shared s' = shared s)
  /\ (forall u t s',
        hd_error (waiters s) = Some t -> fire args (Exit u) s = Some s' ->
        exists s'', fire args (Resume t) s' = Some s''
                    /\ is_critical (phase_of s'' t) = true)
  /\ (forall t o, phase_of s t = Finished o -> existsb (begins t) evs = true)
  /\ (forall t,
        phase_of s t = Fresh -> sync_lock (shared s) = false -> waiters s = [] ->
        exists n s',
          replay args (Enter t :: repeat (Advance t) n ++ [Exit t]) s = Some s'
          /\ phase_of s' t
             = Finished (fst (synchronize_cve_data (fst (args t)) (snd (args t))
                                                   (shared s)))
          /\ shared s'
             = snd (synchronize_cve_data (fst (args t)) (snd (args t)) (shared s)))
  /\ (forall (body : M unit) (w : world),
        (sync_lock w = true -> with_sync_lock body w = (Parked, w))
        /\ (sync_lock w = false ->
            with_sync_lock body w
            = (fst (body (acquire w)), release (snd (body (acquire w)))))).
Proof.
  intros L0 R. pose proof (invariant_reached _ _ _ L0 R) as I.
  split; [ | split; [ | split; [ | split; [ | split; [ | split; [ | split ] ] ] ] ] ].
  - apply (inv_single _ _ I).
  - split; [ apply (inv_locked _ _ I) | intros [t Ct]; apply (inv_holder _ _ I t Ct) ].
  - intros pre e post u t E B Hb. subst evs.
    apply replay_app in R. destruct R as [s1 [R1 R2]].
    pose proof (invariant_reached _ _ _ L0 R1) as I1.
    simpl in R2. destruct (fire args e s1) as [s2 | ] eqn:F; [ | discriminate ].
    pose proof (begins_free _ _ _ _ _ I1 B F) as L.
    rewrite (inv_begun _ _ I1), (nobody_inside _ _ t I1 L) in Hb.
    now rewrite (inv_ended _ _ I1).
  - intros t Pt L. split; [ | split ].
    + unfold synchronize_cve_data. now apply with_sync_lock_taken.
    + simpl. now rewrite Pt, L.
    + simpl. rewrite Pt, L. simpl.
      eexists. split; [ reflexivity | ]. simpl. split; [ apply set_phase_same | ].
      split; [ | reflexivity ]. apply in_or_app. right. now left.
  - intros u t s' Hhd F. simpl in F.
    destruct (phase_of s u) as [ | | st | ] eqn:Pu; try discriminate.
    destruct st as [ | i b win | | o ]; try discriminate.
    inversion F; subst s'; clear F.
    assert (Ht : In t (waiters s)).
    { destruct (waiters s) as [ | x l ]; [ discriminate | ]. inversion Hhd. now left. }
    pose proof (inv_waiters _ _ I t Ht) as Pt.
    assert (Hne : t <> u).
    { intros ->. rewrite Pt in Pu. discriminate. }
    simpl. unfold is_handoff. simpl. rewrite Hhd, Nat.eqb_refl.
    rewrite (set_phase_other u t) by exact Hne. rewrite Pt. simpl.
    eexists. split; [ reflexivity | ]. simpl. now rewrite set_phase_same.
  - intros t o Pt. rewrite (inv_begun _ _ I), Pt. reflexivity.
  - intros t Pt L W. now apply lone_call.
  - intros body w. split; [ apply with_sync_lock_taken | apply with_sync_lock_free ].
Qed.

End GateFacts.

(** ** Worked examples *)

Section Examples.

#[local] Existing Instance cpython.

(** *** C1 *)

(** Two pages that share an id, then a second run that brings two stored
    ids again: every record is stored once. *)
Lemma store_append_only_and_deduplicated_witness :
  docs (cve_collection (exec_all Sample.two_runs Sample.idle))
  = [Sample.a; Sample.b; Sample.c]
  /\ distinct_ids (docs (cve_collection (exec_all Sample.two_runs Sample.idle))) = true.
Proof.
  split; [ reflexivity | ].
  apply (proj2 (store_append_only_and_deduplicated Sample.two_runs Sample.idle));
    [ reflexivity | ].
  right. reflexivity.
Defined.

(** One page that carries the same id twice, on a collection without a
    unique index: both copies pass the check, and both are stored. *)
Lemma same_id_twice_in_one_page_is_stored_twice :
  docs (cve_collection (exec_all Sample.run_with_repeat Sample.idle))
  = [Sample.a; Sample.a]
  /\ same_id Sample.a Sample.a = true
  /\ distinct_ids (docs (cve_collection (exec_all Sample.run_with_repeat Sample.idle)))
     = false.
Proof. repeat split. Qed.

(** *** C2 *)

(** Two calls on a feed of one page and the metadata: the second waits
    while the first stores its record and sets the watermark, and is in the
    body, with the lock, once the first has left. *)
Lemma sync_lock_one_call_at_a_time_witness :
  exists s,
    Gate.replay Sample.no_window Sample.two_calls (Gate.initial Sample.page_and_metadata)
    = Some s
    /\ (forall t u,
           Gate.is_critical (Gate.phase_of s t) = true ->
           Gate.is_critical (Gate.phase_of s u) = true -> t = u)
    /\ Gate.phase_of s 0%nat = Gate.Finished (Ok tt)
    /\ Gate.phase_of s 1%nat = Gate.Critical Gate.Validating
    /\ sync_lock (Gate.shared s) = true
    /\ docs (cve_collection (Gate.shared s)) = [Sample.a]
    /\ last_sync_timestamp (Gate.shared s) = VStr "2024-01-05T10:00:01.000".
Proof.
  destruct (Gate.replay Sample.no_window Sample.two_calls
                        (Gate.initial Sample.page_and_metadata)) as [s | ] eqn:R;
    [ | vm_compute in R; discriminate R ].
  exists s. split; [ reflexivity | ].
  split; [ apply (proj1 (sync_lock_one_call_at_a_time
                           Sample.no_window Sample.page_and_metadata Sample.two_calls s
                           eq_refl R)) | ].
  vm_compute in R. inversion R. repeat split.
Defined.

(** *** C3 *)

(** From 2024-01-01 to 2024-06-01 is 152 days: nothing is sent.  From
    2024-01-01 to 2024-04-30 is exactly 120 days: the window goes out. *)
Lemma synchronize_window_over_120_days_witness :
  synchronize_cve_data (VStr "2024-01-01") (VStr "2024-06-01") Sample.one_page
  = (Ok tt,
     add_logged ERROR "Date range exceeds the maximum allowable range of 120 days."
       (add_logged INFO "Starting CVE data synchronization." Sample.one_page))
  /\ exists rest,
      sent (snd (synchronize_cve_data (VStr "2024-01-01") (VStr "2024-04-30")
                                      Sample.one_page))
      = (sent Sample.one_page
         ++ page_params 0 2000 (VStr "2024-01-01") (VStr "2024-04-30") :: rest)%list
      /\ request_window (page_params 0 2000 (VStr "2024-01-01") (VStr "2024-04-30"))
         = Some (VStr "2024-01-01", VStr "2024-04-30").
Proof.
  split.
  - apply (proj1 (synchronize_window_over_120_days
                    "2024-01-01" "2024-06-01"
                    (mkDatetime false 1704067200000000)
                    (mkDatetime false 1717200000000000) Sample.one_page
                    eq_refl ltac:(discriminate) ltac:(discriminate)
                    eq_refl eq_refl eq_refl)).
    reflexivity.
  - apply (proj2 (synchronize_window_over_120_days
                    "2024-01-01" "2024-04-30"
                    (mkDatetime false 1704067200000000)
                    (mkDatetime false 1714435200000000) Sample.one_page
                    eq_refl ltac:(discriminate) ltac:(discriminate)
                    eq_refl eq_refl eq_refl)).
    discriminate.
Defined.

(** The caller of a run that was turned down for its window gets the same
    plain return as the caller of a run that went through: no error reaches
    it. *)
Lemma window_over_120_days_returns_normally :
  fst (synchronize_cve_data (VStr "2024-01-01") (VStr "2024-06-01") Sample.one_page)
  = Ok tt
  /\ (forall e,
         fst (synchronize_cve_data (VStr "2024-01-01") (VStr "2024-06-01")
                                   Sample.one_page) <> Raise e)
  /\ sent (snd (synchronize_cve_data (VStr "2024-01-01") (VStr "2024-06-01")
                                     Sample.one_page)) = []
  /\ fst (synchronize_cve_data (VStr "2024-01-01") (VStr "2024-04-30") Sample.one_page)
     = Ok tt.
Proof. repeat split. intros e. discriminate. Qed.

(** *** C4 *)

(** A batch whose second record repeats the first, on a collection with the
    unique index: the first is committed, the write stops at the second. *)
Lemma execute_bulk_operations_stops_at_first_conflict_witness :
  execute_bulk_operations ([Sample.a] ++ Sample.a :: [Sample.b]) Sample.idle_indexed
  = (Ok tt, add_logged ERROR "Bulk write error: %s"
              (set_collection (with_more [Sample.a] (cve_collection Sample.idle_indexed))
                              Sample.idle_indexed)).
Proof.
  apply (proj2 (proj2 (execute_bulk_operations_stops_at_first_conflict
                         Sample.idle_indexed)) [Sample.a] Sample.a [Sample.b]);
    reflexivity.
Defined.

(** The third record of that batch conflicts with nothing, and is not
    committed; the same through a whole run. *)
Lemma record_behind_a_conflict_is_dropped :
  docs (cve_collection
          (snd (execute_bulk_operations [Sample.a; Sample.a; Sample.b]
                                        Sample.idle_indexed)))
  = [Sample.a]
  /\ conflicts Sample.b (Sample.indexed [Sample.a]) = false
  /\ docs (fst (bulk_insert_unordered [Sample.a; Sample.a; Sample.b] (Sample.indexed [])))
     = [Sample.a; Sample.b]
  /\ docs (cve_collection (snd (synchronize_cve_data VNone VNone Sample.repeating_page)))
     = [Sample.a].
Proof. repeat split. Qed.

(** *** C5 *)

(** A malformed date that is a string stays as it is. *)
Lemma clean_keeps_a_malformed_date_string :
  fst (clean_cve_data [("published", VStr "not-a-date")] Sample.idle)
  = Ok [("published", VStr "not-a-date")]
  /\ fst (clean_cve_data [("published", VStr "not-a-date")] Sample.idle)
     <> Ok [("published", VNone)]
  /\ fst (clean_cve_data [("published", VStr "2024-01-05T10:00:00Z")] Sample.idle)
     = Ok [("published", VStr "2024-01-05")]
  /\ fst (clean_cve_data [("published", VNum 20240105)] Sample.idle)
     = Ok [("published", VNone)].
Proof. repeat split. discriminate. Qed.

(** *** C6 *)

(** The view leaves the watermark unset where a synchronisation sets it, and
    fetches while the lock is held where a synchronisation waits. *)
Lemma update_view_is_not_a_synchronisation :
  last_sync_timestamp (snd (UpdateCveDataView_get Sample.page_and_metadata)) = VNone
  /\ last_sync_timestamp (snd (synchronize_cve_data VNone VNone Sample.page_and_metadata))
     = VStr "2024-01-05T10:00:01.000"
  /\ sent (snd (synchronize_cve_data VNone VNone Sample.page_and_metadata))
     = [page_params 0 2000 VNone VNone; VDict []]
  /\ sent (snd (UpdateCveDataView_get Sample.page_and_metadata))
     = [page_params 0 2000 VNone VNone]
  /\ fst (synchronize_cve_data VNone VNone Sample.page_and_metadata_held) = Parked
  /\ sent (snd (UpdateCveDataView_get Sample.page_and_metadata_held))
     = [page_params 0 2000 VNone VNone]
  /\ docs (cve_collection (snd (UpdateCveDataView_get Sample.page_and_metadata_held)))
     = [Sample.a].
Proof. repeat split. Qed.

(** *** C7 *)

(** With the watermark of an earlier run, the next run asks for what changed
    from the watermark to now. *)
Lemma synchronize_without_window_witness :
  exists rest,
    sent (snd (synchronize_cve_data VNone VNone Sample.after_a_sync))
    = (sent Sample.after_a_sync
       ++ page_params 0 2000 (VStr "2024-01-04T09:00:00.000")
                      (VStr "2024-01-05T10:00:00+00:00") :: rest)%list
    /\ request_window (page_params 0 2000 (VStr "2024-01-04T09:00:00.000")
                         (VStr "2024-01-05T10:00:00+00:00"))
       = Some (VStr "2024-01-04T09:00:00.000", VStr "2024-01-05T10:00:00+00:00")
    /\ Forall (fun p => p = VDict []
                        \/ request_window p
                           = Some (VStr "2024-01-04T09:00:00.000",
                                   VStr "2024-01-05T10:00:00+00:00")) rest.
Proof.
  exact (proj1 (synchronize_without_window Sample.after_a_sync eq_refl) eq_refl).
Defined.

(** *** C9 *)

Lemma fetch_filtered_cve_data_swallows_store_failure_witness :
  fetch_filtered_cve_data (VStr "CVE-2024-0001") VNone VNone Sample.one_scored_down
  = (Ok [], add_logged ERROR "Error fetching filtered CVE data: %s"
              (add_logged INFO "Query: {query}" Sample.one_scored_down)).
Proof.
  exact (proj1 (fetch_filtered_cve_data_swallows_store_failure
                  (VStr "CVE-2024-0001") VNone VNone
                  [FieldEq ["id"] (VStr "CVE-2024-0001")] Sample.one_scored_down
                  (add_logged INFO "Query: {query}" Sample.one_scored_down) eq_refl)
               eq_refl).
Defined.

(** *** C10 *)

(** A lone start date, and one that is no date at all: the run goes ahead
    as if none had been given, and the date reaches no request. *)
Lemma synchronize_with_one_date_witness :
  exists first rest,
    sent (snd (synchronize_cve_data (VStr "not-a-date") VNone Sample.page_and_metadata))
    = (sent Sample.page_and_metadata ++ first :: rest)%list
    /\ Forall (fun p => p = VDict [] \/ request_window p = None) (first :: rest).
Proof.
  exact (proj2 (proj2 (proj2 (proj2
           (synchronize_with_one_date (VStr "not-a-date") Sample.page_and_metadata))))
           eq_refl (VStr "not-a-date") VNone (or_introl eq_refl)).
Defined.

(** *** C8 *)

(** C8.  A score of zero given as a number is not applied as a filter: with
    nothing else given, the call returns a record whose only score is 7.5,
    which does not carry the score 0.  The same score given as the string
    "0", as the filter view hands it over, is applied; and so is every
    score that is not zero, by equality (7.5 finds the record, 7.4 and 7.6
    do not). *)
Theorem fetch_filtered_cve_data_ignores_score_zero :
  fst (fetch_filtered_cve_data VNone (VNum 0) VNone Sample.one_scored) = Ok [Sample.r75]
  /\ has_score 0 Sample.r75 = false
  /\ fst (fetch_filtered_cve_data VNone (VStr "0") VNone Sample.one_scored) = Ok []
  /\ fst (fetch_filtered_cve_data VNone (VNum 7.5) VNone Sample.one_scored)
     = Ok [Sample.r75]
  /\ fst (fetch_filtered_cve_data VNone (VNum 7.4) VNone Sample.one_scored) = Ok []
  /\ fst (fetch_filtered_cve_data VNone (VNum 7.6) VNone Sample.one_scored) = Ok [].
Proof. repeat split. Qed.

End Examples.

(** ** Further worked examples *)

Section MoreExamples.

#[local] Existing Instance cpython.

(** A result without any [ObjectId] is returned as it is. *)
Lemma serialize_mongo_data_identity_witness :
  serialize_mongo_data Case.plain_result = Case.plain_result.
Proof. exact (serialize_mongo_data_identity Case.plain_result eq_refl). Defined.

(** [?baseScore=7.5] finds the stored record; [?baseScore=high] is answered
    with a 500 whose message is the text of the [ValueError] that [float]
    raised. *)
Lemma FilterCveDataView_get_response_witness :
  fst (FilterCveDataView_get Case.oid [("baseScore", "7.5")] Sample.one_scored)
  = Ok (Listed
          (mkJsonListResponse 200
             (BList [BDict (("_id", BStr (Case.oid Sample.r75))
                            :: map (fun e => (fst e, of_value (snd e))) Sample.r75)])))
  /\ FilterCveDataView_get Case.oid [("baseScore", "high")] Sample.one_scored
     = (Ok (Failed (mkJsonResponse 500 [("status", Words "error");
                                        ("message", StrOf ValueError)])),
        add_logged ERROR "Error filtering CVE data: {e}" Sample.one_scored).
Proof.
  split.
  - exact (proj1 (FilterCveDataView_get_response Case.oid [("baseScore", "7.5")]
                    Sample.one_scored)
                 [AnyOf [(V2_SCORE, VNum (15 # 2)); (V3_SCORE, VNum (15 # 2))]]
                 (add_logged INFO "Query: {query}" Sample.one_scored) eq_refl).
  - exact (proj2 (FilterCveDataView_get_response Case.oid [("baseScore", "high")]
                    Sample.one_scored)
                 ValueError Sample.one_scored eq_refl).
Defined.

Lemma fetch_filtered_cve_data_bad_number_witness :
  fetch_filtered_cve_data VNone (VStr "high") VNone Sample.one_scored
  = (Raise ValueError, Sample.one_scored)
  /\ fetch_filtered_cve_data VNone VNone (VStr "soon") Sample.one_scored
     = (Raise ValueError, Sample.one_scored).
Proof.
  split.
  - apply (proj1 (fetch_filtered_cve_data_bad_number VNone VNone "high"
                    Sample.one_scored)); [ discriminate | reflexivity ].
  - apply (proj2 (fetch_filtered_cve_data_bad_number VNone VNone "soon"
                    Sample.one_scored)); reflexivity.
Defined.

(** A record without a usable id, a record that is stored already, the same
    with the store out of reach, and a record that is a string. *)
Lemma is_valid_cve_admits_witness :
  is_valid_cve (VDict [("id", VStr EmptyString)]) Case.holding_a = (Ok false, Case.holding_a)
  /\ is_valid_cve (VDict Sample.a) Case.holding_a = (Ok false, Case.holding_a)
  /\ is_valid_cve (VDict Sample.b) Case.holding_a = (Ok true, Case.holding_a)
  /\ is_valid_cve (VDict Sample.a) Case.holding_a_down
     = (Raise ConnectionFailure, Case.holding_a_down)
  /\ is_valid_cve (VStr "CVE-2024-0001") Case.holding_a
     = (Raise AttributeError, Case.holding_a).
Proof.
  split; [ | split; [ | split; [ | split ] ] ].
  - apply (proj1 (is_valid_cve_admits [("id", VStr EmptyString)] Case.holding_a)).
    reflexivity.
  - apply (proj1 (proj2 (is_valid_cve_admits Sample.a Case.holding_a))); reflexivity.
  - apply (proj1 (proj2 (is_valid_cve_admits Sample.b Case.holding_a))); reflexivity.
  - apply (proj1 (proj2 (proj2 (is_valid_cve_admits Sample.a Case.holding_a_down))));
      reflexivity.
  - apply (proj2 (proj2 (proj2 (is_valid_cve_admits Sample.a Case.holding_a)))).
    discriminate.
Defined.

(** A 503 on the first request. *)
Lemma fetch_and_store_cve_data_feed_failure_witness :
  fst (fetch_and_store_cve_data 0 2000 VNone VNone Case.feed_down) = Ok tt
  /\ sent (snd (fetch_and_store_cve_data 0 2000 VNone VNone Case.feed_down))
     = (sent Case.feed_down ++ [page_params 0 2000 VNone VNone])%list
  /\ cve_collection (snd (fetch_and_store_cve_data 0 2000 VNone VNone Case.feed_down))
     = cve_collection Case.feed_down
  /\ last_sync_timestamp (snd (fetch_and_store_cve_data 0 2000 VNone VNone Case.feed_down))
     = last_sync_timestamp Case.feed_down
  /\ exists msg,
       logged (snd (fetch_and_store_cve_data 0 2000 VNone VNone Case.feed_down))
       = (logged Case.feed_down ++ [(ERROR, msg)])%list.
Proof.
  exact (fetch_and_store_cve_data_feed_failure 0 2000 VNone VNone Case.feed_down eq_refl).
Defined.

(** A page that reports one result in all: the metadata answer that follows
    it in the feed is left for the caller. *)
Lemma fetch_and_store_cve_data_last_page_witness :
  sent (snd (fetch_and_store_cve_data 0 2000 VNone VNone Sample.page_and_metadata))
  = (sent Sample.page_and_metadata ++ [page_params 0 2000 VNone VNone])%list
  /\ nvd (snd (fetch_and_store_cve_data 0 2000 VNone VNone Sample.page_and_metadata))
     = [Sample.metadata "2024-01-05T10:00:01.000"].
Proof.
  eapply (fetch_and_store_cve_data_last_page 0 2000 VNone VNone); reflexivity.
Defined.

(** The view says "success" on a 503 of the feed, and answers 500, with the
    text of the decoder's exception as the message, when the body of a 200
    is not JSON. *)
Lemma UpdateCveDataView_get_answers_witness :
  (fst (UpdateCveDataView_get Case.feed_down)
   = Ok (mkJsonResponse 200 [("status", Words "success");
                             ("message", Words "CVE data updated successfully.")])
   /\ cve_collection (snd (UpdateCveDataView_get Case.feed_down))
      = cve_collection Case.feed_down)
  /\ UpdateCveDataView_get Case.bad_json
     = (Ok (mkJsonResponse 500 [("status", Words "error");
                                ("message", StrOf JSONDecodeError)]),
        add_logged ERROR "Error updating CVE data: {e}"
                   (snd (fetch_and_store_cve_data 0 2000 VNone VNone Case.bad_json)))
  /\ exists e, fst (fetch_and_store_cve_data 0 2000 VNone VNone Case.bad_json) = Raise e.
Proof.
  split; [ | split ].
  - exact (proj1 (UpdateCveDataView_get_answers Case.feed_down) eq_refl).
  - exact (proj1 (proj2 (UpdateCveDataView_get_answers Case.bad_json))
                 JSONDecodeError eq_refl).
  - exact (proj2 (proj2 (UpdateCveDataView_get_answers Case.bad_json))
                 _ eq_refl eq_refl).
Defined.

Lemma synchronize_invalid_date_format_witness :
  synchronize_cve_data (VStr "yesterday") (VStr "2024-01-05") Sample.one_page
  = (Ok tt,
     add_logged ERROR "Invalid date format: %s"
       (add_logged INFO "Starting CVE data synchronization." Sample.one_page)).
Proof.
  apply synchronize_invalid_date_format;
    [ reflexivity | discriminate | discriminate | left; reflexivity ].
Defined.

(** A start without an offset and an end with one; a start that is a
    number. *)
Lemma synchronize_raises_past_the_validation_witness :
  synchronize_cve_data (VStr "2024-01-01") (VStr "2024-02-01T00:00:00Z") Sample.one_page
  = (Raise TypeError, add_logged INFO "Starting CVE data synchronization." Sample.one_page)
  /\ synchronize_cve_data (VNum 20240101) (VStr "2024-02-01") Sample.one_page
     = (Raise AttributeError,
        add_logged INFO "Starting CVE data synchronization." Sample.one_page).
Proof.
  split.
  - eapply (proj1 (synchronize_raises_past_the_validation Sample.one_page eq_refl));
      [ discriminate | discriminate | reflexivity | reflexivity | discriminate ].
  - apply (proj2 (synchronize_raises_past_the_validation Sample.one_page eq_refl));
      [ reflexivity | reflexivity | discriminate ].
Defined.

(** A run that raises on a body that is not JSON. *)
Lemma synchronize_watermark_moves_only_on_return_witness :
  last_sync_timestamp (snd (synchronize_cve_data VNone VNone Case.bad_json))
  = last_sync_timestamp Case.bad_json.
Proof.
  apply synchronize_watermark_moves_only_on_return.
  intros H. vm_compute in H. discriminate H.
Defined.

(** The page request gets a 503, the metadata call an answer. *)
Lemma synchronize_moves_watermark_without_data_witness :
  fst (synchronize_cve_data VNone VNone Case.page_down_metadata_up) = Ok tt
  /\ cve_collection (snd (synchronize_cve_data VNone VNone Case.page_down_metadata_up))
     = cve_collection Case.page_down_metadata_up
  /\ last_sync_timestamp (snd (synchronize_cve_data VNone VNone Case.page_down_metadata_up))
     = VStr "2024-01-05T10:00:01.000"
  /\ nvd (snd (synchronize_cve_data VNone VNone Case.page_down_metadata_up)) = [].
Proof.
  apply (synchronize_moves_watermark_without_data
           VNone VNone (Http 503 None) [("timestamp", VStr "2024-01-05T10:00:01.000")] []
           Case.page_down_metadata_up);
    [ reflexivity | reflexivity | reflexivity | reflexivity | discriminate ].
Defined.

(** Asked on 2024-01-05 at 10:00 for the records of the last day, the
    filter does not return a record last modified on 2024-01-04. *)
Lemma fetch_filtered_cve_data_skips_first_day_witness :
  fst (fetch_filtered_cve_data VNone VNone (VNum 1) Case.holding_yesterday) = Ok []
  /\ ~ In Case.of_yesterday [].
Proof.
  split; [ reflexivity | ].
  apply (fetch_filtered_cve_data_skips_first_day
           (VNum 1) 1 (mkDatetime true 1704362400000000) Case.of_yesterday
           Case.holding_yesterday);
    [ discriminate | reflexivity | reflexivity | reflexivity | reflexivity ].
Defined.

(** A page with a record that is stored already, a wrapper without a
    record, and a new record: the batch is the new record, cleaned. *)
Lemma prepare_bulk_operations_batch_witness :
  fst (prepare_bulk_operations (VList [Sample.A; VDict []; Sample.B]) Case.holding_a)
  = Ok [Sample.b]
  /\ cve_collection
       (snd (prepare_bulk_operations (VList [Sample.A; VDict []; Sample.B]) Case.holding_a))
     = cve_collection Case.holding_a.
Proof.
  exact (prepare_bulk_operations_batch [Sample.A; VDict []; Sample.B] Case.holding_a
           eq_refl eq_refl).
Defined.

(** The page of the record A, once A is stored. *)
Lemma prepare_bulk_operations_second_pass_witness :
  fst (prepare_bulk_operations (VList [Sample.A]) Case.holding_a) = Ok [].
Proof.
  exact (prepare_bulk_operations_second_pass [Sample.A] Sample.idle Case.holding_a
           eq_refl eq_refl eq_refl).
Defined.

End MoreExamples.
